(** * BeanHealth: [generate_recipes_json.py]

    A shallow embedding of the recipe converter.  The script loads the sheet
    "Nutrient Data" of a workbook into a pandas [DataFrame], projects and
    renames eight columns, fills missing cells with 0, rounds the seven
    numeric columns to one decimal, turns the frame into a list of dicts and
    dumps that list as JSON text into the destination file.  Every error is
    caught by one [try]/[except Exception] around the whole body.

    pandas, numpy and the [json] module are modelled as far as the script
    uses them: columns carry a dtype ([float64], [int64] or [object]),
    [float64] arithmetic is IEEE 754 binary64 as specified by the Standard
    Library's [SpecFloat], and [json.dump] writes the text produced by the
    pure-Python encoder (the one used when [indent] is given). *)

From Stdlib Require Import ZArith Lia Bool Ascii String.
From Stdlib Require Import Floats.SpecFloat.
From stdpp Require Import base option list strings.

Local Open Scope string_scope.
Local Open Scope Z_scope.

#[local] Arguments String.append : simpl nomatch.

(** ** binary64 arithmetic *)

Module F64.

Definition prec : Z := 53.
Definition emax : Z := 1024.

(** A [float64] value.  [S754_nan] is the missing value of a float
    column. *)
Definition float : Type := spec_float.

Definition mul : float → float → float := SFmul prec emax.
Definition div : float → float → float := SFdiv prec emax.

(** The binary64 number nearest to the integer [n]; [s] is the sign given
    to a zero. *)
Definition of_Z (s : bool) (n : Z) : float := binary_normalize prec emax n 0 s.

Definition zero : float := S754_zero false.
Definition ten : float := Eval vm_compute in of_Z false 10.

Definition is_nan (x : float) : bool :=
  match x with S754_nan => true | _ => false end.

Definition is_finite (x : float) : bool :=
  match x with S754_zero _ | S754_finite _ _ _ => true | _ => false end.

(** Nearest integer to [q + r/d] (with [0 <= r < d]), ties to the even
    one. *)
Definition half_even (q r d : Z) : Z :=
  match 2 * r ?= d with
  | Lt => q
  | Gt => q + 1
  | Eq => if Z.even q then q else q + 1
  end.

(** [numpy.rint]: round to an integral value in the current rounding mode
    (to nearest, ties to even); keeps the sign, also of a zero result. *)
Definition rint (x : float) : float :=
  match x with
  | S754_finite s m e =>
      if 0 <=? e then x
      else
        let d := 2 ^ (- e) in
        of_Z s (cond_Zopp s (half_even (Z.pos m / d) (Z.pos m mod d) d))
  | _ => x
  end.

(** [numpy.round(x, 1)] on a float64: numpy multiplies by [10.0], calls
    [rint] and divides by [10.0]. *)
Definition round1 (x : float) : float := div (rint (mul x ten)) ten.

End F64.

Abbreviation float := F64.float.

(** ** Python values and exceptions *)

(** The Python objects that reach the script: cells of an [object] column
    and the boxed values of [DataFrame.to_dict].  A string is a sequence of
    characters with code below 256. *)
Inductive pyobj : Type :=
  | PyNone
  | PyBool (b : bool)
  | PyInt (n : Z)
  | PyFloat (x : float)
  | PyStr (s : string)
  | PyDatetime (t : Z).

(** Exception classes.  All but [KeyboardInterrupt] derive from
    [Exception]. *)
Inductive exn_class : Type :=
  | FileNotFoundError
  | PermissionError
  | BadZipFile
  | ValueError
  | KeyError
  | TypeError
  | KeyboardInterrupt.

Record exn : Type := Raise { exn_type : exn_class; exn_str : string }.

Definition is_Exception (c : exn_class) : bool :=
  match c with
  | KeyboardInterrupt => false
  | _ => true
  end.

(** Results of code that may raise. *)
Definition result (A : Type) : Type := exn + A.

#[global] Instance result_bind : MBind result :=
  λ A B k r, match r with inl e => inl e | inr a => k a end.

#[global] Instance result_ret : MRet result := λ A a, inr a.

Definition raise {A : Type} (c : exn_class) (msg : string) : result A :=
  inl (Raise c msg).

(** ** The pandas data model *)

(** A column with its dtype.  In a [float64] column the missing value is
    NaN; an [int64] column has no missing value; an [object] column holds
    Python objects, the missing ones being [None] and NaN.  [read_excel]
    gives a numeric dtype to a column whose cells are all numbers or empty,
    and [object] to a column with text in it. *)
Inductive Series : Type :=
  | Float64 (data : list float)
  | Int64 (data : list Z)
  | Object (data : list pyobj).

Definition series_len (s : Series) : nat :=
  match s with
  | Float64 l => length l
  | Int64 l => length l
  | Object l => length l
  end.

(** The cell at row [i] as the Python object that [to_dict] hands out
    ([numpy.float64] is boxed to [float], [numpy.int64] to [int]). *)
Definition series_at (s : Series) (i : nat) : option pyobj :=
  match s with
  | Float64 l => PyFloat <$> l !! i
  | Int64 l => PyInt <$> l !! i
  | Object l => l !! i
  end.

(** [pandas.isna] on a cell. *)
Definition isna (v : pyobj) : bool :=
  match v with
  | PyNone => true
  | PyFloat x => F64.is_nan x
  | _ => false
  end.

Definition is_number (v : pyobj) : bool :=
  match v with
  | PyInt _ | PyFloat _ => true
  | _ => false
  end.

Definition is_text (v : pyobj) : bool :=
  match v with
  | PyStr _ => true
  | _ => false
  end.

(** A frame: the number of rows (the length of its index) and its columns
    in order. *)
Record DataFrame : Type := Frame {
  nrows : nat;
  columns : list (string * Series)
}.

(** Every column has one cell per row, and labels are unique ([read_excel]
    renames a repeated header to [h.1], [h.2], ...). *)
Definition wf_frame (df : DataFrame) : Prop :=
  Forall (λ c, series_len c.2 = nrows df) (columns df) ∧ NoDup (columns df).*1.

Fixpoint alist_get {A : Type} (k : string) (l : list (string * A)) : option A :=
  match l with
  | [] => None
  | (k', v) :: l' => if String.eqb k k' then Some v else alist_get k l'
  end.

Definition column (df : DataFrame) (c : string) : option Series :=
  alist_get c (columns df).

(** The source cell of column [c] at row [i]. *)
Definition cell (df : DataFrame) (c : string) (i : nat) : option pyobj :=
  s ← column df c; series_at s i.

(** *** The operations the script calls *)

(** The character [0x22]. *)
Definition dquote : string := String (ascii_of_nat 34) "".

Fixpoint format_labels (l : list string) : string :=
  match l with
  | [] => ""
  | [c] => "'" ++ c ++ "'"
  | c :: l' => "'" ++ c ++ "', " ++ format_labels l'
  end.

(** [df[keys]] with a list of labels: the named columns in the order of
    [keys]; [KeyError] when a label is not a column (the message is the one
    pandas gives when only some labels are missing). *)
Definition has_column (df : DataFrame) (c : string) : bool :=
  match column df c with Some _ => true | None => false end.

Definition getitem (df : DataFrame) (keys : list string) : result DataFrame :=
  let missing := List.filter (λ k, negb (has_column df k)) keys in
  match missing with
  | [] => mret (Frame (nrows df) (omap (λ k, (k,.) <$> column df k) keys))
  | _ => raise KeyError (dquote ++ "[" ++ format_labels missing ++ "] not in index" ++ dquote)
  end.

(** [df.rename(columns=mapping)]: labels in the mapping are replaced, the
    others kept. *)
Definition rename (mapping : list (string * string)) (df : DataFrame) : DataFrame :=
  Frame (nrows df)
        (map (λ c, (default c.1 (alist_get c.1 mapping), c.2)) (columns df)).

Definition fillna_series (s : Series) : Series :=
  match s with
  | Float64 l => Float64 (map (λ x, if F64.is_nan x then F64.zero else x) l)
  | Int64 l => Int64 l
  | Object l => Object (map (λ v, if isna v then PyInt 0 else v) l)
  end.

(** [df.fillna(0)]: every missing cell of every column becomes 0 (0.0 in a
    float column, the int 0 in an object column). *)
Definition fillna (df : DataFrame) : DataFrame :=
  Frame (nrows df) (map (λ c, (c.1, fillna_series c.2)) (columns df)).

(** [Series.round(1)] as [DataFrame.round] applies it: numeric columns
    only; rounding an integer column changes nothing. *)
Definition round_series (s : Series) : Series :=
  match s with
  | Float64 l => Float64 (map F64.round1 l)
  | Int64 l => Int64 l
  | Object l => Object l
  end.

Definition round (df : DataFrame) : DataFrame :=
  Frame (nrows df) (map (λ c, (c.1, round_series c.2)) (columns df)).

(** [df[keys] = value] with a frame on the right: the columns of [df]
    named in [keys] are replaced, position by position, by the columns of
    [value]. *)
Definition setitem (df : DataFrame) (keys : list string) (value : DataFrame)
  : DataFrame :=
  let new := zip keys (columns value).*2 in
  Frame (nrows df) (map (λ c, (c.1, default c.2 (alist_get c.1 new))) (columns df)).

(** One record of [to_dict(orient='records')]: a dict, kept as the list of
    its items in insertion order (the order [json.dump] writes them in). *)
Definition record : Type := list (string * pyobj).

Definition row_record (df : DataFrame) (i : nat) : record :=
  omap (λ c, (c.1,.) <$> series_at c.2 i) (columns df).

Definition to_dict (df : DataFrame) : list record :=
  map (row_record df) (seq 0 (nrows df)).

(** ** The transformation of [generate_recipe_json] *)

Definition relevant_cols : list (string * string) :=
  [ ("food_name", "name");
    ("energy_kcal", "calories");
    ("protein_g", "proteinG");
    ("fat_g", "fatG");
    ("carb_g", "carbG");
    ("sodium_mg", "sodiumMg");
    ("potassium_mg", "potassiumMg");
    ("phosphorus_mg", "phosphorusMg") ].

Definition num_cols : list string :=
  [ "calories"; "proteinG"; "fatG"; "carbG"; "sodiumMg"; "potassiumMg";
    "phosphorusMg" ].

(** Lines 24 to 34: from the loaded frame to [recipes_list]. *)
Definition transform (df : DataFrame) : result (list record) :=
  selected ← getitem df relevant_cols.*1;
  let recipes_df := rename relevant_cols selected in
  let recipes_df := fillna recipes_df in
  sub ← getitem recipes_df num_cols;
  let recipes_df := setitem recipes_df num_cols (round sub) in
  mret (to_dict recipes_df).

(** ** The conversion, row by row

    What the spec describes: each source row gives one record; a cell is
    cleaned according to the dtype of its column. *)

Inductive dtype : Type := float64 | int64 | object.

Definition dtype_of (s : Series) : dtype :=
  match s with
  | Float64 _ => float64
  | Int64 _ => int64
  | Object _ => object
  end.

Definition fill_cell (d : dtype) (v : pyobj) : pyobj :=
  if isna v then match d with float64 => PyFloat F64.zero | _ => PyInt 0 end
  else v.

Definition round_cell (d : dtype) (v : pyobj) : pyobj :=
  match d, v with
  | float64, PyFloat x => PyFloat (F64.round1 x)
  | _, _ => v
  end.

Definition clean_cell (numeric : bool) (d : dtype) (v : pyobj) : pyobj :=
  let v := fill_cell d v in
  if numeric then round_cell d v else v.

Definition is_num_col (dst : string) : bool := existsb (String.eqb dst) num_cols.

Definition convert_field (df : DataFrame) (i : nat) (m : string * string)
  : option (string * pyobj) :=
  s ← column df m.1;
  v ← series_at s i;
  Some (m.2, clean_cell (is_num_col m.2) (dtype_of s) v).

Definition convert_row (df : DataFrame) (i : nat) : option record :=
  mapM (convert_field df i) relevant_cols.

(** ** Decimal digits *)

Module Digits.

Definition digit_char (n : Z) : ascii := ascii_of_nat (48 + Z.to_nat n).

Definition is_digit (c : ascii) : bool :=
  let n := nat_of_ascii c in Nat.leb 48 n && Nat.leb n 57.

Fixpoint digits_from (fuel : nat) (n : Z) (acc : string) : string :=
  match fuel with
  | O => acc
  | S fuel' =>
      let acc' := String (digit_char (n mod 10)) acc in
      if n <? 10 then acc' else digits_from fuel' (n / 10) acc'
  end.

(** The decimal digits of [n >= 0], without leading zeros. *)
Definition digits (n : Z) : string := digits_from (S (Z.to_nat (Z.log2 n))) n "".

(** The number written by a string of digits, after the digits [acc]. *)
Fixpoint value_from (s : string) (acc : Z) : Z :=
  match s with
  | EmptyString => acc
  | String c s' => value_from s' (10 * acc + (Z.of_nat (nat_of_ascii c) - 48))
  end.

Definition value (s : string) : Z := value_from s 0.

End Digits.

(** ** Decimal text of a float64

    [float.__repr__] prints the shortest decimal string that reads back as
    the same float, and [float(text)] reads a decimal string as the nearest
    float (ties to even). *)

Module Repr.

(** The float nearest to [d * 10^k], for [d > 0]. *)
Definition round_decimal (d : positive) (k : Z) : float :=
  if 0 <=? k then binary_normalize F64.prec F64.emax (Z.pos d * 10 ^ k) 0 false
  else SFdiv F64.prec F64.emax
         (S754_finite false d 0) (S754_finite false (Z.to_pos (10 ^ (- k))) 0).

(** Removes the zeros at the end of [d], counting them in [k]. *)
Fixpoint strip_zeros (fuel : nat) (d k : Z) : Z * Z :=
  match fuel with
  | O => (d, k)
  | S fuel' => if d mod 10 =? 0 then strip_zeros fuel' (d / 10) (k + 1) else (d, k)
  end.

(** [float(text)] for the digits [d] and the exponent [k]: the decimal is
    taken without its trailing zeros and rounded to the nearest float. *)
Definition of_decimal (d : positive) (k : Z) : float :=
  match strip_zeros (Pos.size_nat d) (Z.pos d) k with
  | (Z.pos d', k') => round_decimal d' k'
  | _ => S754_nan
  end.

(** [m * 2^e] as a fraction. *)
Definition num (m : positive) (e : Z) : Z := if 0 <=? e then Z.pos m * 2 ^ e else Z.pos m.
Definition den (e : Z) : Z := if 0 <=? e then 1 else 2 ^ (- e).

(** [n / d < 10^p]. *)
Definition below_pow10 (n d p : Z) : bool :=
  if 0 <=? p then n <? d * 10 ^ p else n * 10 ^ (- p) <? d.

Fixpoint first_above (fuel : nat) (n d p : Z) : Z :=
  match fuel with
  | O => p
  | S fuel' => if below_pow10 n d p then p else first_above fuel' n d (p + 1)
  end.

(** The position of the decimal point: the [p] with
    [10^(p-1) <= m * 2^e < 10^p].  The search starts just below the
    estimate given by the number of bits. *)
Definition decpt (m : positive) (e : Z) : Z :=
  let bits := Z.pos (digits2_pos m) + e in
  first_above 4 (num m e) (den e) ((bits - 1) * 30103 / 100000 - 1).

Definition reads_back (x : float) (d k : Z) : bool :=
  match d with
  | Z.pos d' => SFeqb (of_decimal d' k) x
  | _ => false
  end.

(** The candidates with [n] digits: with [s = m * 2^e / 10^(p-n)], the
    integers [floor s] and [floor s + 1]; the one that reads back as [x] and
    is nearest to [s] is taken (the even one when both are as near). *)
Definition candidate (x : float) (m : positive) (e p : Z) (n : Z) : option (Z * Z) :=
  let k := p - n in
  let sn := if 0 <=? k then num m e else num m e * 10 ^ (- k) in
  let sd := if 0 <=? k then den e * 10 ^ k else den e in
  let lo := sn / sd in
  let r := sn mod sd in
  let ok_lo := reads_back x lo k in
  let ok_hi := negb (r =? 0) && reads_back x (lo + 1) k in
  let pick :=
    match ok_lo, ok_hi with
    | true, true =>
        match 2 * r ?= sd with
        | Lt => Some lo
        | Gt => Some (lo + 1)
        | Eq => Some (if Z.even lo then lo else lo + 1)
        end
    | true, false => Some lo
    | false, true => Some (lo + 1)
    | false, false => None
    end in
  (λ d, strip_zeros 17 d k) <$> pick.

Fixpoint search (fuel : nat) (x : float) (m : positive) (e p : Z) (n : Z)
  : option (Z * Z) :=
  match fuel with
  | O => None
  | S fuel' =>
      match candidate x m e p n with
      | Some c => Some c
      | None => search fuel' x m e p (n + 1)
      end
  end.

(** The shortest digits of [x = m * 2^e]: [(d, k)] with [d * 10^k] reading
    back as [x], [d] of at most 17 digits. *)
Definition shortest (m : positive) (e : Z) : option (Z * Z) :=
  search 17 (S754_finite false m e) m e (decpt m e) 1.

Definition digits : Z → string := Digits.digits.

Fixpoint zeros (n : nat) : string :=
  match n with
  | O => ""
  | S n' => String "0" (zeros n')
  end.

(** The slices [s[:n]] and [s[n:]]. *)
Fixpoint take (n : nat) (s : string) : string :=
  match n, s with
  | S n', String c s' => String c (take n' s')
  | _, _ => ""
  end.

Fixpoint drop (n : nat) (s : string) : string :=
  match n, s with
  | S n', String _ s' => drop n' s'
  | _, _ => s
  end.

(** The layout of [repr]: digits [ds] with the decimal point after the
    first [p] of them; exponent notation when [p <= -4] or [p > 16]. *)
Definition layout (ds : string) (p : Z) : string :=
  let n := Z.of_nat (String.length ds) in
  if (p <=? -4) || (16 <? p) then
    let ex := p - 1 in
    let exs := digits (Z.abs ex) in
    take 1 ds
      ++ (if 1 <? n then "." ++ drop 1 ds else "")
      ++ "e" ++ (if ex <? 0 then "-" else "+")
      ++ (if Z.abs ex <? 10 then "0" else "") ++ exs
  else if p <=? 0 then "0." ++ zeros (Z.to_nat (- p)) ++ ds
  else if n <=? p then ds ++ zeros (Z.to_nat (p - n)) ++ ".0"
  else take (Z.to_nat p) ds ++ "." ++ drop (Z.to_nat p) ds.

(** [float.__repr__]. *)
Definition repr (x : float) : string :=
  match x with
  | S754_zero s => if s then "-0.0" else "0.0"
  | S754_infinity s => if s then "-inf" else "inf"
  | S754_nan => "nan"
  | S754_finite s m e =>
      match shortest m e with
      | Some (d, k) =>
          let ds := digits d in
          (if s then "-" else "") ++ layout ds (k + Z.of_nat (String.length ds))
      | None => ""
      end
  end.

End Repr.

(** ** [json.dump(recipes_list, f, indent=2)] *)

Module Json.

Definition newline : string := String (ascii_of_nat 10) "".
Definition backslash : string := String (ascii_of_nat 92) "".

Definition hex_digit (n : nat) : ascii :=
  ascii_of_nat (if Nat.ltb n 10 then 48 + n else 87 + n).

(** One character of [encode_basestring_ascii]: the quote, the backslash
    and the control characters with a short escape are written with it;
    anything else outside [' '..'~'] as [\u00xx]. *)
Definition escape_char (c : ascii) : string :=
  let n := nat_of_ascii c in
  if Nat.eqb n 34 then backslash ++ dquote
  else if Nat.eqb n 92 then backslash ++ backslash
  else if Nat.eqb n 10 then backslash ++ "n"
  else if Nat.eqb n 13 then backslash ++ "r"
  else if Nat.eqb n 9 then backslash ++ "t"
  else if Nat.eqb n 12 then backslash ++ "f"
  else if Nat.eqb n 8 then backslash ++ "b"
  else if Nat.ltb n 32 || Nat.ltb 126 n then
    backslash ++ "u00" ++ String (hex_digit (n / 16)) (String (hex_digit (n mod 16)) "")
  else String c "".

Fixpoint escape (s : string) : string :=
  match s with
  | EmptyString => ""
  | String c s' => escape_char c ++ escape s'
  end.

Definition encode_basestring_ascii (s : string) : string :=
  dquote ++ escape s ++ dquote.

(** [int.__repr__]. *)
Definition intstr (n : Z) : string :=
  if n <? 0 then "-" ++ Digits.digits (- n) else Digits.digits n.

(** [floatstr] of the encoder, with [allow_nan] left at its default. *)
Definition floatstr (x : float) : string :=
  match x with
  | S754_nan => "NaN"
  | S754_infinity false => "Infinity"
  | S754_infinity true => "-Infinity"
  | _ => Repr.repr x
  end.

(** The text of the chunks yielded so far, and the exception that ended
    the iteration, if any. *)
Definition chunks : Type := string * option exn.

Definition yield (s : string) : chunks := (s, None).

Definition then_ (a b : chunks) : chunks :=
  match a with
  | (s, None) => (s ++ b.1, b.2)
  | (s, Some e) => (s, Some e)
  end.

Infix ">>" := then_ (at level 62, left associativity).

(** A value of a dict.  An object the encoder does not know goes to
    [JSONEncoder.default], which raises. *)
Definition iterencode_value (v : pyobj) : chunks :=
  match v with
  | PyStr s => yield (encode_basestring_ascii s)
  | PyNone => yield "null"
  | PyBool true => yield "true"
  | PyBool false => yield "false"
  | PyInt n => yield (intstr n)
  | PyFloat x => yield (floatstr x)
  | PyDatetime _ =>
      ("", Some (Raise TypeError "Object of type datetime is not JSON serializable"))
  end.

Fixpoint indent (level : nat) : string :=
  match level with
  | O => ""
  | S l => "  " ++ indent l
  end.

Fixpoint iterencode_items (first : bool) (level : nat) (items : record) : chunks :=
  match items with
  | [] => yield ""
  | (key, value) :: items' =>
      (if first then yield "" else yield ("," ++ newline ++ indent level))
      >> yield (encode_basestring_ascii key)
      >> yield ": "
      >> iterencode_value value
      >> iterencode_items false level items'
  end.

(** [_iterencode_dict] at indentation [level]. *)
Definition iterencode_dict (level : nat) (dct : record) : chunks :=
  match dct with
  | [] => yield "{}"
  | _ =>
      yield "{"
      >> yield (newline ++ indent (S level))
      >> iterencode_items true (S level) dct
      >> yield (newline ++ indent level)
      >> yield "}"
  end.

Fixpoint iterencode_elements (first : bool) (level : nat) (lst : list record) : chunks :=
  match lst with
  | [] => yield ""
  | value :: lst' =>
      yield (if first then "[" ++ newline ++ indent level
             else "," ++ newline ++ indent level)
      >> iterencode_dict level value
      >> iterencode_elements false level lst'
  end.

(** [_iterencode_list] at the top level. *)
Definition iterencode_list (lst : list record) : chunks :=
  match lst with
  | [] => yield "[]"
  | _ =>
      iterencode_elements true 1 lst
      >> yield (newline ++ indent 0)
      >> yield "]"
  end.

End Json.

(** ** Files and the console *)

Inductive source_file : Type :=
  | NoFile
  | NotAWorkbook
  | Workbook (sheets : list (string * DataFrame)).

Inductive directory : Type :=
  | NoDirectory
  | ReadOnly
  | Writable.

(** What the script can see and change: the workbook at [file_path], the
    directory of [output_path], the content of the file at [output_path]
    ([None] when there is no such file), and the lines printed. *)
Record World : Type := MkWorld {
  source : source_file;
  dest_dir : directory;
  dest : option string;
  stdout : list string
}.

Definition file_path : string :=
  "/Users/harish/Desktop/BeanHealth-main/Indian-Nutrient-Databank-INDB--main/INDB.xlsx".
Definition output_path : string :=
  "/Users/harish/Desktop/BeanHealth-main/src/data/recipes.json".

(** [pd.read_excel(file_path, sheet_name='Nutrient Data')]. *)
Definition read_excel (w : World) : result DataFrame :=
  match source w with
  | NoFile =>
      raise FileNotFoundError
        ("[Errno 2] No such file or directory: '" ++ file_path ++ "'")
  | NotAWorkbook =>
      raise ValueError
        "Excel file format cannot be determined, you must specify an engine manually."
  | Workbook sheets =>
      match alist_get "Nutrient Data" sheets with
      | Some df => mret df
      | None => raise ValueError "Worksheet named 'Nutrient Data' not found"
      end
  end.

(** [open(output_path, 'w')]: creates the file or empties it. *)
Definition open_w (w : World) : result World :=
  match dest_dir w with
  | NoDirectory =>
      raise FileNotFoundError
        ("[Errno 2] No such file or directory: '" ++ output_path ++ "'")
  | ReadOnly =>
      raise PermissionError ("[Errno 13] Permission denied: '" ++ output_path ++ "'")
  | Writable => mret (MkWorld (source w) (dest_dir w) (Some "") (stdout w))
  end.

(** [f.write] of all the chunks, followed by the [close] that ends the
    [with] block: the text reaches the file whether or not the encoder
    raised. *)
Definition write (text : string) (w : World) : World :=
  MkWorld (source w) (dest_dir w) ((λ old, old ++ text) <$> dest w) (stdout w).

Definition print (line : string) (w : World) : World :=
  MkWorld (source w) (dest_dir w) (dest w) (stdout w ++ [line]).

Definition count (n : nat) : string := Digits.digits (Z.of_nat n).

(** ** [generate_recipe_json] *)

(** The body of the [try]: the exception it raises, if any, and the world
    it leaves. *)
Definition try_body (w : World) : option exn * World :=
  match read_excel w with
  | inl e => (Some e, w)
  | inr df =>
      match transform df with
      | inl e => (Some e, w)
      | inr recipes_list =>
          match open_w w with
          | inl e => (Some e, w)
          | inr w1 =>
              let '(text, raised) := Json.iterencode_list recipes_list in
              let w2 := write text w1 in
              match raised with
              | Some e => (Some e, w2)
              | None =>
                  (None,
                   print ("Successfully generated " ++ count (length recipes_list)
                          ++ " recipes at " ++ output_path) w2)
              end
          end
      end
  end.

(** The whole function: [except Exception as e] prints the error; an
    exception that is not an [Exception] would go through. *)
Definition generate_recipe_json (w : World) : option exn * World :=
  match try_body w with
  | (None, w') => (None, w')
  | (Some e, w') =>
      if is_Exception (exn_type e)
      then (None, print ("An error occurred: " ++ exn_str e) w')
      else (Some e, w')
  end.

(** Running the script: the exit status is 0 unless an exception reaches
    the top level. *)
Definition main (w : World) : Z * World :=
  match generate_recipe_json w with
  | (None, w') => (0, w')
  | (Some _, w') => (1, w')
  end.

(** ** The cleaned frame, column by column *)

Definition clean_series (numeric : bool) (s : Series) : Series :=
  if numeric then round_series (fillna_series s) else fillna_series s.

Definition clean_column (df : DataFrame) (m : string * string)
  : option (string * Series) :=
  s ← column df m.1; Some (m.2, clean_series (is_num_col m.2) s).

Definition cleaned (df : DataFrame) : DataFrame :=
  Frame (nrows df) (omap (clean_column df) relevant_cols).

(** The seven numeric fields with their output keys. *)
Definition numeric_fields : list (string * string) :=
  List.filter (λ m, is_num_col m.2) relevant_cols.

Definition output_keys : list string := relevant_cols.*2.

Definition is_numeric_dtype (s : Series) : bool :=
  match s with
  | Object _ => false
  | _ => true
  end.

(** A number equal to 0. *)
Definition is_zero (v : pyobj) : bool :=
  match v with
  | PyInt 0 => true
  | PyFloat (S754_zero _) => true
  | _ => false
  end.

(** ** Rounding to one decimal, exactly

    What "the source value rounded to one decimal place" means for a
    float: the tenth nearest to the real number the float stands for,
    under one of the two tie rules the spec allows. *)

Inductive tie_rule : Type := HalfEven | HalfAwayFromZero.

(** Nearest integer to [q + r/d] (with [0 <= r < d]) under [rule]; a
    magnitude is rounded, so "away from zero" is "up". *)
Definition nearest (rule : tie_rule) (q r d : Z) : Z :=
  match 2 * r ?= d with
  | Lt => q
  | Gt => q + 1
  | Eq =>
      match rule with
      | HalfEven => if Z.even q then q else q + 1
      | HalfAwayFromZero => q + 1
      end
  end.

(** The number of tenths nearest to [m * 2^e]. *)
Definition exact_tenths (rule : tie_rule) (m : positive) (e : Z) : Z :=
  if 0 <=? e then 10 * Z.pos m * 2 ^ e
  else
    let d := 2 ^ (- e) in
    nearest rule (10 * Z.pos m / d) ((10 * Z.pos m) mod d) d.

(** The float that stands for that many tenths. *)
Definition exact_round1 (rule : tie_rule) (x : float) : float :=
  match x with
  | S754_finite s m e =>
      match exact_tenths rule m e with
      | Z.pos n => (if s then SFopp else id) (Repr.of_decimal n (-1))
      | _ => S754_zero s
      end
  | _ => x
  end.

(** ** Example tables *)

Module Examples.

(** The float written [d * 10^k] in a cell. *)
Definition dec (d : positive) (k : Z) : float := Repr.of_decimal d k.

Definition nan : float := S754_nan.

(** The row of the spec's scenario. *)
Definition rice : DataFrame :=
  Frame 1
    [ ("food_code", Object [PyStr "A001"]);
      ("food_name", Object [PyStr "Rice"]);
      ("energy_kcal", Float64 [dec 130456 (-3)]);
      ("protein_g", Float64 [nan]);
      ("fat_g", Float64 [dec 3 (-1)]);
      ("carb_g", Float64 [dec 287 (-1)]);
      ("sodium_mg", Int64 [1]);
      ("potassium_mg", Int64 [35]);
      ("phosphorus_mg", Float64 [nan]) ].

(** Two rows, the second without a name. *)
Definition unnamed : DataFrame :=
  Frame 2
    [ ("food_name", Object [PyStr "Rice"; PyFloat nan]);
      ("energy_kcal", Float64 [dec 130456 (-3); dec 52 0]);
      ("protein_g", Float64 [nan; dec 3 (-1)]);
      ("fat_g", Float64 [dec 3 (-1); dec 2 (-1)]);
      ("carb_g", Float64 [dec 287 (-1); dec 14 0]);
      ("sodium_mg", Int64 [1; 1]);
      ("potassium_mg", Int64 [35; 107]);
      ("phosphorus_mg", Float64 [nan; dec 11 0]) ].

(** One row with 0.15 kcal. *)
Definition fifteen_hundredths : DataFrame :=
  Frame 1
    [ ("food_name", Object [PyStr "Water"]);
      ("energy_kcal", Float64 [dec 15 (-2)]);
      ("protein_g", Float64 [F64.zero]);
      ("fat_g", Float64 [nan]);
      ("carb_g", Float64 [nan]);
      ("sodium_mg", Int64 [1]);
      ("potassium_mg", Int64 [0]);
      ("phosphorus_mg", Int64 [0]) ].

(** The sheet without its [fat_g] column. *)
Definition no_fat : DataFrame :=
  Frame 1
    [ ("food_name", Object [PyStr "Rice"]);
      ("energy_kcal", Float64 [dec 130456 (-3)]);
      ("protein_g", Float64 [nan]);
      ("carb_g", Float64 [dec 287 (-1)]);
      ("sodium_mg", Int64 [1]);
      ("potassium_mg", Int64 [35]);
      ("phosphorus_mg", Float64 [nan]) ].

(** A date typed into the name cell of the first row. *)
Definition dated : DataFrame :=
  Frame 2
    [ ("food_name", Object [PyDatetime 1700000000; PyStr "Rice"]);
      ("energy_kcal", Float64 [dec 52 0; dec 130456 (-3)]);
      ("protein_g", Float64 [dec 3 (-1); nan]);
      ("fat_g", Float64 [dec 2 (-1); dec 3 (-1)]);
      ("carb_g", Float64 [dec 14 0; dec 287 (-1)]);
      ("sodium_mg", Int64 [1; 1]);
      ("potassium_mg", Int64 [107; 35]);
      ("phosphorus_mg", Float64 [dec 11 0; nan]) ].

(** One row with ties: 0.25 kcal, 2.75 g of protein. *)
Definition quarters : DataFrame :=
  Frame 1
    [ ("food_name", Object [PyStr "Tea"]);
      ("energy_kcal", Float64 [dec 25 (-2)]);
      ("protein_g", Float64 [dec 275 (-2)]);
      ("fat_g", Float64 [nan]);
      ("carb_g", Float64 [nan]);
      ("sodium_mg", Int64 [1]);
      ("potassium_mg", Int64 [0]);
      ("phosphorus_mg", Int64 [0]) ].

Definition world (df : DataFrame) (old : option string) : World :=
  MkWorld (Workbook [("Nutrient Data", df)]) Writable old [].

End Examples.

(** ** Failures *)

(** The error [e] is raised by a step that comes before the file is
    opened: loading the sheet, or lines 24 to 34. *)
Definition fails_before_write (w : World) (e : exn) : Prop :=
  read_excel w = inl e ∨ ∃ df, read_excel w = inr df ∧ transform df = inl e.

Definition diagnostic (e : exn) : string := "An error occurred: " ++ exn_str e.

(** ** Ties *)

(** [x] is exactly halfway between two tenths: [10 * |x|] is an integer
    plus one half. *)
Definition is_tie (x : float) : bool :=
  match x with
  | S754_finite _ m e =>
      (e <? 0) && (2 * ((10 * Z.pos m) mod 2 ^ (- e)) =? 2 ^ (- e))
  | _ => false
  end.

(** [10 * |x| < 2^52], that is [|x|] below about [4.5e14]. *)
Definition below_2_52_tenths (x : float) : bool :=
  match x with
  | S754_finite _ m e => if 0 <=? e then 10 * Z.pos m * 2 ^ e <? 2 ^ 52
                         else 10 * Z.pos m <? 2 ^ 52 * 2 ^ (- e)
  | S754_zero _ => true
  | _ => false
  end.

(** ** [json.load] *)

Module Decoder.

(** What the decoder returns: a dict keeps its items in insertion order. *)
Inductive value : Type :=
  | Scalar (v : pyobj)
  | List (l : list value)
  | Dict (d : list (string * value)).

(** [d[k] = v]. *)
Fixpoint dict_set (k : string) (v : value) (d : list (string * value))
  : list (string * value) :=
  match d with
  | [] => [(k, v)]
  | (k', v') :: d' =>
      if String.eqb k k' then (k, v) :: d' else (k', v') :: dict_set k v d'
  end.

Definition code (c : ascii) : nat := nat_of_ascii c.

Definition is_ws (c : ascii) : bool :=
  let n := code c in
  Nat.eqb n 32 || Nat.eqb n 9 || Nat.eqb n 10 || Nat.eqb n 13.

Fixpoint skip_ws (s : string) : string :=
  match s with
  | String c s' => if is_ws c then skip_ws s' else s
  | EmptyString => s
  end.

(** *** Strings *)

Definition hex_value (c : ascii) : option nat :=
  let n := code c in
  if Nat.leb 48 n && Nat.leb n 57 then Some (n - 48)%nat
  else if Nat.leb 97 n && Nat.leb n 102 then Some (n - 87)%nat
  else if Nat.leb 65 n && Nat.leb n 70 then Some (n - 55)%nat
  else None.

Definition hex4 (a b c d : ascii) : option nat :=
  match hex_value a, hex_value b, hex_value c, hex_value d with
  | Some x, Some y, Some z, Some t => Some (((x * 16 + y) * 16 + z) * 16 + t)%nat
  | _, _, _, _ => None
  end.

(** The character a one-letter escape stands for. *)
Definition unescape (e : ascii) : option ascii :=
  let n := code e in
  if Nat.eqb n 34 then Some e
  else if Nat.eqb n 92 then Some e
  else if Nat.eqb n 47 then Some e
  else if Nat.eqb n 98 then Some (ascii_of_nat 8)
  else if Nat.eqb n 102 then Some (ascii_of_nat 12)
  else if Nat.eqb n 110 then Some (ascii_of_nat 10)
  else if Nat.eqb n 114 then Some (ascii_of_nat 13)
  else if Nat.eqb n 116 then Some (ascii_of_nat 9)
  else None.

(** [scanstring], strict: from just after the opening quote to the closing
    one.  A [\uxxxx] above 255 is outside the characters of the model. *)
Fixpoint scanstring (s : string) : option (string * string) :=
  match s with
  | EmptyString => None
  | String c s' =>
      if Nat.eqb (code c) 34 then Some ("", s')
      else if Nat.eqb (code c) 92 then
        match s' with
        | String e s'' =>
            if Nat.eqb (code e) 117 then
              match s'' with
              | String h1 (String h2 (String h3 (String h4 rest))) =>
                  match hex4 h1 h2 h3 h4 with
                  | Some n =>
                      if Nat.ltb n 256 then
                        match scanstring rest with
                        | Some (t, r) => Some (String (ascii_of_nat n) t, r)
                        | None => None
                        end
                      else None
                  | None => None
                  end
              | _ => None
              end
            else
              match unescape e with
              | Some ch =>
                  match scanstring s'' with
                  | Some (t, r) => Some (String ch t, r)
                  | None => None
                  end
              | None => None
              end
        | EmptyString => None
        end
      else if Nat.ltb (code c) 32 then None
      else
        match scanstring s' with
        | Some (t, r) => Some (String c t, r)
        | None => None
        end
  end.

(** *** Numbers *)

Fixpoint span_digits (s : string) : string * string :=
  match s with
  | String c s' =>
      if Digits.is_digit c then
        let '(ds, r) := span_digits s' in (String c ds, r)
      else ("", s)
  | EmptyString => ("", s)
  end.

(** [float(text)] for a literal with the digits of [d] and the decimal
    exponent [k]. *)
Definition float_of_literal (neg : bool) (d k : Z) : float :=
  match d with
  | Z.pos p => (if neg then SFopp else id) (Repr.of_decimal p k)
  | _ => S754_zero neg
  end.

Definition is_char (n : nat) (c : ascii) : bool := Nat.eqb (code c) n.

(** The fraction, a dot and digits, at the start of [s], if there is one. *)
Definition scan_frac (s : string) : string * string :=
  match s with
  | String c r =>
      if is_char 46 c then
        let '(fs, r') := span_digits r in
        match fs with
        | EmptyString => ("", s)
        | _ => (fs, r')
        end
      else ("", s)
  | EmptyString => ("", s)
  end.

(** The exponent, [e] or [E] with an optional sign and digits, at the
    start of [s], if there is one. *)
Definition scan_exp (s : string) : option Z * string :=
  match s with
  | String c r =>
      if is_char 101 c || is_char 69 c then
        let '(neg, r1) :=
          match r with
          | String g r' =>
              if is_char 43 g then (false, r')
              else if is_char 45 g then (true, r')
              else (false, r)
          | EmptyString => (false, r)
          end in
        let '(es, r2) := span_digits r1 in
        match es with
        | EmptyString => (None, s)
        | _ => (Some (if neg then - Digits.value es else Digits.value es), r2)
        end
      else (None, s)
  | EmptyString => (None, s)
  end.

(** The integer part: a single 0, or a run of digits not starting with 0. *)
Definition scan_int_part (s : string) : option (string * string) :=
  match s with
  | String c s' =>
      if Digits.is_digit c
      then Some (if is_char 48 c then ("0", s') else span_digits s)
      else None
  | EmptyString => None
  end.

(** An [int] without fraction and exponent, a [float] otherwise. *)
Definition number_of (neg : bool) (int_part frac : string) (ex : option Z) : pyobj :=
  match frac, ex with
  | EmptyString, None =>
      let n := Digits.value int_part in PyInt (if neg then - n else n)
  | _, _ =>
      PyFloat (float_of_literal neg (Digits.value (int_part ++ frac))
                 (default 0 ex - Z.of_nat (String.length frac)))
  end.

(** [NUMBER_RE]: an optional minus sign, the integer part, an optional
    fraction and an optional exponent. *)
Definition scan_number (s : string) : option (pyobj * string) :=
  let '(neg, s1) :=
    match s with
    | String c s' => if is_char 45 c then (true, s') else (false, s)
    | EmptyString => (false, s)
    end in
  match scan_int_part s1 with
  | Some (int_part, rest) =>
      let '(frac, rest1) := scan_frac rest in
      let '(ex, rest2) := scan_exp rest1 in
      Some (number_of neg int_part frac ex, rest2)
  | None => None
  end.

(** [s] starts with [p]: what is left of [s]. *)
Fixpoint strip_prefix (p s : string) : option string :=
  match p, s with
  | EmptyString, _ => Some s
  | String a p', String b s' => if Ascii.eqb a b then strip_prefix p' s' else None
  | String _ _, EmptyString => None
  end.

(** The scalars that are neither strings nor numbers. *)
Definition scan_constant (s : string) : option (pyobj * string) :=
  match strip_prefix "NaN" s with
  | Some r => Some (PyFloat S754_nan, r)
  | None =>
      match strip_prefix "Infinity" s with
      | Some r => Some (PyFloat (S754_infinity false), r)
      | None =>
          match strip_prefix "-Infinity" s with
          | Some r => Some (PyFloat (S754_infinity true), r)
          | None => None
          end
      end
  end.

Definition scan_word (s : string) : option (pyobj * string) :=
  match strip_prefix "null" s with
  | Some r => Some (PyNone, r)
  | None =>
      match strip_prefix "true" s with
      | Some r => Some (PyBool true, r)
      | None =>
          match strip_prefix "false" s with
          | Some r => Some (PyBool false, r)
          | None => None
          end
      end
  end.

(** *** Values

    [scan_once] reads one value at the start of [s]; [parse_elements] reads
    the elements of an array and [parse_members] the members of an object,
    from the start of the next one.  [fuel] bounds the number of calls. *)
Fixpoint scan_once (fuel : nat) (s : string) : option (value * string) :=
  match fuel with
  | O => None
  | S fuel' =>
      match s with
      | EmptyString => None
      | String c s' =>
          if is_char 34 c then
            match scanstring s' with
            | Some (t, r) => Some (Scalar (PyStr t), r)
            | None => None
            end
          else if is_char 123 c then
            match skip_ws s' with
            | String c1 r1 =>
                if is_char 125 c1 then Some (Dict [], r1)
                else parse_members fuel' (skip_ws s') []
            | EmptyString => None
            end
          else if is_char 91 c then
            match skip_ws s' with
            | String c1 r1 =>
                if is_char 93 c1 then Some (List [], r1)
                else parse_elements fuel' (skip_ws s') []
            | EmptyString => None
            end
          else
            match scan_word s with
            | Some (v, r) => Some (Scalar v, r)
            | None =>
                match scan_number s with
                | Some (v, r) => Some (Scalar v, r)
                | None =>
                    match scan_constant s with
                    | Some (v, r) => Some (Scalar v, r)
                    | None => None
                    end
                end
            end
      end
  end
with parse_elements (fuel : nat) (s : string) (acc : list value)
  : option (value * string) :=
  match fuel with
  | O => None
  | S fuel' =>
      match scan_once fuel' s with
      | Some (v, r) =>
          match skip_ws r with
          | String c r' =>
              if is_char 93 c then Some (List (acc ++ [v]), r')
              else if is_char 44 c
                   then parse_elements fuel' (skip_ws r') (acc ++ [v])
                   else None
          | EmptyString => None
          end
      | None => None
      end
  end
with parse_members (fuel : nat) (s : string) (acc : list (string * value))
  : option (value * string) :=
  match fuel with
  | O => None
  | S fuel' =>
      match s with
      | String q s' =>
          if is_char 34 q then
            match scanstring s' with
            | Some (key, r) =>
                match skip_ws r with
                | String c r1 =>
                    if is_char 58 c then
                      match scan_once fuel' (skip_ws r1) with
                      | Some (v, r2) =>
                          match skip_ws r2 with
                          | String c2 r3 =>
                              if is_char 125 c2
                              then Some (Dict (dict_set key v acc), r3)
                              else if is_char 44 c2
                                   then parse_members fuel' (skip_ws r3)
                                          (dict_set key v acc)
                                   else None
                          | EmptyString => None
                          end
                      | None => None
                      end
                    else None
                | EmptyString => None
                end
            | None => None
            end
          else None
      | EmptyString => None
      end
  end.

(** [json.loads]: one value, with nothing but white space around it. *)
Definition loads (s : string) : option value :=
  match scan_once (2 * String.length s + 1)%nat (skip_ws s) with
  | Some (v, r) =>
      match skip_ws r with
      | EmptyString => Some v
      | _ => None
      end
  | None => None
  end.

(** The list of dicts of the script as the decoder would return it. *)
Definition of_records (l : list record) : value :=
  List (map (λ r : record, Dict (map (λ kv, (kv.1, Scalar kv.2)) r)) l).

End Decoder.

(** A float whose [repr] is defined: the search of [Repr.shortest], bounded
    by the 17 digits that [float.__repr__] never exceeds, has found the
    digits. *)
Definition printable (v : pyobj) : bool :=
  match v with
  | PyFloat (S754_finite _ m e) =>
      match Repr.shortest m e with Some _ => true | None => false end
  | _ => true
  end.

(** ** Properties of texts used below *)

(** [s] has only digits. *)
Fixpoint all_digits (s : string) : bool :=
  match s with
  | EmptyString => true
  | String c s' => Digits.is_digit c && all_digits s'
  end.

(** The number after which [rest] comes ends there: [rest] does not go
    on with a digit, a dot or an exponent. *)
Definition ends_number (rest : string) : bool :=
  match rest with
  | EmptyString => true
  | String c _ =>
      negb (Digits.is_digit c || Decoder.is_char 46 c
            || Decoder.is_char 101 c || Decoder.is_char 69 c)
  end.

(** [rest] starts with a comma or a newline, as the text after a value of
    an indented dict does. *)
Definition after_value (rest : string) : bool :=
  match rest with
  | EmptyString => false
  | String c _ => Decoder.is_char 44 c || Decoder.is_char 10 c
  end.

(** An integer part as the number pattern accepts it: digits, with a
    leading 0 only when it is the single digit. *)
Definition valid_int (ip : string) : Prop :=
  all_digits ip = true
  ∧ match ip with
    | String c t => Decoder.is_char 48 c = true → t = ""
    | EmptyString => False
    end.

Definition not_digit_start (s : string) : Prop :=
  match s with
  | String c _ => Digits.is_digit c = false
  | EmptyString => True
  end.

(** A record and a list of records as the decoder returns them. *)
Abbreviation of_record :=
  (map (λ kv : string * pyobj, (kv.1, Decoder.Scalar kv.2))).

Abbreviation of_dicts :=
  (map (λ r : record, Decoder.Dict (of_record r))).

(** Every float of the records has a [repr]. *)
Definition all_printable (l : list record) : Prop :=
  Forall (λ r : record, Forall (λ kv, printable kv.2 = true) r) l.

(** ** Values the encoder accepts *)

(** The objects [json.dump] knows how to write: every cell the model has,
    except a date. *)
Definition serializable (v : pyobj) : bool :=
  match v with
  | PyDatetime _ => false
  | _ => true
  end.

Definition series_serializable (s : Series) : bool :=
  match s with
  | Object l => forallb serializable l
  | _ => true
  end.

(** The line printed after a successful run. *)
Definition success_line (n : nat) : string :=
  "Successfully generated " ++ count n ++ " recipes at " ++ output_path.

(** ** Rounding, in integers *)

(** Where the fraction [k / b] lies in the unit interval, for
    [0 <= k < b]: at 0, or below, at or above one half. *)
Definition loc_frac (k b : Z) : location :=
  if k =? 0 then loc_Exact else loc_Inexact (2 * k ?= b).

(** The mantissa [a / b] with the position of the remainder: how the
    rounding functions of [SpecFloat] hold the rational [a / b]. *)
Definition shr_frac (a b : Z) : shr_record :=
  shr_record_of_loc (a / b) (loc_frac (a mod b) b).

(** A value of the format: a zero, an infinity, NaN, or a finite number
    whose mantissa has 53 bits, or fewer at the lowest exponent. *)
Definition is_float64 (x : float) : bool := valid_binary F64.prec F64.emax x.

(** ** Sheets of moderate numbers *)

(** A float that is not finite, or a finite value of the format below
    [2^52 / 10] in magnitude. *)
Definition small_float (x : float) : bool :=
  match x with
  | S754_finite _ _ _ => is_float64 x && below_2_52_tenths x
  | _ => true
  end.

Definition not_finite (x : float) : bool :=
  match x with
  | S754_finite _ _ _ => false
  | _ => true
  end.

(** A column whose floats are rounded by the script and moderate, or are
    not finite numbers: a numeric column of a numeric field, a column of
    text or integers, an empty column. *)
Definition plain_series (numeric : bool) (s : Series) : bool :=
  match s with
  | Float64 l => forallb (if numeric then small_float else not_finite) l
  | Int64 _ => true
  | Object l =>
      forallb (λ v, match v with PyFloat x => not_finite x | _ => true end) l
  end.

Definition plain_sheet (df : DataFrame) : Prop :=
  ∀ src dst, (src, dst) ∈ relevant_cols →
    ∃ s, column df src = Some s ∧ plain_series (is_num_col dst) s = true.

(** The float64 nearest to [n / 10] with the sign [s]: the integer [n],
    below [2^53], divided by [10.0]. *)
Definition tenth (s : bool) (n : Z) : float :=
  F64.div (F64.of_Z s (cond_Zopp s n)) F64.ten.

(** ** Characters of the written text *)

(** A newline or a printable ASCII character. *)
Definition is_plain_ascii (c : ascii) : bool :=
  let n := nat_of_ascii c in
  Nat.eqb n 10 || (Nat.leb 32 n && Nat.leb n 126).

Fixpoint all_chars (P : ascii → bool) (s : string) : bool :=
  match s with
  | EmptyString => true
  | String c s' => P c && all_chars P s'
  end.

(** ** Values that round to a float *)

(** The decimal [d * 10^k] as a fraction. *)
Definition dec_num (d k : Z) : Z := if 0 <=? k then d * 10 ^ k else d.
Definition dec_den (k : Z) : Z := if 0 <=? k then 1 else 10 ^ (- k).

(** [2^z] as a fraction. *)
Definition pow2_num (z : Z) : Z := if 0 <=? z then 2 ^ z else 1.
Definition pow2_den (z : Z) : Z := if 0 <=? z then 1 else 2 ^ (- z).

(** The fraction [cn / cd] is less than half a unit in the last place
    away from the float [mx * 2^ex], and at most a quarter when it is
    below a float that is a power of two (above the lowest exponent, the
    floats below are twice as dense). *)
Definition near (cn cd mx ex : Z) : Prop :=
  let un := pow2_num ex in
  let ud := pow2_den ex in
  (- (un * cd) < 2 * (cn * ud - mx * un * cd) < un * cd)
  ∧ (mx = 2 ^ 52 → -1074 < ex → 4 * (mx * un * cd - cn * ud) ≤ un * cd).

(** Every float of the sheet is a value of the format. *)
Definition float64_value (v : pyobj) : bool :=
  match v with
  | PyFloat x => is_float64 x
  | _ => true
  end.

Definition float64_series (s : Series) : bool :=
  match s with
  | Float64 l => forallb is_float64 l
  | Int64 _ => true
  | Object l => forallb float64_value l
  end.

Definition float64_cells (df : DataFrame) : Prop :=
  Forall (λ c : string * Series, float64_series c.2 = true) (columns df).

(** The estimate of the decimal exponent made from the binary one, less
    one: [10] to this power is at most [2^b].  The check of it. *)
Definition estimate (b : Z) : Z := b * 30103 / 100000 - 2.

Definition estimate_ok (b : Z) : bool :=
  let P := estimate b in
  if 0 <=? b then (if 0 <=? P then 10 ^ P <=? 2 ^ b else true)
  else (if 0 <=? P then false else 2 ^ (- b) <=? 10 ^ (- P)).

(** * Properties *)

(** ** Cells of the cleaned columns *)

Lemma series_at_fillna s i :
  series_at (fillna_series s) i = fill_cell (dtype_of s) <$> series_at s i.
Proof.
  destruct s as [l|l|l]; simpl; rewrite ?list_lookup_fmap.
  - destruct (l !! i) as [x|]; simpl; [|done].
    unfold fill_cell; simpl. by destruct (F64.is_nan x).
  - by destruct (l !! i).
  - done.
Qed.

Lemma dtype_of_fillna s : dtype_of (fillna_series s) = dtype_of s.
Proof. by destruct s. Qed.

Lemma series_at_round s i :
  series_at (round_series s) i = round_cell (dtype_of s) <$> series_at s i.
Proof.
  destruct s as [l|l|l]; simpl; rewrite ?list_lookup_fmap.
  - by destruct (l !! i).
  - by destruct (l !! i).
  - destruct (l !! i) as [v|]; simpl; [|done]. by destruct v.
Qed.

Lemma series_at_clean numeric s i :
  series_at (clean_series numeric s) i
  = clean_cell numeric (dtype_of s) <$> series_at s i.
Proof.
  unfold clean_series, clean_cell. destruct numeric.
  - rewrite series_at_round, series_at_fillna, dtype_of_fillna.
    by destruct (series_at s i).
  - apply series_at_fillna.
Qed.

Lemma series_len_clean numeric s : series_len (clean_series numeric s) = series_len s.
Proof.
  destruct numeric, s; simpl; by rewrite ?length_map.
Qed.

Lemma series_at_is_Some s i : (i < series_len s)%nat → is_Some (series_at s i).
Proof.
  intros Hi. destruct s as [l|l|l]; simpl in *;
    destruct (lookup_lt_is_Some_2 l i Hi) as [x ->]; by eexists.
Qed.

Lemma series_at_None s i : (series_len s ≤ i)%nat → series_at s i = None.
Proof.
  intros Hi. destruct s as [l|l|l]; simpl in *; by rewrite (lookup_ge_None_2 l i Hi).
Qed.

(** ** Selecting columns *)

Lemma alist_get_elem {A} k (l : list (string * A)) v :
  alist_get k l = Some v → (k, v) ∈ l.
Proof.
  induction l as [|[k' v'] l IH]; simpl; [done|].
  destruct (String.eqb_spec k k') as [->|]; intros E.
  - injection E as ->. apply list_elem_of_here.
  - apply list_elem_of_further, IH, E.
Qed.

Lemma getitem_ok df keys :
  Forall (λ k, is_Some (column df k)) keys →
  getitem df keys
  = inr (Frame (nrows df) (omap (λ k, (k,.) <$> column df k) keys)).
Proof.
  intros H. unfold getitem.
  replace (List.filter _ keys) with (@nil string); [done|].
  induction H as [|k ks [x Hk] _ IH]; simpl; [done|].
  unfold has_column. by rewrite Hk.
Qed.

Lemma getitem_missing df keys k :
  k ∈ keys → column df k = None →
  ∃ msg, getitem df keys = inl (Raise KeyError msg).
Proof.
  intros Hin Hk. unfold getitem.
  destruct (List.filter _ keys) as [|m ms] eqn:E.
  - assert (List.In k (List.filter (λ k, negb (has_column df k)) keys)) as Hf.
    { apply filter_In. split; [by apply list_elem_of_In|].
      unfold has_column. by rewrite Hk. }
    rewrite E in Hf. destruct Hf.
  - eexists. reflexivity.
Qed.

(** ** The transformation, characterised *)

Lemma transform_ok df :
  Forall (λ k, is_Some (column df k)) relevant_cols.*1 →
  transform df = inr (to_dict (cleaned df)).
Proof.
  intros HF. unfold transform. rewrite (getitem_ok _ _ HF).
  unfold relevant_cols in HF. cbn [fmap list_fmap fst] in HF.
  repeat (apply Forall_cons in HF as [[? ?] HF']; rename HF' into HF). clear HF.
  unfold cleaned, clean_column, relevant_cols.
  cbn [mbind mret result_bind result_ret option_bind fmap list_fmap fst snd
       omap list_omap].
  repeat match goal with E : column df _ = Some _ |- _ => rewrite !E; clear E end.
  cbv -[fillna_series round_series row_record seq nrows].
  reflexivity.
Qed.

Lemma transform_missing df k :
  k ∈ relevant_cols.*1 → column df k = None →
  ∃ msg, transform df = inl (Raise KeyError msg).
Proof.
  intros Hin Hk. unfold transform.
  destruct (getitem_missing df _ k Hin Hk) as [msg ->]. by exists msg.
Qed.

Lemma transform_inr df out :
  transform df = inr out →
  Forall (λ k, is_Some (column df k)) relevant_cols.*1 ∧ out = to_dict (cleaned df).
Proof.
  intros E.
  assert (Forall (λ k, is_Some (column df k)) relevant_cols.*1) as HF.
  { apply Forall_forall. intros k Hk.
    destruct (column df k) eqn:Ek; [by eexists|].
    destruct (transform_missing df k Hk Ek) as [msg E']. congruence. }
  split; [done|]. rewrite (transform_ok df HF) in E. congruence.
Qed.

Lemma getitem_raises df keys e : getitem df keys = inl e → exn_type e = KeyError.
Proof.
  unfold getitem. destruct (List.filter _ keys); [discriminate|].
  intros E. by injection E as <-.
Qed.

Lemma transform_raises df e : transform df = inl e → exn_type e = KeyError.
Proof.
  unfold transform.
  destruct (getitem df _) as [e1|sel] eqn:E1; simpl.
  { intros E. injection E as <-. by eapply getitem_raises. }
  destruct (getitem (fillna _) _) as [e2|sub] eqn:E2; simpl; [|discriminate].
  intros E. injection E as <-. by eapply getitem_raises.
Qed.

(** ** Records of the cleaned frame *)

Lemma to_dict_length df : length (to_dict df) = nrows df.
Proof. unfold to_dict. by rewrite length_map, length_seq. Qed.

Lemma to_dict_lookup df i :
  to_dict df !! i = if decide (i < nrows df)%nat then Some (row_record df i) else None.
Proof.
  unfold to_dict. rewrite list_lookup_fmap.
  destruct (decide (i < nrows df)%nat) as [Hi|Hi].
  - by rewrite lookup_seq_lt.
  - rewrite lookup_seq_ge; [done|lia].
Qed.

Lemma column_len df c s :
  wf_frame df → column df c = Some s → series_len s = nrows df.
Proof.
  intros [Hlen _] Hc. apply alist_get_elem in Hc.
  by apply (proj1 (Forall_forall _ _) Hlen (c, s)).
Qed.

Lemma convert_row_cleaned df i ms :
  wf_frame df → (i < nrows df)%nat →
  Forall (λ k, is_Some (column df k)) ms.*1 →
  mapM (convert_field df i) ms
  = Some (omap (λ c, (c.1,.) <$> series_at c.2 i) (omap (clean_column df) ms)).
Proof.
  intros Hwf Hi. induction ms as [|[src dst] ms IH]; intros HF; [done|].
  apply Forall_cons in HF as [[s Hs] HF]. simpl in Hs.
  cbn [mapM]. rewrite (IH HF). clear IH.
  unfold convert_field, clean_column. cbn [fst snd omap list_omap].
  rewrite Hs. cbn [mbind option_bind omap list_omap fst snd].
  rewrite series_at_clean.
  destruct (series_at_is_Some s i) as [v ->]; [|done].
  by rewrite (column_len df src s).
Qed.

Lemma convert_row_None df i :
  wf_frame df → (nrows df ≤ i)%nat →
  Forall (λ k, is_Some (column df k)) relevant_cols.*1 →
  convert_row df i = None.
Proof.
  intros Hwf Hi HF. unfold convert_row, relevant_cols.
  apply Forall_cons in HF as [[s Hs] _]. simpl in Hs.
  assert (convert_field df i ("food_name", "name") = None) as E.
  { unfold convert_field. cbn [fst snd]. rewrite Hs. cbn [mbind option_bind].
    rewrite series_at_None; [done|]. by rewrite (column_len df "food_name" s). }
  cbn [mapM]. by rewrite E.
Qed.

Lemma transform_lookup df out i :
  wf_frame df → transform df = inr out → out !! i = convert_row df i.
Proof.
  intros Hwf E. apply transform_inr in E as [HF ->].
  rewrite to_dict_lookup. change (nrows (cleaned df)) with (nrows df).
  destruct (decide (i < nrows df)%nat) as [Hi|Hi].
  - unfold convert_row. rewrite (convert_row_cleaned df i relevant_cols Hwf Hi HF).
    reflexivity.
  - symmetry. apply convert_row_None; [done|lia|done].
Qed.

Lemma mapM_convert_keys df i ms r :
  mapM (convert_field df i) ms = Some r → r.*1 = ms.*2.
Proof.
  revert r. induction ms as [|m ms IH]; intros r; cbn [mapM].
  - intros E. by injection E as <-.
  - destruct (convert_field df i m) as [y|] eqn:Ey; [|done].
    destruct (mapM _ ms) as [r'|]; [|done]. cbn. intros E. injection E as <-.
    cbn. rewrite (IH r' eq_refl). f_equal.
    unfold convert_field in Ey.
    destruct (column df m.1); [|done]. cbn in Ey.
    destruct (series_at _ i); [|done]. cbn in Ey. by injection Ey as <-.
Qed.

Lemma mapM_convert_get df i ms (r : record) src dst :
  mapM (convert_field df i) ms = Some r →
  NoDup ms.*2 → (src, dst) ∈ ms →
  ∃ y : pyobj, convert_field df i (src, dst) = Some (dst, y) ∧ alist_get dst r = Some y.
Proof.
  revert r. induction ms as [|m ms IH]; intros r; cbn [mapM].
  { intros _ _ Hin. by apply elem_of_nil in Hin. }
  destruct (convert_field df i m) as [y|] eqn:Ey; [|done].
  destruct (mapM _ ms) as [r'|] eqn:Er; [|done]. cbn. intros E. injection E as <-.
  intros Hnd Hin. apply NoDup_cons in Hnd as [Hnot Hnd].
  assert (y.1 = m.2) as Hy1.
  { unfold convert_field in Ey. destruct (column df m.1); [|done]. cbn in Ey.
    destruct (series_at _ i); [|done]. cbn in Ey. by injection Ey as <-. }
  apply elem_of_cons in Hin as [<-|Hin].
  - exists y.2. destruct y as [k y]. simpl in *. subst k.
    split; [done|]. by rewrite String.eqb_refl.
  - destruct (IH r' eq_refl Hnd Hin) as (y' & E1 & E2).
    exists y'. split; [done|]. destruct y as [k y]. simpl in *. subst k.
    destruct (String.eqb_spec dst m.2) as [->|]; [|done].
    destruct Hnot. apply list_elem_of_fmap. by exists (src, m.2).
Qed.

Lemma output_keys_NoDup : NoDup relevant_cols.*2.
Proof. apply (bool_decide_unpack _). by vm_compute. Qed.

Lemma numeric_field_relevant m : m ∈ numeric_fields → m ∈ relevant_cols ∧ is_num_col m.2 = true.
Proof.
  unfold numeric_fields. rewrite list_elem_of_In, filter_In, <- list_elem_of_In. tauto.
Qed.

(** The value stored under [dst] in the record of row [i] is the cleaned
    source cell. *)
Lemma transform_field df out i src dst s v :
  wf_frame df → transform df = inr out →
  (src, dst) ∈ relevant_cols →
  column df src = Some s → series_at s i = Some v →
  ∃ r, out !! i = Some r
       ∧ alist_get dst r = Some (clean_cell (is_num_col dst) (dtype_of s) v).
Proof.
  intros Hwf E Hin Hs Hv.
  pose proof (transform_lookup df out i Hwf E) as Hl.
  apply transform_inr in E as [HF _].
  assert (i < nrows df)%nat as Hi.
  { rewrite <- (column_len df src s Hwf Hs).
    destruct (decide (i < series_len s)%nat) as [|Hn]; [done|].
    rewrite series_at_None in Hv; [done|lia]. }
  pose proof (convert_row_cleaned df i _ Hwf Hi HF) as Hc.
  destruct (mapM_convert_get df i _ _ src dst Hc output_keys_NoDup Hin)
    as (y & E1 & E2).
  eexists. split; [etrans; [exact Hl|exact Hc]|].
  rewrite E2. f_equal.
  unfold convert_field in E1. cbn [fst snd] in E1. rewrite Hs in E1.
  cbn [mbind option_bind] in E1. rewrite Hv in E1. by injection E1 as <-.
Qed.

(** ** The example tables are well formed *)

Ltac wf_example :=
  split; [repeat constructor | apply (bool_decide_unpack _); vm_compute; reflexivity].

Lemma wf_rice : wf_frame Examples.rice.
Proof. wf_example. Qed.

Lemma wf_unnamed : wf_frame Examples.unnamed.
Proof. wf_example. Qed.

Lemma wf_fifteen_hundredths : wf_frame Examples.fifteen_hundredths.
Proof. wf_example. Qed.

Lemma numeric_fields_eq :
  numeric_fields
  = [ ("energy_kcal", "calories"); ("protein_g", "proteinG"); ("fat_g", "fatG");
      ("carb_g", "carbG"); ("sodium_mg", "sodiumMg");
      ("potassium_mg", "potassiumMg"); ("phosphorus_mg", "phosphorusMg") ].
Proof. reflexivity. Qed.

Lemma round1_zero : F64.round1 F64.zero = F64.zero.
Proof. reflexivity. Qed.

(** ** Rows and keys *)

(** C3: the output has exactly one record per source row, and the record at
    position [i] is the conversion of source row [i]. *)
Theorem one_record_per_row (df : DataFrame) (out : list record) :
  wf_frame df → transform df = inr out →
  length out = nrows df ∧ ∀ i : nat, out !! i = convert_row df i.
Proof.
  intros Hwf E. split.
  - apply transform_inr in E as [_ ->]. by rewrite to_dict_length.
  - intros i. by apply transform_lookup.
Qed.

Lemma one_record_per_row_witness :
  ∃ out, transform Examples.rice = inr out
         ∧ length out = 1%nat ∧ ∀ i : nat, out !! i = convert_row Examples.rice i.
Proof.
  eexists. split; [vm_compute; reflexivity|].
  apply (one_record_per_row Examples.rice); [exact wf_rice|vm_compute; reflexivity].
Defined.

(** C5: every output record has exactly the eight keys [name], [calories],
    [proteinG], [fatG], [carbG], [sodiumMg], [potassiumMg], [phosphorusMg],
    each once. *)
Theorem record_keys (df : DataFrame) (out : list record) (r : record) :
  wf_frame df → transform df = inr out → r ∈ out →
  r.*1 = [ "name"; "calories"; "proteinG"; "fatG"; "carbG"; "sodiumMg";
           "potassiumMg"; "phosphorusMg" ].
Proof.
  intros Hwf E Hr. apply list_elem_of_lookup in Hr as [i Hi].
  rewrite (transform_lookup df out i Hwf E) in Hi.
  apply mapM_convert_keys in Hi. exact Hi.
Qed.

Lemma record_keys_witness :
  ∃ out r, transform Examples.rice = inr out ∧ r ∈ out
    ∧ r.*1 = [ "name"; "calories"; "proteinG"; "fatG"; "carbG"; "sodiumMg";
               "potassiumMg"; "phosphorusMg" ].
Proof.
  eexists _, _. split; [vm_compute; reflexivity|].
  split; [apply list_elem_of_here|].
  eapply (record_keys Examples.rice);
    [exact wf_rice|vm_compute; reflexivity|apply list_elem_of_here].
Defined.

(** ** Missing values *)

(** C2: a missing cell of a numeric source field gives 0 under the renamed
    key ([0.0] from a float column, the int [0] from an object column). *)
Theorem null_numeric_is_zero (df : DataFrame) (out : list record) (i : nat)
    (src dst : string) (v : pyobj) :
  wf_frame df → transform df = inr out →
  (src, dst) ∈ numeric_fields →
  cell df src i = Some v → isna v = true →
  ∃ r z, out !! i = Some r ∧ alist_get dst r = Some z
         ∧ (z = PyFloat F64.zero ∨ z = PyInt 0) ∧ is_zero z = true.
Proof.
  intros Hwf E Hf Hc Hna.
  apply numeric_field_relevant in Hf as [Hin Hnum]. simpl in Hnum.
  unfold cell in Hc. destruct (column df src) as [s|] eqn:Hs; [|done].
  cbn in Hc.
  destruct (transform_field df out i src dst s v Hwf E Hin Hs Hc) as (r & Hr & Hg).
  exists r, (clean_cell (is_num_col dst) (dtype_of s) v).
  split; [done|]. split; [done|].
  rewrite Hnum. unfold clean_cell, fill_cell. rewrite Hna.
  destruct (dtype_of s); cbn; rewrite ?round1_zero; auto.
Qed.

Lemma null_numeric_is_zero_witness :
  ∃ r z, to_dict (cleaned Examples.rice) !! 0%nat = Some r
         ∧ alist_get "proteinG" r = Some z
         ∧ (z = PyFloat F64.zero ∨ z = PyInt 0) ∧ is_zero z = true.
Proof.
  apply (null_numeric_is_zero Examples.rice _ 0 "protein_g" "proteinG"
           (PyFloat S754_nan) wf_rice).
  - vm_compute. reflexivity.
  - apply (bool_decide_unpack _). vm_compute. reflexivity.
  - reflexivity.
  - reflexivity.
Defined.

(** ** Types of the values *)

(** The claim of C4 fails on a row without a name: [fillna(0)] fills the
    [name] column too, so the record holds the number 0 under [name]. *)
Lemma unnamed_row_counterexample :
  ∃ r, transform Examples.unnamed ≫= (λ out, mret (out !! 1%nat)) = inr (Some r)
       ∧ cell Examples.unnamed "food_name" 1 = Some (PyFloat S754_nan)
       ∧ alist_get "name" r = Some (PyInt 0)
       ∧ is_text (PyInt 0) = false.
Proof. eexists. vm_compute. repeat split. Qed.

(** C4, amended: every record has the eight keys; a numeric key maps to a
    number when its source column has a numeric dtype; [name] maps to the
    source text when [food_name] is text, and to the number 0 when it is
    missing. *)
Theorem value_types (df : DataFrame) (out : list record) (i : nat) (r : record) :
  wf_frame df → transform df = inr out → out !! i = Some r →
  r.*1 = output_keys
  ∧ (∀ src dst s, (src, dst) ∈ numeric_fields → column df src = Some s →
       is_numeric_dtype s = true →
       ∃ v, alist_get dst r = Some v ∧ is_number v = true)
  ∧ (∀ t, cell df "food_name" i = Some (PyStr t) → alist_get "name" r = Some (PyStr t))
  ∧ (∀ v, cell df "food_name" i = Some v → isna v = true →
       ∃ z, alist_get "name" r = Some z ∧ is_zero z = true).
Proof.
  intros Hwf E Hr.
  assert (i < nrows df)%nat as Hi.
  { apply lookup_lt_Some in Hr. by rewrite (proj1 (one_record_per_row df out Hwf E)) in Hr. }
  assert (∀ src dst s v, (src, dst) ∈ relevant_cols → column df src = Some s →
            series_at s i = Some v →
            alist_get dst r = Some (clean_cell (is_num_col dst) (dtype_of s) v)) as Hfield.
  { intros src dst s v Hin Hs Hv.
    destruct (transform_field df out i src dst s v Hwf E Hin Hs Hv) as (r' & Hr' & Hg).
    pose proof (eq_trans (eq_sym Hr) Hr') as Heq. by injection Heq as ->. }
  split; [|split; [|split]].
  - rewrite (transform_lookup df out i Hwf E) in Hr. by apply mapM_convert_keys in Hr.
  - intros src dst s Hf Hs Hnum.
    apply numeric_field_relevant in Hf as [Hin Hn]. simpl in Hn.
    destruct (series_at_is_Some s i) as [v Hv].
    { by rewrite (column_len df src s Hwf Hs). }
    eexists. split; [exact (Hfield src dst s v Hin Hs Hv)|].
    rewrite Hn. unfold clean_cell, fill_cell.
    destruct s as [l|l|l]; [| |done]; simpl in Hv |- *.
    + destruct (l !! i) as [x|]; [|done]. injection Hv as <-. simpl.
      by destruct (F64.is_nan x).
    + destruct (l !! i) as [n|]; [|done]. by injection Hv as <-.
  - intros t Hc. unfold cell in Hc.
    destruct (column df "food_name") as [s|] eqn:Hs; [|done]. cbn in Hc.
    rewrite (Hfield "food_name" "name" s (PyStr t)); [done| |done|done].
    apply (bool_decide_unpack _). by vm_compute.
  - intros v Hc Hna. unfold cell in Hc.
    destruct (column df "food_name") as [s|] eqn:Hs; [|done]. cbn in Hc.
    eexists. split.
    + apply (Hfield "food_name" "name" s v); [|done|done].
      apply (bool_decide_unpack _). by vm_compute.
    + unfold clean_cell, fill_cell. rewrite Hna. by destruct (dtype_of s).
Qed.

Lemma value_types_witness :
  ∃ r, to_dict (cleaned Examples.unnamed) !! 1%nat = Some r
    ∧ r.*1 = output_keys
    ∧ (∀ src dst s, (src, dst) ∈ numeric_fields →
         column Examples.unnamed src = Some s → is_numeric_dtype s = true →
         ∃ v, alist_get dst r = Some v ∧ is_number v = true)
    ∧ (∀ t, cell Examples.unnamed "food_name" 1 = Some (PyStr t) →
         alist_get "name" r = Some (PyStr t))
    ∧ (∀ v, cell Examples.unnamed "food_name" 1 = Some v → isna v = true →
         ∃ z, alist_get "name" r = Some z ∧ is_zero z = true).
Proof.
  eexists. split; [vm_compute; reflexivity|].
  apply (value_types Examples.unnamed (to_dict (cleaned Examples.unnamed)) 1);
    [exact wf_unnamed | vm_compute; reflexivity | vm_compute; reflexivity].
Defined.

(** ** Rounding *)

(** The claim of C1 fails on 0.15: the float read from that cell is below
    3/20, so its nearest tenth is 0.1 under either tie rule, yet the record
    holds 0.2. *)
Lemma fifteen_hundredths_counterexample :
  let x := Examples.dec 15 (-2) in
  ∃ r y, transform Examples.fifteen_hundredths = inr [r]
    ∧ cell Examples.fifteen_hundredths "energy_kcal" 0 = Some (PyFloat x)
    ∧ x = S754_finite false 5404319552844595 (-55)
    ∧ 5404319552844595 * 20 < 3 * 2 ^ 55
    ∧ alist_get "calories" r = Some (PyFloat y)
    ∧ y = Examples.dec 2 (-1)
    ∧ exact_round1 HalfEven x = Examples.dec 1 (-1)
    ∧ exact_round1 HalfAwayFromZero x = Examples.dec 1 (-1)
    ∧ ∀ rule, y ≠ exact_round1 rule x.
Proof.
  eexists _, _. vm_compute. repeat split; try reflexivity.
  intros [] H; discriminate H.
Qed.

(** C1, amended: for a present value [x] of a numeric source field in a
    float column, the record holds [round1 x], the float64 obtained by
    multiplying [x] by 10.0, rounding the product to an integer with ties to
    even, and dividing by 10.0; a value of an integer column is kept. *)
Theorem numeric_field_rounded (df : DataFrame) (out : list record) (i : nat)
    (src dst : string) (s : Series) :
  wf_frame df → transform df = inr out →
  (src, dst) ∈ numeric_fields → column df src = Some s →
  (∀ l x, s = Float64 l → l !! i = Some x → F64.is_nan x = false →
     ∃ r, out !! i = Some r
          ∧ alist_get dst r
            = Some (PyFloat (F64.div (F64.rint (F64.mul x F64.ten)) F64.ten)))
  ∧ (∀ l n, s = Int64 l → l !! i = Some n →
       ∃ r, out !! i = Some r ∧ alist_get dst r = Some (PyInt n)).
Proof.
  intros Hwf E Hf Hs.
  apply numeric_field_relevant in Hf as [Hin Hn]. simpl in Hn.
  split.
  - intros l x -> Hx Hnan.
    destruct (transform_field df out i src dst (Float64 l) (PyFloat x) Hwf E Hin Hs)
      as (r & Hr & Hg); [simpl; by rewrite Hx|].
    exists r. split; [done|]. rewrite Hg, Hn.
    unfold clean_cell, fill_cell. simpl. by rewrite Hnan.
  - intros l n -> Hx.
    destruct (transform_field df out i src dst (Int64 l) (PyInt n) Hwf E Hin Hs)
      as (r & Hr & Hg); [simpl; by rewrite Hx|].
    exists r. split; [done|]. by rewrite Hg, Hn.
Qed.

Lemma numeric_field_rounded_witness :
  (∀ l x, Float64 [Examples.dec 130456 (-3)] = Float64 l → l !! 0%nat = Some x →
     F64.is_nan x = false →
     ∃ r, to_dict (cleaned Examples.rice) !! 0%nat = Some r
          ∧ alist_get "calories" r
            = Some (PyFloat (F64.div (F64.rint (F64.mul x F64.ten)) F64.ten)))
  ∧ (∀ l n, Float64 [Examples.dec 130456 (-3)] = Int64 l → l !! 0%nat = Some n →
       ∃ r, to_dict (cleaned Examples.rice) !! 0%nat = Some r
            ∧ alist_get "calories" r = Some (PyInt n)).
Proof.
  apply (numeric_field_rounded Examples.rice _ 0 "energy_kcal" "calories" _ wf_rice).
  - vm_compute. reflexivity.
  - apply (bool_decide_unpack _). vm_compute. reflexivity.
  - reflexivity.
Defined.

(** ** Exceptions of the encoder *)

Lemma then_raised a b e :
  (Json.then_ a b).2 = Some e → a.2 = Some e ∨ b.2 = Some e.
Proof.
  destruct a as [s [e'|]]; simpl; auto.
Qed.

Lemma then_text_ok a b : a.2 = None → Json.then_ a b = (a.1 ++ b.1, b.2).
Proof. destruct a as [s [e'|]]; simpl; [discriminate|done]. Qed.

Ltac split_then E :=
  repeat match type of E with
         | (Json.then_ _ _).2 = Some _ => apply then_raised in E as [E|E]
         end.

Lemma iterencode_value_raises v e :
  (Json.iterencode_value v).2 = Some e → exn_type e = TypeError.
Proof.
  destruct v as [|[]| | | |]; simpl; try discriminate.
  intros E. by injection E as <-.
Qed.

Lemma iterencode_items_raises first level items e :
  (Json.iterencode_items first level items).2 = Some e → exn_type e = TypeError.
Proof.
  revert first. induction items as [|[k v] items IH]; intros first;
    cbn [Json.iterencode_items].
  - discriminate.
  - intros E.
    split_then E; try (by destruct first); try done.
    + by apply iterencode_value_raises in E.
    + by apply IH in E.
Qed.

Lemma iterencode_dict_raises level dct e :
  (Json.iterencode_dict level dct).2 = Some e → exn_type e = TypeError.
Proof.
  destruct dct as [|kv dct]; [discriminate|].
  unfold Json.iterencode_dict. intros E.
  split_then E; try done.
  by apply iterencode_items_raises in E.
Qed.

Lemma iterencode_elements_raises first level lst e :
  (Json.iterencode_elements first level lst).2 = Some e → exn_type e = TypeError.
Proof.
  revert first. induction lst as [|r lst IH]; intros first;
    cbn [Json.iterencode_elements].
  - discriminate.
  - intros E.
    split_then E; try done.
    + by apply iterencode_dict_raises in E.
    + by apply IH in E.
Qed.

Lemma iterencode_list_raises lst e :
  (Json.iterencode_list lst).2 = Some e → exn_type e = TypeError.
Proof.
  destruct lst as [|r lst]; [discriminate|].
  unfold Json.iterencode_list. intros E.
  split_then E; try done.
  by apply iterencode_elements_raises in E.
Qed.

(** ** Exceptions of the body *)

Lemma read_excel_raises w e : read_excel w = inl e → is_Exception (exn_type e) = true.
Proof.
  unfold read_excel. destruct (source w) as [| |sheets].
  - intros E. by injection E as <-.
  - intros E. by injection E as <-.
  - destruct (alist_get _ sheets); [discriminate|]. intros E. by injection E as <-.
Qed.

Lemma open_w_raises w e : open_w w = inl e → is_Exception (exn_type e) = true.
Proof.
  unfold open_w. destruct (dest_dir w); [| |discriminate];
    intros E; by injection E as <-.
Qed.

Lemma try_body_raises w e w' :
  try_body w = (Some e, w') → is_Exception (exn_type e) = true.
Proof.
  unfold try_body.
  destruct (read_excel w) as [e1|df] eqn:E1.
  { intros E. injection E as <- _. by apply read_excel_raises in E1. }
  destruct (transform df) as [e2|recs] eqn:E2.
  { intros E. injection E as <- _. apply transform_raises in E2. by rewrite E2. }
  destruct (open_w w) as [e3|w1] eqn:E3.
  { intros E. injection E as <- _. by apply open_w_raises in E3. }
  destruct (Json.iterencode_list recs) as [text [e4|]] eqn:E4; [|discriminate].
  intros E. injection E as <- _.
  pose proof (iterencode_list_raises recs e4) as H. rewrite E4 in H.
  by rewrite (H eq_refl).
Qed.

Lemma try_body_prints w w' :
  try_body w = (None, w') → ∃ line, stdout w' = (stdout w ++ [line])%list.
Proof.
  unfold try_body.
  destruct (read_excel w) as [e1|df]; [discriminate|].
  destruct (transform df) as [e2|recs]; [discriminate|].
  destruct (open_w w) as [e3|w1] eqn:E3; [discriminate|].
  destruct (Json.iterencode_list recs) as [text [e4|]]; [discriminate|].
  intros E. injection E as <-. eexists. simpl.
  unfold open_w in E3. destruct (dest_dir w); try discriminate.
  by injection E3 as <-.
Qed.

Lemma try_body_silent w e w' :
  try_body w = (Some e, w') → stdout w' = stdout w.
Proof.
  unfold try_body.
  destruct (read_excel w) as [e1|df]; [by intros [= _ <-]|].
  destruct (transform df) as [e2|recs]; [by intros [= _ <-]|].
  destruct (open_w w) as [e3|w1] eqn:E3; [by intros [= _ <-]|].
  destruct (Json.iterencode_list recs) as [text [e4|]]; [|discriminate].
  intros [= _ <-]. simpl.
  unfold open_w in E3. destruct (dest_dir w); try discriminate.
  by injection E3 as <-.
Qed.

(** C7: whatever the files are, every error of the pipeline is caught and
    turned into one printed line; the call returns normally and the exit
    status is 0, after a success as after a failure. *)
Theorem never_raises (w : World) :
  ∃ w' line,
    generate_recipe_json w = (None, w')
    ∧ main w = (0, w')
    ∧ stdout w' = (stdout w ++ [line])%list
    ∧ ∀ e w1, try_body w = (Some e, w1) →
        is_Exception (exn_type e) = true ∧ line = diagnostic e.
Proof.
  unfold main, generate_recipe_json.
  destruct (try_body w) as [[e|] w1] eqn:E.
  - rewrite (try_body_raises w e w1 E).
    exists (print (diagnostic e) w1), (diagnostic e).
    split; [done|]. split; [done|]. split.
    + simpl. by rewrite (try_body_silent w e w1 E).
    + intros e' w1' [= <- <-]. split; [|done]. by apply (try_body_raises w e w1).
  - destruct (try_body_prints w w1 E) as [line Hl].
    exists w1, line. split; [done|]. split; [done|]. split; [done|].
    intros e' w1' [=].
Qed.

(** ** The destination file *)

Lemma fails_before_write_body w e : fails_before_write w e → try_body w = (Some e, w).
Proof.
  unfold try_body. intros [E|(df & E1 & E2)].
  - by rewrite E.
  - by rewrite E1, E2.
Qed.

Lemma fails_before_write_Exception w e :
  fails_before_write w e → is_Exception (exn_type e) = true.
Proof.
  intros H. apply fails_before_write_body in H. by apply try_body_raises in H.
Qed.

(** C6: when loading or transforming fails, in particular when one of the
    eight columns is missing, the failure is printed and the destination is
    neither created nor changed. *)
Theorem failure_before_write (w : World) :
  (∀ e, fails_before_write w e →
     ∃ w', generate_recipe_json w = (None, w')
           ∧ dest w' = dest w
           ∧ stdout w' = (stdout w ++ [diagnostic e])%list)
  ∧ (∀ df k, read_excel w = inr df → k ∈ relevant_cols.*1 → column df k = None →
       ∃ msg, fails_before_write w (Raise KeyError msg)).
Proof.
  split.
  - intros e H. unfold generate_recipe_json.
    rewrite (fails_before_write_body w e H), (fails_before_write_Exception w e H).
    by eexists.
  - intros df k E Hk Hc. destruct (transform_missing df k Hk Hc) as [msg Hm].
    exists msg. right. by exists df.
Qed.

Lemma failure_before_write_witness :
  let w := Examples.world Examples.no_fat (Some "old") in
  ∃ msg w', column Examples.no_fat "fat_g" = None
    ∧ fails_before_write w (Raise KeyError msg)
    ∧ generate_recipe_json w = (None, w')
    ∧ dest w' = Some "old"
    ∧ stdout w' = [diagnostic (Raise KeyError msg)].
Proof.
  intros w.
  destruct (failure_before_write w) as [H1 H2].
  destruct (H2 Examples.no_fat "fat_g") as [msg Hm].
  { reflexivity. }
  { apply (bool_decide_unpack _). vm_compute. reflexivity. }
  { reflexivity. }
  destruct (H1 _ Hm) as (w' & E1 & E2 & E3).
  exists msg, w'. repeat split; assumption.
Defined.

(** When the encoder raises, the file holds what was written before. *)
Lemma encoder_error_leaves_partial_file w df recs text e :
  read_excel w = inr df → transform df = inr recs → dest_dir w = Writable →
  Json.iterencode_list recs = (text, Some e) →
  generate_recipe_json w
  = (None, MkWorld (source w) Writable (Some text) (stdout w ++ [diagnostic e])).
Proof.
  intros E1 E2 E3 E4.
  pose proof (iterencode_list_raises recs e) as Ht. rewrite E4 in Ht.
  specialize (Ht eq_refl).
  unfold generate_recipe_json, try_body, open_w.
  rewrite E1, E2, E3. cbn [mret result_ret]. rewrite E4, Ht.
  unfold write, print, diagnostic. simpl. reflexivity.
Qed.

(** C10: there is an input on which the transformation succeeds and the
    encoder raises; the destination has then been opened and emptied, its
    old content is gone, and it keeps the text written before the error,
    here the opening of the first record up to its first value. *)
Theorem partial_file_after_encoder_error :
  let w := Examples.world Examples.dated (Some "[]") in
  ∃ recs text e w',
    read_excel w = inr Examples.dated
    ∧ transform Examples.dated = inr recs
    ∧ Json.iterencode_list recs = (text, Some e)
    ∧ exn_type e = TypeError
    ∧ generate_recipe_json w = (None, w')
    ∧ dest w' = Some text
    ∧ text = "[" ++ Json.newline ++ "  {" ++ Json.newline ++ "    "
             ++ dquote ++ "name" ++ dquote ++ ": "
    ∧ stdout w' = [diagnostic e].
Proof.
  intros w. eexists _, _, _, _.
  split; [reflexivity|].
  split; [vm_compute; reflexivity|].
  split; [vm_compute; reflexivity|].
  split; [reflexivity|].
  split.
  { eapply (encoder_error_leaves_partial_file w Examples.dated);
      [reflexivity | vm_compute; reflexivity | reflexivity | vm_compute; reflexivity]. }
  split; [reflexivity|]. split; reflexivity.
Qed.

(** ** binary64: exact products and ties *)

Section Exact.

Local Abbreviation prec := F64.prec.
Local Abbreviation emax := F64.emax.

Lemma digits2_log2 p : Z.pos (digits2_pos p) = Z.log2 (Z.pos p) + 1.
Proof.
  induction p as [p IH|p IH|]; simpl digits2_pos; [| |done].
  - rewrite Pos2Z.inj_succ, IH.
    change (Z.pos p~1) with (2 * Z.pos p + 1). rewrite Z.log2_succ_double; lia.
  - rewrite Pos2Z.inj_succ, IH.
    change (Z.pos p~0) with (2 * Z.pos p). rewrite Z.log2_double; lia.
Qed.

Lemma Zdigits2_log2 m : 0 < m → Zdigits2 m = Z.log2 m + 1.
Proof. destruct m; try lia. intros _. apply digits2_log2. Qed.

Lemma Zdigits2_mul_pow2 m k :
  0 < m → 0 ≤ k → Zdigits2 (m * 2 ^ k) = Zdigits2 m + k.
Proof.
  intros Hm Hk. rewrite !Zdigits2_log2 by (try apply Z.mul_pos_pos; lia).
  rewrite Z.log2_mul_pow2 by lia. lia.
Qed.

Lemma Zdigits2_bound m : 0 < m → 2 ^ (Zdigits2 m - 1) ≤ m < 2 ^ Zdigits2 m.
Proof.
  intros Hm. rewrite Zdigits2_log2 by done.
  replace (Z.log2 m + 1 - 1) with (Z.log2 m) by lia.
  replace (Z.log2 m + 1) with (Z.succ (Z.log2 m)) by lia.
  by apply Z.log2_spec.
Qed.

Lemma iter_pos_nat {A} (f : A → A) p x :
  SpecFloat.iter_pos f p x = Nat.iter (Pos.to_nat p) f x.
Proof.
  revert x. induction p as [p IH|p IH|]; intros x; simpl SpecFloat.iter_pos.
  - rewrite !IH, Pos2Nat.inj_xI.
    replace (S (2 * Pos.to_nat p)) with (Pos.to_nat p + (Pos.to_nat p + 1))%nat by lia.
    by rewrite !Nat.iter_add.
  - rewrite !IH, Pos2Nat.inj_xO.
    replace (2 * Pos.to_nat p)%nat with (Pos.to_nat p + Pos.to_nat p)%nat by lia.
    by rewrite Nat.iter_add.
  - done.
Qed.

(** Shifting out zero bits loses nothing. *)
Lemma shr_1_even m :
  0 < m → shr_1 (Build_shr_record (2 * m) false false) = Build_shr_record m false false.
Proof. destruct m; try lia. done. Qed.

Lemma iter_shr_1_exact n m :
  0 < m →
  Nat.iter n shr_1 (Build_shr_record (m * 2 ^ Z.of_nat n) false false)
  = Build_shr_record m false false.
Proof.
  revert m. induction n as [|n IH]; intros m Hm.
  - simpl. by rewrite Z.mul_1_r.
  - rewrite Nat.iter_succ_r.
    replace (m * 2 ^ Z.of_nat (S n)) with (2 * (m * 2 ^ Z.of_nat n)).
    2:{ rewrite Nat2Z.inj_succ, Z.pow_succ_r by lia. ring. }
    rewrite shr_1_even by (apply Z.mul_pos_pos; lia). by apply IH.
Qed.

Lemma shr_exact m e n :
  0 < m → 0 ≤ n →
  shr (Build_shr_record (m * 2 ^ n) false false) e n
  = (Build_shr_record m false false, e + n).
Proof.
  intros Hm Hn. destruct n as [|p|p]; [|  |lia].
  - simpl. by rewrite Z.mul_1_r, Z.add_0_r.
  - unfold shr. rewrite iter_pos_nat.
    rewrite <- (positive_nat_Z p) at 1. by rewrite iter_shr_1_exact.
Qed.

(** Rounding is exact when only zero bits have to go: [m * 2^k] at exponent
    [ex], of which the format drops [n <= k] bits. *)
Lemma binary_round_aux_exact sx m k ex n :
  0 < m →
  n = SpecFloat.fexp prec emax (Zdigits2 (m * 2 ^ k) + ex) - ex →
  0 ≤ n ≤ k → ex + n ≤ emax - prec →
  binary_round_aux prec emax sx (m * 2 ^ k) ex loc_Exact
  = S754_finite sx (Z.to_pos (m * 2 ^ (k - n))) (ex + n).
Proof.
  intros Hm Hn Hnk Hex.
  assert (0 < m * 2 ^ (k - n)) as Hm' by (apply Z.mul_pos_pos; lia).
  assert (m * 2 ^ k = m * 2 ^ (k - n) * 2 ^ n) as Hsplit.
  { rewrite <- Z.mul_assoc, <- Z.pow_add_r by lia. do 2 f_equal. lia. }
  unfold binary_round_aux, shr_fexp. rewrite <- Hn.
  cbn [shr_record_of_loc]. rewrite Hsplit at 1.
  rewrite shr_exact by lia.
  cbn [shr_m loc_of_shr_record round_nearest_even shr_record_of_loc].
  replace (SpecFloat.fexp prec emax (Zdigits2 (m * 2 ^ (k - n)) + (ex + n)) - (ex + n))
    with 0.
  2:{ rewrite Hsplit in Hn. rewrite Zdigits2_mul_pow2 in Hn by lia.
      replace (Zdigits2 (m * 2 ^ (k - n)) + (ex + n))
        with (Zdigits2 (m * 2 ^ (k - n)) + n + ex) by lia. lia. }
  cbn [shr shr_m]. destruct (m * 2 ^ (k - n)) as [|p|p] eqn:Ep; try lia.
  replace (ex + n <=? emax - prec) with true by (symmetry; apply Z.leb_le; lia).
  done.
Qed.

End Exact.
Section Ties.

Local Abbreviation prec := F64.prec.
Local Abbreviation emax := F64.emax.

(** [10 * m * 2^e = q + 1/2]: the value is halfway between two tenths. *)
Lemma tie_exponent_neg m e q : 20 * Z.pos m = (2 * q + 1) * 2 ^ (- e) → e < 0.
Proof.
  intros H. destruct (Z.lt_ge_cases e 0) as [|He]; [done|].
  destruct (Z.eq_dec e 0) as [->|]; [simpl in H; lia|].
  rewrite Z.pow_neg_r in H by lia. lia.
Qed.

Lemma tie_digits m e q :
  0 ≤ q → 20 * Z.pos m = (2 * q + 1) * 2 ^ (- e) →
  5 ≤ Zdigits2 (2 * q + 1) - e.
Proof.
  intros Hq H. pose proof (tie_exponent_neg m e q H) as He.
  replace (Zdigits2 (2 * q + 1) - e) with (Zdigits2 (2 * q + 1) + - e) by lia.
  rewrite <- Zdigits2_mul_pow2 by lia. rewrite <- H.
  rewrite Zdigits2_log2 by lia.
  assert (4 ≤ Z.log2 (20 * Z.pos m)); [|lia].
  apply Z.log2_le_pow2; lia.
Qed.

(** The product with ten of a tie is exact. *)
Lemma mul_ten_tie s m e q :
  0 ≤ q → 2 * q + 1 < 2 ^ 53 →
  20 * Z.pos m = (2 * q + 1) * 2 ^ (- e) →
  F64.mul (S754_finite s m e) F64.ten
  = S754_finite s (Z.to_pos ((2 * q + 1) * 2 ^ (53 - Zdigits2 (2 * q + 1))))
                (Zdigits2 (2 * q + 1) - 54).
Proof.
  intros Hq Hb H.
  pose proof (tie_exponent_neg m e q H) as He.
  pose proof (tie_digits m e q Hq H) as Hd.
  set (o := 2 * q + 1) in *.
  assert (0 < o) as Ho by lia.
  pose proof (Zdigits2_bound o Ho) as [Hlo Hhi].
  assert (Zdigits2 o ≤ 53) as HD.
  { destruct (Z.le_gt_cases (Zdigits2 o) 53) as [|Hgt]; [done|].
    assert (2 ^ 53 ≤ 2 ^ (Zdigits2 o - 1)) by (apply Z.pow_le_mono_r; lia). lia. }
  assert (1 ≤ Zdigits2 o) as HD1.
  { rewrite Zdigits2_log2 by done. pose proof (Z.log2_nonneg o). lia. }
  unfold F64.mul, F64.ten, SFmul. rewrite xorb_false_r.
  replace (Z.pos (m * 5629499534213120)) with (o * 2 ^ (48 - e)).
  2:{ rewrite Pos2Z.inj_mul. change (Z.pos 5629499534213120) with (20 * 2 ^ 48).
      replace (48 - e) with (- e + 48) by lia. rewrite Z.pow_add_r by lia.
      rewrite Z.mul_assoc, <- H. ring. }
  rewrite (binary_round_aux_exact s o (48 - e) (e + -49) (Zdigits2 o - e - 5));
    try lia.
  - f_equal; [|lia]. do 3 f_equal. lia.
  - rewrite Zdigits2_mul_pow2 by lia. unfold SpecFloat.fexp, SpecFloat.emin.
    unfold F64.prec, F64.emax. lia.
  - unfold F64.prec, F64.emax. lia.
Qed.

Lemma rint_half s q :
  0 ≤ q → 2 * q + 1 < 2 ^ 53 →
  F64.rint (S754_finite s (Z.to_pos ((2 * q + 1) * 2 ^ (53 - Zdigits2 (2 * q + 1))))
                        (Zdigits2 (2 * q + 1) - 54))
  = F64.of_Z s (cond_Zopp s (if Z.even q then q else q + 1)).
Proof.
  intros Hq Hb. set (o := 2 * q + 1) in *.
  assert (0 < o) as Ho by lia.
  pose proof (Zdigits2_bound o Ho) as [Hlo Hhi].
  assert (Zdigits2 o ≤ 53) as HD.
  { destruct (Z.le_gt_cases (Zdigits2 o) 53) as [|Hgt]; [done|].
    assert (2 ^ 53 ≤ 2 ^ (Zdigits2 o - 1)) by (apply Z.pow_le_mono_r; lia). lia. }
  set (h := 2 ^ (53 - Zdigits2 o)).
  assert (0 < h) as Hh by (apply Z.pow_pos_nonneg; lia).
  assert (2 ^ (- (Zdigits2 o - 54)) = 2 * h) as Hd.
  { unfold h. rewrite <- Z.pow_succ_r by lia. f_equal. lia. }
  unfold F64.rint.
  replace (0 <=? Zdigits2 o - 54) with false by (symmetry; apply Z.leb_gt; lia).
  rewrite Z2Pos.id by (apply Z.mul_pos_pos; lia).
  rewrite Hd.
  assert (o * h = q * (2 * h) + h) as Hdiv by (unfold o; ring).
  rewrite (Z.div_unique_pos (o * h) (2 * h) q h) by lia.
  rewrite <- (Z.mod_unique_pos (o * h) (2 * h) q h) by lia.
  unfold F64.half_even. by rewrite Z.compare_refl.
Qed.

(** A tie is rounded to the even tenth. *)
Lemma round1_tie s m e q :
  0 ≤ q → 2 * q + 1 < 2 ^ 53 →
  20 * Z.pos m = (2 * q + 1) * 2 ^ (- e) →
  F64.round1 (S754_finite s m e)
  = F64.div (F64.of_Z s (cond_Zopp s (if Z.even q then q else q + 1))) F64.ten.
Proof.
  intros Hq Hb H. unfold F64.round1.
  by rewrite (mul_ten_tie s m e q Hq Hb H), (rint_half s q Hq Hb).
Qed.

End Ties.

Section Tenths.

Local Abbreviation prec := F64.prec.
Local Abbreviation emax := F64.emax.

Lemma pos_iter_xO p d : Z.pos (Pos.iter xO p d) = Z.pos p * 2 ^ Z.pos d.
Proof.
  induction d as [|d IH] using Pos.peano_ind.
  - simpl. lia.
  - rewrite Pos.iter_succ, Pos2Z.inj_xO, IH, Pos2Z.inj_succ, Z.pow_succ_r by lia. ring.
Qed.

Lemma digits_le_53 n : 0 < n < 2 ^ 53 → 1 ≤ Zdigits2 n ≤ 53.
Proof.
  intros [Hn Hb]. pose proof (Zdigits2_bound n Hn) as [Hlo Hhi].
  rewrite Zdigits2_log2 by done. pose proof (Z.log2_nonneg n).
  split; [lia|].
  destruct (Z.le_gt_cases (Z.log2 n + 1) 53) as [|Hgt]; [done|].
  rewrite Zdigits2_log2 in Hlo by done.
  assert (2 ^ 53 ≤ 2 ^ (Z.log2 n + 1 - 1)) by (apply Z.pow_le_mono_r; lia). lia.
Qed.

(** An integer below [2^53] is a float64: [of_Z] only normalises it. *)
Lemma of_Z_exact s n :
  0 < n < 2 ^ 53 →
  F64.of_Z s (cond_Zopp s n)
  = S754_finite s (Z.to_pos (n * 2 ^ (53 - Zdigits2 n))) (Zdigits2 n - 53).
Proof.
  intros Hn. pose proof (digits_le_53 n Hn) as HD.
  destruct n as [|p|p]; try lia.
  assert (F64.of_Z s (cond_Zopp s (Z.pos p)) = binary_round prec emax s p 0) as ->.
  { by destruct s. }
  unfold binary_round, shl_align.
  change (Z.pos (digits2_pos p)) with (Zdigits2 (Z.pos p)).
  replace (SpecFloat.fexp prec emax (Zdigits2 (Z.pos p) + 0)) with (Zdigits2 (Z.pos p) - 53).
  2:{ unfold SpecFloat.fexp, SpecFloat.emin, F64.prec, F64.emax. lia. }
  destruct (Zdigits2 (Z.pos p) - 53 - 0) as [|d|d] eqn:Ed; try lia.
  - replace (Zdigits2 (Z.pos p)) with 53 by lia. simpl (53 - 53). rewrite Z.mul_1_r.
    rewrite <- (Z.mul_1_r (Z.pos p)) at 1. change 1 with (2 ^ 0) at 1.
    rewrite (binary_round_aux_exact s (Z.pos p) 0 0 0); try lia.
    + by rewrite Z.mul_1_r.
    + rewrite Z.mul_1_r. unfold SpecFloat.fexp, SpecFloat.emin, F64.prec, F64.emax.
      change (Z.pos (digits2_pos p)) with (Zdigits2 (Z.pos p)) in *. lia.
    + unfold F64.prec, F64.emax. lia.
  - rewrite pos_iter_xO.
    replace (Z.pos d) with (53 - Zdigits2 (Z.pos p)) by lia.
    rewrite (binary_round_aux_exact s (Z.pos p) (53 - Zdigits2 (Z.pos p))
               (Zdigits2 (Z.pos p) - 53) 0); try lia.
    + f_equal; [|lia]. do 3 f_equal. lia.
    + rewrite Zdigits2_mul_pow2 by lia.
      unfold SpecFloat.fexp, SpecFloat.emin, F64.prec, F64.emax. lia.
    + unfold F64.prec, F64.emax. lia.
Qed.

Lemma binary_round_aux_sign m e l :
  binary_round_aux prec emax true m e l
  = SFopp (binary_round_aux prec emax false m e l).
Proof.
  unfold binary_round_aux.
  destruct (shr_fexp prec emax m e l) as [mrs' e'].
  destruct (shr_fexp prec emax _ e' loc_Exact) as [mrs'' e''].
  destruct (shr_m mrs''); [done| |done].
  by destruct (e'' <=? emax - prec).
Qed.

Lemma new_location_scale c nb k :
  0 < c → 0 < nb → 0 ≤ k → Z.even nb = true →
  new_location (nb * c) (k * c) = new_location nb k.
Proof.
  intros Hc Hnb Hk Hev. unfold new_location.
  rewrite Z.even_mul, Hev. simpl.
  unfold new_location_even.
  destruct (Z.eqb_spec k 0) as [->|Hk0]; [done|].
  destruct (Z.eqb_spec (k * c) 0) as [E|_]; [nia|].
  f_equal. rewrite Z.mul_assoc.
  destruct (Z.compare_spec (2 * k) nb) as [E|E|E].
  - apply Z.compare_eq_iff. nia.
  - apply Z.compare_lt_iff. nia.
  - apply Z.compare_gt_iff. nia.
Qed.

Lemma div_eucl_pair a b : Z.div_eucl a b = (a / b, a mod b).
Proof. unfold Z.div, Z.modulo. by destruct (Z.div_eucl a b). Qed.

(** Dividing the normalised integer by [ten] is dividing [n] by 10. *)
Lemma div_core_normalised n :
  0 < n < 2 ^ 53 →
  SFdiv_core_binary prec emax (n * 2 ^ (53 - Zdigits2 n)) (Zdigits2 n - 53)
    5629499534213120 (-49)
  = SFdiv_core_binary prec emax n 0 10 0.
Proof.
  intros Hn. pose proof (digits_le_53 n Hn) as HD.
  unfold SFdiv_core_binary.
  rewrite Zdigits2_mul_pow2 by lia.
  change (Zdigits2 5629499534213120) with 53. change (Zdigits2 10) with 4.
  set (D := Zdigits2 n) in *.
  replace (SpecFloat.fexp prec emax (D + (53 - D) + (D - 53) - (53 + -49))) with (D - 57).
  2:{ unfold SpecFloat.fexp, SpecFloat.emin, F64.prec, F64.emax. lia. }
  replace (SpecFloat.fexp prec emax (D + 0 - (4 + 0))) with (D - 57).
  2:{ unfold SpecFloat.fexp, SpecFloat.emin, F64.prec, F64.emax. lia. }
  replace (Z.min (D - 57) (D - 53 - -49)) with (D - 57) by lia.
  replace (Z.min (D - 57) (0 - 0)) with (D - 57) by lia.
  replace (D - 53 - -49 - (D - 57)) with 53 by lia.
  destruct (0 - 0 - (D - 57)) as [|p|p] eqn:Ep; try lia.
  rewrite !Z.shiftl_mul_pow2 by lia.
  set (a := n * 2 ^ Z.pos p).
  assert (0 < a) as Ha by (apply Z.mul_pos_pos; lia).
  replace (n * 2 ^ (53 - D) * 2 ^ 53) with (a * 2 ^ 49).
  2:{ unfold a. rewrite <- !Z.mul_assoc, <- !Z.pow_add_r by lia. do 2 f_equal. lia. }
  change 5629499534213120 with (10 * 2 ^ 49).
  rewrite !div_eucl_pair.
  rewrite Z.div_mul_cancel_r by lia.
  rewrite Z.mul_mod_distr_r by lia.
  rewrite new_location_scale; try done; try lia.
  apply Z.mod_pos_bound. lia.
Qed.

Lemma div_ten_raw s n :
  0 < n < 2 ^ 53 →
  F64.div (F64.of_Z s (cond_Zopp s n)) F64.ten
  = (if s then SFopp else id) (Repr.round_decimal (Z.to_pos n) (-1)).
Proof.
  intros Hn. pose proof (digits_le_53 n Hn) as HD.
  rewrite of_Z_exact by done.
  unfold F64.div, F64.ten, SFdiv, Repr.round_decimal.
  change (0 <=? -1) with false. cbn iota.
  change (Z.to_pos (10 ^ (- -1))) with 10%positive.
  unfold SFdiv.
  rewrite !Z2Pos.id by (try apply Z.mul_pos_pos; lia).
  rewrite div_core_normalised by done.
  destruct (SFdiv_core_binary prec emax n 0 10 0) as [[mz ez] lz].
  rewrite xorb_false_r. destruct s; [|done].
  apply binary_round_aux_sign.
Qed.

Lemma Zdigits2_mono a b : 0 < a ≤ b → Zdigits2 a ≤ Zdigits2 b.
Proof.
  intros H. rewrite !Zdigits2_log2 by lia.
  pose proof (Z.log2_le_mono a b). lia.
Qed.

(** A multiple of ten below [2^53] divided by [ten]: the quotient is exact. *)
Lemma div_ten_exact s n :
  0 < n → 10 * n < 2 ^ 53 →
  F64.div (F64.of_Z s (cond_Zopp s (10 * n))) F64.ten = F64.of_Z s (cond_Zopp s n).
Proof.
  intros Hn Hb.
  pose proof (digits_le_53 (10 * n) ltac:(lia)) as HD.
  pose proof (digits_le_53 n ltac:(lia)) as HD1.
  assert (Zdigits2 (10 * n) ≤ Zdigits2 n + 4) as Hup.
  { rewrite <- (Zdigits2_mul_pow2 n 4) by lia. apply Zdigits2_mono. lia. }
  rewrite !of_Z_exact by lia.
  unfold F64.div, F64.ten, SFdiv.
  rewrite !Z2Pos.id by (try apply Z.mul_pos_pos; lia).
  rewrite div_core_normalised by lia.
  unfold SFdiv_core_binary.
  change (Zdigits2 10) with 4.
  set (D := Zdigits2 (10 * n)) in *.
  replace (SpecFloat.fexp prec emax (D + 0 - (4 + 0))) with (D - 57).
  2:{ unfold SpecFloat.fexp, SpecFloat.emin, F64.prec, F64.emax. lia. }
  replace (Z.min (D - 57) (0 - 0)) with (D - 57) by lia.
  destruct (0 - 0 - (D - 57)) as [|p|p] eqn:Ep; try lia.
  rewrite Z.shiftl_mul_pow2 by lia. rewrite div_eucl_pair.
  replace (10 * n * 2 ^ Z.pos p) with (n * 2 ^ Z.pos p * 10) by ring.
  rewrite Z.div_mul by lia. rewrite Z.mod_mul by lia.
  change (new_location 10 0) with loc_Exact.
  rewrite xorb_false_r.
  rewrite (binary_round_aux_exact s n (Z.pos p) (D - 57) (Zdigits2 n - D + 4)); try lia.
  - f_equal; [|lia]. do 3 f_equal. lia.
  - rewrite Zdigits2_mul_pow2 by lia.
    unfold SpecFloat.fexp, SpecFloat.emin, F64.prec, F64.emax. lia.
  - unfold F64.prec, F64.emax. lia.
Qed.

Lemma of_Z_neg n : 0 < n < 2 ^ 53 → F64.of_Z true (- n) = SFopp (F64.of_Z false n).
Proof.
  intros Hn.
  change (- n) with (cond_Zopp true n). change n with (cond_Zopp false n) at 2.
  by rewrite !of_Z_exact.
Qed.

Lemma strip_zeros_value fuel d k d' k' :
  0 < d → Repr.strip_zeros fuel d k = (d', k') →
  0 < d' ∧ k ≤ k' ∧ d = d' * 10 ^ (k' - k).
Proof.
  revert d k. induction fuel as [|fuel IH]; intros d k Hd; simpl.
  - intros [= <- <-]. rewrite Z.sub_diag. lia.
  - destruct (Z.eqb_spec (d mod 10) 0) as [Hz|Hz].
    + intros E. apply IH in E as (H1 & H2 & H3).
      2:{ pose proof (Z.div_mod d 10). apply Z.div_str_pos. lia. }
      split; [done|]. split; [lia|].
      replace (k' - k) with (Z.succ (k' - (k + 1))) by lia.
      rewrite Z.pow_succ_r by lia. pose proof (Z.div_mod d 10). lia.
    + intros [= <- <-]. rewrite Z.sub_diag. lia.
Qed.

(** A whole number of tenths below [2^53], divided by [ten]. *)
Lemma div_ten_tenths s n :
  0 < n < 2 ^ 53 →
  F64.div (F64.of_Z s (cond_Zopp s n)) F64.ten
  = (if s then SFopp else id) (Repr.of_decimal (Z.to_pos n) (-1)).
Proof.
  intros Hn. unfold Repr.of_decimal.
  rewrite Z2Pos.id by lia.
  destruct (Pos.size_nat (Z.to_pos n)) as [|fuel] eqn:Ef.
  { by destruct (Z.to_pos n). }
  cbn [Repr.strip_zeros].
  destruct (Z.eqb_spec (n mod 10) 0) as [Hz|Hz].
  - assert (n = 10 * (n / 10)) as Hn10 by (pose proof (Z.div_mod n 10); lia).
    assert (0 < n / 10) as Hpos by (apply Z.div_str_pos; lia).
    destruct (Repr.strip_zeros fuel (n / 10) (-1 + 1)) as [d' k'] eqn:Es.
    apply strip_zeros_value in Es as (Hd' & Hk' & Hval); [|done].
    destruct d' as [|p|p]; try lia.
    unfold Repr.round_decimal.
    replace (0 <=? k') with true by (symmetry; apply Z.leb_le; lia).
    replace (k' - (-1 + 1)) with k' in Hval by lia. rewrite <- Hval.
    rewrite Hn10 at 1. rewrite div_ten_exact by lia.
    destruct s; [|done]. simpl cond_Zopp. by rewrite of_Z_neg by lia.
  - destruct n as [|p|p]; try lia. by apply (div_ten_raw s (Z.pos p)).
Qed.

End Tenths.
Section TieRule.

Lemma round1_tie_even x :
  is_tie x = true → below_2_52_tenths x = true →
  F64.round1 x = exact_round1 HalfEven x.
Proof.
  destruct x as [| | |s m e]; try discriminate.
  unfold is_tie, below_2_52_tenths. intros Ht Hb.
  apply andb_true_iff in Ht as [He Ht].
  apply Z.ltb_lt in He. apply Z.eqb_eq in Ht.
  replace (0 <=? e) with false in Hb by (symmetry; apply Z.leb_gt; lia).
  apply Z.ltb_lt in Hb.
  set (d := 2 ^ (- e)) in *.
  assert (0 < d) as Hd by (apply Z.pow_pos_nonneg; lia).
  set (q := 10 * Z.pos m / d).
  set (r := (10 * Z.pos m) mod d) in *.
  assert (10 * Z.pos m = d * q + r) as Hdiv by (apply Z.div_mod; lia).
  assert (0 ≤ q) as Hq by (apply Z.div_pos; lia).
  assert (q < 2 ^ 52) as Hq52.
  { apply Z.div_lt_upper_bound; lia. }
  assert (20 * Z.pos m = (2 * q + 1) * d) as Htie by lia.
  rewrite (round1_tie s m e q Hq ltac:(lia) Htie).
  unfold exact_round1, exact_tenths.
  replace (0 <=? e) with false by (symmetry; apply Z.leb_gt; lia).
  fold d q r. unfold nearest.
  replace (2 * r ?= d) with Eq by (symmetry; apply Z.compare_eq_iff; lia).
  set (n := if Z.even q then q else q + 1).
  assert (0 ≤ n ≤ q + 1) as Hn by (unfold n; destruct (Z.even q); lia).
  destruct n as [|p|p] eqn:En; try lia.
  - by destruct s.
  - rewrite (div_ten_tenths s (Z.pos p)) by lia. done.
Qed.

Lemma float_field_value df out i src dst l x :
  wf_frame df → transform df = inr out →
  (src, dst) ∈ numeric_fields → column df src = Some (Float64 l) →
  l !! i = Some x → F64.is_nan x = false →
  ∃ r, out !! i = Some r ∧ alist_get dst r = Some (PyFloat (F64.round1 x)).
Proof.
  intros Hwf E Hf Hs Hx Hnan.
  apply numeric_field_relevant in Hf as [Hin Hn]. simpl in Hn.
  destruct (transform_field df out i src dst (Float64 l) (PyFloat x) Hwf E Hin Hs)
    as (r & Hr & Hg); [simpl; by rewrite Hx|].
  exists r. split; [done|]. rewrite Hg, Hn.
  unfold clean_cell, fill_cell. simpl. by rewrite Hnan.
Qed.

End TieRule.

(** The claim of C9 fails for a large value: 1801439850948199.75 is a tie
    (ten times it is an integer and a half), and the record holds
    1801439850948199.5, the float next below the source value, which is
    itself the float nearest to both neighbouring tenths. *)
Lemma large_tie_counterexample :
  let x := S754_finite false 7205759403792799 (-2) in
  let df := Frame 1 [ ("food_name", Object [PyStr "Total"]);
                      ("energy_kcal", Float64 [x]);
                      ("protein_g", Float64 [F64.zero]);
                      ("fat_g", Float64 [F64.zero]);
                      ("carb_g", Float64 [F64.zero]);
                      ("sodium_mg", Float64 [F64.zero]);
                      ("potassium_mg", Float64 [F64.zero]);
                      ("phosphorus_mg", Float64 [F64.zero]) ] in
  ∃ r y, transform df = inr [r]
    ∧ is_tie x = true
    ∧ alist_get "calories" r = Some (PyFloat y)
    ∧ y = S754_finite false 7205759403792798 (-2)
    ∧ exact_round1 HalfEven x = x
    ∧ y ≠ exact_round1 HalfEven x.
Proof.
  eexists _, _. vm_compute. repeat split; try reflexivity. discriminate.
Qed.

(** C9, amended: a tie of magnitude below [2^52 / 10] in a float column is
    rounded to the even neighbouring tenth. *)
Theorem ties_round_half_even (df : DataFrame) (out : list record) (i : nat)
    (src dst : string) (l : list float) (x : float) :
  wf_frame df → transform df = inr out →
  (src, dst) ∈ numeric_fields → column df src = Some (Float64 l) →
  l !! i = Some x → is_tie x = true → below_2_52_tenths x = true →
  ∃ r, out !! i = Some r
       ∧ alist_get dst r = Some (PyFloat (exact_round1 HalfEven x)).
Proof.
  intros Hwf E Hf Hs Hx Ht Hb.
  rewrite <- (round1_tie_even x Ht Hb).
  apply (float_field_value df out i src dst l x); try done.
  by destruct x.
Qed.

Lemma ties_round_half_even_witness :
  ∃ r, to_dict (cleaned Examples.quarters) !! 0%nat = Some r
       ∧ alist_get "calories" r
         = Some (PyFloat (exact_round1 HalfEven (Examples.dec 25 (-2)))).
Proof.
  apply (ties_round_half_even Examples.quarters _ 0 "energy_kcal" "calories"
           [Examples.dec 25 (-2)]).
  - split; [repeat constructor | apply (bool_decide_unpack _); vm_compute; reflexivity].
  - vm_compute. reflexivity.
  - apply (bool_decide_unpack _). vm_compute. reflexivity.
  - reflexivity.
  - reflexivity.
  - vm_compute. reflexivity.
  - vm_compute. reflexivity.
Defined.

(** ** Strings *)

Lemma str_append_nil_r (s : string) : s ++ "" = s.
Proof. induction s as [|c s IH]; simpl; [done|by rewrite IH]. Qed.

Lemma str_append_assoc (a b c : string) : (a ++ b) ++ c = a ++ b ++ c.
Proof. induction a as [|x a IH]; simpl; [done|by rewrite IH]. Qed.

Lemma str_length_append (a b : string) :
  String.length (a ++ b) = (String.length a + String.length b)%nat.
Proof. induction a as [|x a IH]; simpl; [done|by rewrite IH]. Qed.

Lemma str_take_drop n (s : string) : Repr.take n s ++ Repr.drop n s = s.
Proof.
  revert s. induction n as [|n IH]; intros [|c s]; simpl; try done.
  by rewrite IH.
Qed.

Lemma str_length_take n (s : string) :
  (n ≤ String.length s)%nat → String.length (Repr.take n s) = n.
Proof.
  revert s. induction n as [|n IH]; intros [|c s]; simpl; try done; try lia.
  intros H. rewrite IH; lia.
Qed.

Lemma str_length_zeros n : String.length (Repr.zeros n) = n.
Proof. induction n as [|n IH]; simpl; [done|by rewrite IH]. Qed.

(** ** Digits *)

Lemma digit_char_code n :
  0 ≤ n ≤ 9 →
  Digits.is_digit (Digits.digit_char n) = true
  ∧ Z.of_nat (nat_of_ascii (Digits.digit_char n)) - 48 = n.
Proof.
  intros H.
  assert (n = 0 ∨ n = 1 ∨ n = 2 ∨ n = 3 ∨ n = 4 ∨ n = 5 ∨ n = 6 ∨ n = 7
          ∨ n = 8 ∨ n = 9) as Hn by lia.
  repeat (destruct Hn as [->|Hn]; [by vm_compute|]). subst. by vm_compute.
Qed.

Lemma all_digits_app a b : all_digits (a ++ b) = all_digits a && all_digits b.
Proof.
  induction a as [|c a IH]; simpl; [done|]. rewrite IH. by rewrite andb_assoc.
Qed.

Lemma all_digits_zeros n : all_digits (Repr.zeros n) = true.
Proof. induction n as [|n IH]; simpl; [done|exact IH]. Qed.

Lemma all_digits_take n s : all_digits s = true → all_digits (Repr.take n s) = true.
Proof.
  revert s. induction n as [|n IH]; intros [|c s]; simpl; try done.
  intros H. apply andb_true_iff in H as [-> H]. simpl. by apply IH.
Qed.

Lemma all_digits_drop n s : all_digits s = true → all_digits (Repr.drop n s) = true.
Proof.
  revert s. induction n as [|n IH]; intros [|c s]; simpl; try done.
  intros H. apply andb_true_iff in H as [_ H]. by apply IH.
Qed.

Lemma value_from_app a b x :
  Digits.value_from (a ++ b) x = Digits.value_from b (Digits.value_from a x).
Proof.
  revert x. induction a as [|c a IH]; intros x; simpl; [done|]. by rewrite IH.
Qed.

Lemma value_from_shift s x :
  Digits.value_from s x = x * 10 ^ Z.of_nat (String.length s) + Digits.value_from s 0.
Proof.
  revert x. induction s as [|c s IH]; intros x.
  - simpl. lia.
  - cbn [Digits.value_from String.length].
    rewrite (IH (10 * x + _)), (IH (10 * 0 + _)).
    rewrite Nat2Z.inj_succ, Z.pow_succ_r by lia. ring.
Qed.

Lemma value_app a b :
  Digits.value (a ++ b)
  = Digits.value a * 10 ^ Z.of_nat (String.length b) + Digits.value b.
Proof.
  unfold Digits.value. rewrite value_from_app. apply value_from_shift.
Qed.

Lemma value_zeros n : Digits.value (Repr.zeros n) = 0.
Proof.
  unfold Digits.value. induction n as [|n IH]; simpl; [done|exact IH].
Qed.

Lemma digits_from_acc fuel n acc :
  Digits.digits_from fuel n acc = Digits.digits_from fuel n "" ++ acc.
Proof.
  revert n acc. induction fuel as [|fuel IH]; intros n acc; simpl; [done|].
  destruct (n <? 10); [done|].
  rewrite (IH _ (String _ acc)), (IH _ (String _ "")).
  by rewrite str_append_assoc.
Qed.

(** With enough fuel, the digits of [n]: all digits, read back as [n],
    and starting with a digit other than 0 when [n] is not 0. *)
Lemma digits_from_spec fuel n :
  0 ≤ n < 2 ^ Z.of_nat fuel → (0 < fuel)%nat →
  let ds := Digits.digits_from fuel n "" in
  all_digits ds = true ∧ Digits.value ds = n
  ∧ ∃ c t, ds = String c t ∧ Digits.is_digit c = true
           ∧ (0 < n → Decoder.is_char 48 c = false).
Proof.
  revert n. induction fuel as [|fuel IH]; intros n Hn Hf; [lia|].
  cbn [Digits.digits_from].
  destruct (digit_char_code (n mod 10)) as [Hd Hv].
  { pose proof (Z.mod_pos_bound n 10). lia. }
  destruct (Z.ltb_spec n 10) as [Hlt|Hge].
  - rewrite Z.mod_small in * by lia.
    split; [cbn [all_digits]; by rewrite Hd|]. split.
    { unfold Digits.value. cbn [Digits.value_from]. lia. }
    eexists _, _. split; [done|]. split; [done|].
    intros Hpos.
    assert (n = 1 ∨ n = 2 ∨ n = 3 ∨ n = 4 ∨ n = 5 ∨ n = 6 ∨ n = 7 ∨ n = 8 ∨ n = 9)
      as Hc by lia.
    repeat (destruct Hc as [->|Hc]; [by vm_compute|]). subst. by vm_compute.
  - rewrite digits_from_acc.
    assert (0 ≤ n / 10 < 2 ^ Z.of_nat fuel) as Hq.
    { split; [apply Z.div_pos; lia|].
      apply Z.div_lt_upper_bound; [lia|].
      rewrite Nat2Z.inj_succ, Z.pow_succ_r in Hn by lia. lia. }
    assert (1 ≤ n / 10) as Hq1 by (apply Z.div_le_lower_bound; lia).
    assert (0 < fuel)%nat as Hf'.
    { destruct fuel; [|lia]. change (2 ^ Z.of_nat 0) with 1 in Hq. lia. }
    destruct (IH (n / 10) Hq Hf') as (Ha & Hv' & c & t & Heq & Hc & Hnz).
    split.
    { rewrite all_digits_app, Ha. cbn [all_digits]. by rewrite Hd. }
    split.
    { rewrite value_app, Hv'. unfold Digits.value.
      cbn [Digits.value_from String.length].
      pose proof (Z.div_mod n 10). change (10 ^ Z.of_nat 1) with 10. lia. }
    exists c, (t ++ String (Digits.digit_char (n mod 10)) "").
    split; [by rewrite Heq|]. split; [done|].
    intros _. apply Hnz. lia.
Qed.

Lemma digits_spec n :
  0 ≤ n →
  all_digits (Digits.digits n) = true ∧ Digits.value (Digits.digits n) = n
  ∧ ∃ c t, Digits.digits n = String c t ∧ Digits.is_digit c = true
           ∧ (0 < n → Decoder.is_char 48 c = false).
Proof.
  intros Hn. apply digits_from_spec; [|lia].
  split; [done|].
  destruct (Z.eq_dec n 0) as [->|]; [done|].
  rewrite Nat2Z.inj_succ, Z2Nat.id by apply Z.log2_nonneg.
  apply Z.log2_spec. lia.
Qed.
(** ** Escapes *)

Lemma scanstring_escape_char c t :
  Decoder.scanstring (Json.escape_char c ++ t)
  = match Decoder.scanstring t with
    | Some (u, r) => Some (String c u, r)
    | None => None
    end.
Proof.
  destruct c as [[] [] [] [] [] [] [] []]; reflexivity.
Qed.

Lemma scanstring_escape s rest :
  Decoder.scanstring (Json.escape s ++ dquote ++ rest) = Some (s, rest).
Proof.
  induction s as [|c s IH]; [done|].
  cbn [Json.escape]. rewrite str_append_assoc, scanstring_escape_char. by rewrite IH.
Qed.

Lemma scan_once_string fuel s rest :
  Decoder.scan_once (S fuel) (Json.encode_basestring_ascii s ++ rest)
  = Some (Decoder.Scalar (PyStr s), rest).
Proof.
  unfold Json.encode_basestring_ascii. rewrite !str_append_assoc.
  unfold dquote at 1. cbn [String.append Decoder.scan_once].
  change (Decoder.is_char 34 (ascii_of_nat 34)) with true. cbn iota.
  by rewrite scanstring_escape.
Qed.

(** ** Runs of digits *)

Lemma span_digits_app ds rest :
  all_digits ds = true →
  match rest with String c _ => Digits.is_digit c = false | EmptyString => True end →
  Decoder.span_digits (ds ++ rest) = (ds, rest).
Proof.
  intros Hd Hr. induction ds as [|c ds IH].
  - destruct rest as [|c r]; [done|]. simpl. by rewrite Hr.
  - simpl in Hd. apply andb_true_iff in Hd as [Hc Hd].
    simpl. rewrite Hc, (IH Hd). done.
Qed.

Lemma ends_number_not_digit rest :
  ends_number rest = true →
  match rest with String c _ => Digits.is_digit c = false | EmptyString => True end.
Proof.
  destruct rest as [|c r]; [done|]. simpl. intros H.
  apply negb_true_iff in H. apply orb_false_iff in H as [H _].
  apply orb_false_iff in H as [H _]. by apply orb_false_iff in H as [H _].
Qed.

Lemma scan_frac_none rest :
  ends_number rest = true → Decoder.scan_frac rest = ("", rest).
Proof.
  destruct rest as [|c r]; [done|]. simpl. intros H.
  apply negb_true_iff in H. apply orb_false_iff in H as [H _].
  apply orb_false_iff in H as [H _]. apply orb_false_iff in H as [_ H].
  by rewrite H.
Qed.

Lemma scan_exp_none rest :
  ends_number rest = true → Decoder.scan_exp rest = (None, rest).
Proof.
  destruct rest as [|c r]; [done|]. simpl. intros H.
  apply negb_true_iff in H. apply orb_false_iff in H as [H H69].
  apply orb_false_iff in H as [H H101]. by rewrite H101, H69.
Qed.

(** ** Integers *)

Lemma not_minus_digit c : Digits.is_digit c = true → Decoder.is_char 45 c = false.
Proof. destruct c as [[] [] [] [] [] [] [] []]; by vm_compute. Qed.

Lemma scan_int_part_digits n rest :
  0 ≤ n →
  match rest with String c _ => Digits.is_digit c = false | EmptyString => True end →
  Decoder.scan_int_part (Digits.digits n ++ rest) = Some (Digits.digits n, rest).
Proof.
  intros Hn Hr.
  destruct (digits_spec n Hn) as (Ha & Hv & c & t & Heq & Hc & Hnz).
  unfold Decoder.scan_int_part.
  destruct (Digits.digits n ++ rest) as [|c' t'] eqn:E; rewrite Heq in E; [done|].
  injection E as <- <-. rewrite Hc.
  destruct (Z.eq_dec n 0) as [->|Hn0].
  - vm_compute in Heq. by injection Heq as <- <-.
  - rewrite Hnz by lia.
    change (String c (t ++ rest)) with (String c t ++ rest). rewrite <- Heq.
    by rewrite (span_digits_app _ _ Ha Hr).
Qed.

Lemma scan_number_unsigned s :
  match s with String c _ => Digits.is_digit c = true | EmptyString => False end →
  Decoder.scan_number s
  = match Decoder.scan_int_part s with
    | Some (int_part, rest) =>
        let '(frac, rest1) := Decoder.scan_frac rest in
        let '(ex, rest2) := Decoder.scan_exp rest1 in
        Some (Decoder.number_of false int_part frac ex, rest2)
    | None => None
    end.
Proof.
  destruct s as [|c t]; [done|]. intros Hc.
  unfold Decoder.scan_number. by rewrite (not_minus_digit c Hc).
Qed.

Lemma scan_number_minus s :
  Decoder.scan_number ("-" ++ s)
  = match Decoder.scan_int_part s with
    | Some (int_part, rest) =>
        let '(frac, rest1) := Decoder.scan_frac rest in
        let '(ex, rest2) := Decoder.scan_exp rest1 in
        Some (Decoder.number_of true int_part frac ex, rest2)
    | None => None
    end.
Proof. reflexivity. Qed.

Lemma digits_head n rest :
  0 ≤ n →
  match Digits.digits n ++ rest with
  | String c _ => Digits.is_digit c = true
  | EmptyString => False
  end.
Proof.
  intros Hn. destruct (digits_spec n Hn) as (_ & _ & c & t & -> & Hc & _). done.
Qed.

Lemma scan_number_nat n rest :
  0 ≤ n → ends_number rest = true →
  Decoder.scan_number (Digits.digits n ++ rest) = Some (PyInt n, rest).
Proof.
  intros Hn Hr.
  rewrite scan_number_unsigned by (by apply digits_head).
  rewrite scan_int_part_digits by (try done; by apply ends_number_not_digit).
  rewrite scan_frac_none, scan_exp_none by done.
  unfold Decoder.number_of. by rewrite (proj1 (proj2 (digits_spec n Hn))).
Qed.

Lemma scan_number_int n rest :
  ends_number rest = true →
  Decoder.scan_number (Json.intstr n ++ rest) = Some (PyInt n, rest).
Proof.
  intros Hr. unfold Json.intstr. destruct (Z.ltb_spec n 0) as [Hneg|Hpos].
  - rewrite str_append_assoc, scan_number_minus.
    rewrite scan_int_part_digits by (try lia; by apply ends_number_not_digit).
    rewrite scan_frac_none, scan_exp_none by done.
    unfold Decoder.number_of. rewrite (proj1 (proj2 (digits_spec (- n) ltac:(lia)))).
    do 3 f_equal. lia.
  - by apply scan_number_nat.
Qed.
(** ** Decimal literals *)

Lemma scan_int_part_ok ip rest :
  valid_int ip → not_digit_start rest →
  Decoder.scan_int_part (ip ++ rest) = Some (ip, rest).
Proof.
  intros [Ha Hz] Hr. destruct ip as [|c t]; [done|].
  pose proof Ha as Ha'. cbn [all_digits] in Ha'.
  apply andb_true_iff in Ha' as [Hc Ht].
  cbn [String.append Decoder.scan_int_part]. rewrite Hc.
  destruct (Decoder.is_char 48 c) eqn:H0.
  - rewrite (Hz eq_refl). cbn [String.append].
    assert (c = "0"%char) as ->; [|done].
    destruct c as [[] [] [] [] [] [] [] []]; by vm_compute in H0.
  - change (String c (t ++ rest)) with (String c t ++ rest).
    by rewrite (span_digits_app _ _ Ha Hr).
Qed.

Lemma valid_int_digits n : 0 ≤ n → valid_int (Digits.digits n).
Proof.
  intros Hn. destruct (digits_spec n Hn) as (Ha & Hv & c & t & Heq & Hc & Hnz).
  split; [done|]. rewrite Heq. intros H0.
  destruct (Z.eq_dec n 0) as [->|Hn0].
  - vm_compute in Heq. by injection Heq as <- <-.
  - rewrite Hnz in H0; [done|lia].
Qed.

Lemma not_digit_start_dot s : not_digit_start ("." ++ s).
Proof. done. Qed.

Lemma not_digit_start_e s : not_digit_start ("e" ++ s).
Proof. done. Qed.

Lemma scan_frac_dot fs rest :
  all_digits fs = true → fs ≠ "" → not_digit_start rest →
  Decoder.scan_frac ("." ++ fs ++ rest) = (fs, rest).
Proof.
  intros Ha Hne Hr. cbn [String.append Decoder.scan_frac].
  change (Decoder.is_char 46 ".") with true. cbn iota.
  rewrite (span_digits_app _ _ Ha Hr). by destruct fs.
Qed.

Lemma scan_frac_e s : Decoder.scan_frac ("e" ++ s) = ("", "e" ++ s).
Proof. done. Qed.

Lemma scan_exp_e (neg : bool) exs rest :
  all_digits exs = true → exs ≠ "" → not_digit_start rest →
  Decoder.scan_exp ("e" ++ (if neg then "-" else "+") ++ exs ++ rest)
  = (Some (if neg then - Digits.value exs else Digits.value exs), rest).
Proof.
  intros Ha Hne Hr. cbn [String.append Decoder.scan_exp].
  change (Decoder.is_char 101 "e") with true. cbn [orb].
  destruct neg; cbn [String.append];
    [change (Decoder.is_char 43 "-") with false;
     change (Decoder.is_char 45 "-") with true
    |change (Decoder.is_char 43 "+") with true]; cbn iota;
    rewrite (span_digits_app _ _ Ha Hr); by destruct exs.
Qed.

(** A literal in fixed notation. *)
Lemma scan_fixed neg ip fs rest :
  valid_int ip → all_digits fs = true → fs ≠ "" → ends_number rest = true →
  match Decoder.scan_int_part (ip ++ "." ++ fs ++ rest) with
  | Some (int_part, r) =>
      let '(frac, r1) := Decoder.scan_frac r in
      let '(ex, r2) := Decoder.scan_exp r1 in
      Some (Decoder.number_of neg int_part frac ex, r2)
  | None => None
  end
  = Some (PyFloat (Decoder.float_of_literal neg (Digits.value (ip ++ fs))
                     (- Z.of_nat (String.length fs))), rest).
Proof.
  intros Hip Hfs Hne Hr.
  rewrite (scan_int_part_ok ip _ Hip (not_digit_start_dot _)).
  rewrite (scan_frac_dot fs rest Hfs Hne (ends_number_not_digit _ Hr)).
  rewrite (scan_exp_none rest Hr).
  unfold Decoder.number_of. destruct fs; [done|]. done.
Qed.

(** A literal in exponent notation. *)
Lemma scan_scientific neg ip fs (eneg : bool) exs rest :
  valid_int ip → all_digits fs = true → all_digits exs = true → exs ≠ "" →
  not_digit_start rest →
  match Decoder.scan_int_part
          (ip ++ (match fs with EmptyString => "" | _ => "." ++ fs end)
              ++ "e" ++ (if eneg then "-" else "+") ++ exs ++ rest) with
  | Some (int_part, r) =>
      let '(frac, r1) := Decoder.scan_frac r in
      let '(ex, r2) := Decoder.scan_exp r1 in
      Some (Decoder.number_of neg int_part frac ex, r2)
  | None => None
  end
  = Some (PyFloat (Decoder.float_of_literal neg (Digits.value (ip ++ fs))
                     ((if eneg then - Digits.value exs else Digits.value exs)
                      - Z.of_nat (String.length fs))), rest).
Proof.
  intros Hip Hfs Hexs Hne Hr.
  destruct fs as [|f fs].
  - change ("" ++ "e" ++ ?x) with ("e" ++ x).
    rewrite (scan_int_part_ok ip _ Hip (not_digit_start_e _)).
    rewrite scan_frac_e, (scan_exp_e eneg exs rest Hexs Hne Hr).
    by unfold Decoder.number_of.
  - rewrite str_append_assoc.
    rewrite (scan_int_part_ok ip _ Hip (not_digit_start_dot _)).
    rewrite (scan_frac_dot (String f fs) _ Hfs ltac:(done) (not_digit_start_e _)).
    rewrite (scan_exp_e eneg exs rest Hexs Hne Hr).
    by unfold Decoder.number_of.
Qed.
(** ** Reading a decimal back *)

Lemma SFeqb_finite y m e :
  SFeqb y (S754_finite false m e) = true → y = S754_finite false m e.
Proof.
  unfold SFeqb, SFcompare.
  destruct y as [s|s| |s m' e']; try discriminate.
  - by destruct s.
  - destruct s; [discriminate|].
    destruct (Z.compare_spec e' e) as [->|?|?]; try discriminate.
    destruct (Pos.compare_cont Eq m' m) eqn:E; try discriminate.
    intros _. apply Pos.compare_eq in E. by subst.
Qed.

Lemma size_nat_bound p : Z.pos p < 2 ^ Z.of_nat (Pos.size_nat p).
Proof.
  induction p as [p IH|p IH|]; cbn [Pos.size_nat]; [| |done];
    rewrite Nat2Z.inj_succ, Z.pow_succ_r by lia; lia.
Qed.

Lemma strip_zeros_canonical fuel d k d0 k0 :
  0 < d < 2 ^ Z.of_nat fuel →
  Repr.strip_zeros fuel d k = (d0, k0) → d0 mod 10 ≠ 0.
Proof.
  revert d k. induction fuel as [|fuel IH]; intros d k Hd.
  - change (2 ^ Z.of_nat 0) with 1 in Hd. lia.
  - cbn [Repr.strip_zeros]. destruct (Z.eqb_spec (d mod 10) 0) as [Hz|Hz].
    + apply IH. pose proof (Z.div_mod d 10).
      rewrite Nat2Z.inj_succ, Z.pow_succ_r in Hd by lia.
      split; [apply Z.div_str_pos; lia|apply Z.div_lt_upper_bound; lia].
    + by intros [= <- <-].
Qed.

Lemma canonical_unique a b i j :
  0 ≤ i → 0 ≤ j → a mod 10 ≠ 0 → b mod 10 ≠ 0 →
  a * 10 ^ i = b * 10 ^ j → a = b ∧ i = j.
Proof.
  assert (∀ a b i j, 0 ≤ i ≤ j → a mod 10 ≠ 0 → a * 10 ^ i = b * 10 ^ j →
            a = b ∧ i = j) as Hwlog.
  { clear. intros a b i j Hij Ha H.
    replace j with (i + (j - i)) in H by lia.
    rewrite Z.pow_add_r, Z.mul_assoc in H by lia.
    replace (b * 10 ^ i * 10 ^ (j - i)) with (b * 10 ^ (j - i) * 10 ^ i) in H by ring.
    apply Z.mul_cancel_r in H; [|apply Z.pow_nonzero; lia].
    destruct (Z.eq_dec i j) as [->|Hne].
    - rewrite Z.sub_diag in H. simpl in H. lia.
    - destruct Ha. rewrite H.
      replace (j - i) with (Z.succ (j - i - 1)) by lia.
      rewrite Z.pow_succ_r by lia.
      rewrite Z.mul_assoc, (Z.mul_comm b 10), <- Z.mul_assoc, Z.mul_comm.
      apply Z.mod_mul. lia. }
  intros Hi Hj Ha Hb H. destruct (Z.le_ge_cases i j).
  - by apply Hwlog.
  - symmetry in H. destruct (Hwlog b a j i) as [-> ->]; done || lia.
Qed.

(** Trailing zeros of the digits may go to the exponent. *)
Lemma of_decimal_shift d k z :
  0 < d → 0 ≤ z →
  Repr.of_decimal (Z.to_pos (d * 10 ^ z)) (k - z) = Repr.of_decimal (Z.to_pos d) k.
Proof.
  intros Hd Hz. unfold Repr.of_decimal.
  assert (0 < d * 10 ^ z) as Hdz by (apply Z.mul_pos_pos; lia).
  rewrite !Z2Pos.id by lia.
  destruct (Repr.strip_zeros _ (d * 10 ^ z) (k - z)) as [a ka] eqn:Ea.
  destruct (Repr.strip_zeros _ d k) as [b kb] eqn:Eb.
  pose proof (strip_zeros_canonical _ _ _ _ _
                (conj Hdz (eq_rect _ (λ x, x < _) (size_nat_bound _) _
                             (Z2Pos.id _ Hdz))) Ea) as Ha.
  pose proof (strip_zeros_canonical _ _ _ _ _
                (conj Hd (eq_rect _ (λ x, x < _) (size_nat_bound _) _
                            (Z2Pos.id _ Hd))) Eb) as Hb.
  apply strip_zeros_value in Ea as (Ha0 & Hka & Hva); [|done].
  apply strip_zeros_value in Eb as (Hb0 & Hkb & Hvb); [|done].
  destruct (canonical_unique a b (ka - (k - z)) (kb - k + z)) as [-> Hk];
    try lia.
  { rewrite <- Hva, Hvb. rewrite Z.pow_add_r by lia. ring. }
  by replace ka with kb by lia.
Qed.

Lemma candidate_reads_back x m e p n d k :
  Repr.candidate x m e p n = Some (d, k) →
  ∃ d' k', Repr.reads_back x d' k' = true ∧ Repr.strip_zeros 17 d' k' = (d, k).
Proof.
  unfold Repr.candidate.
  set (k0 := p - n). set (sn := if 0 <=? k0 then _ else _).
  set (sd := if 0 <=? k0 then _ else _).
  destruct (Repr.reads_back x (sn / sd) k0) eqn:Elo;
    destruct (negb (sn mod sd =? 0) && Repr.reads_back x (sn / sd + 1) k0) eqn:Ehi;
    cbn [fmap option_fmap option_map].
  - apply andb_true_iff in Ehi as [_ Ehi].
    destruct (2 * (sn mod sd) ?= sd); [destruct (Z.even (sn / sd))| |];
      intros [= E]; eauto.
  - intros [= E]; eauto.
  - apply andb_true_iff in Ehi as [_ Ehi]. intros [= E]; eauto.
  - done.
Qed.

Lemma search_reads_back fuel x m e p n d k :
  Repr.search fuel x m e p n = Some (d, k) →
  ∃ d' k', Repr.reads_back x d' k' = true ∧ Repr.strip_zeros 17 d' k' = (d, k).
Proof.
  revert n. induction fuel as [|fuel IH]; intros n; [done|].
  cbn [Repr.search]. destruct (Repr.candidate x m e p n) as [[d1 k1]|] eqn:E.
  - intros [= -> ->]. by eapply candidate_reads_back.
  - apply IH.
Qed.

(** The digits found for a float read back as that float. *)
Lemma shortest_reads_back m e d k :
  Repr.shortest m e = Some (d, k) →
  0 < d ∧ Repr.of_decimal (Z.to_pos d) k = S754_finite false m e.
Proof.
  intros H. apply search_reads_back in H as (d' & k' & Hr & Hs).
  unfold Repr.reads_back in Hr. destruct d' as [|p'|p']; try done.
  apply SFeqb_finite in Hr.
  apply strip_zeros_value in Hs as (Hd & Hk & Hv); [|done].
  split; [done|]. rewrite <- Hr.
  rewrite <- (of_decimal_shift d k (k - k')) by lia.
  rewrite <- Hv. f_equal. lia.
Qed.

Lemma float_of_literal_shift neg d k z :
  0 < d → 0 ≤ z →
  Decoder.float_of_literal neg (d * 10 ^ z) (k - z)
  = (if neg then SFopp else id) (Repr.of_decimal (Z.to_pos d) k).
Proof.
  intros Hd Hz. unfold Decoder.float_of_literal.
  assert (0 < d * 10 ^ z) as Hdz by (apply Z.mul_pos_pos; lia).
  destruct (d * 10 ^ z) as [|p|p] eqn:E; try lia.
  rewrite <- (of_decimal_shift d k z Hd Hz), E. done.
Qed.

Lemma str_length_drop n (s : string) :
  String.length (Repr.drop n s) = (String.length s - n)%nat.
Proof.
  revert s. induction n as [|n IH]; intros [|c s]; simpl; try done. 
Qed.

Lemma value_cons_zero s : Digits.value (String "0" s) = Digits.value s.
Proof. done. Qed.

(** The text of [layout] is read back as the decimal [d * 10^k]. *)
Lemma scan_layout neg d k rest :
  0 < d → ends_number rest = true →
  let ds := Digits.digits d in
  match Decoder.scan_int_part
          (Repr.layout ds (k + Z.of_nat (String.length ds)) ++ rest) with
  | Some (int_part, r) =>
      let '(frac, r1) := Decoder.scan_frac r in
      let '(ex, r2) := Decoder.scan_exp r1 in
      Some (Decoder.number_of neg int_part frac ex, r2)
  | None => None
  end
  = Some (PyFloat ((if neg then SFopp else id) (Repr.of_decimal (Z.to_pos d) k)),
          rest).
Proof.
  intros Hd Hr ds.
  destruct (digits_spec d ltac:(lia)) as (Ha & Hv & c & t & Heq & Hc & Hnz).
  specialize (Hnz Hd). fold ds in Ha, Hv, Heq.
  pose proof (ends_number_not_digit _ Hr) as Hnd.
  set (n := Z.of_nat (String.length ds)).
  set (p := k + n).
  assert (all_digits t = true) as Ht.
  { rewrite Heq in Ha. cbn [all_digits] in Ha. by apply andb_true_iff in Ha as [_ ?]. }
  assert (n = 1 + Z.of_nat (String.length t)) as Hn.
  { unfold n. rewrite Heq. cbn [String.length]. lia. }
  unfold Repr.layout. fold n.
  destruct ((p <=? -4) || (16 <? p)) eqn:Hexp.
  - (* exponent notation *)
    set (ex := p - 1).
    set (exs := (if Z.abs ex <? 10 then "0" else "") ++ Repr.digits (Z.abs ex)).
    destruct (digits_spec (Z.abs ex) ltac:(lia)) as (Hae & Hve & ce & te & Heqe & _).
    assert (all_digits exs = true) as Hexs.
    { unfold exs, Repr.digits. rewrite all_digits_app, Hae.
      by destruct (Z.abs ex <? 10). }
    assert (exs ≠ "") as Hexs_ne.
    { unfold exs, Repr.digits. rewrite Heqe. by destruct (Z.abs ex <? 10). }
    assert (Digits.value exs = Z.abs ex) as Hexs_v.
    { unfold exs, Repr.digits. destruct (Z.abs ex <? 10); [|done].
      cbn [String.append]. by rewrite value_cons_zero. }
    replace (Repr.take 1 ds) with (String c "") by (by rewrite Heq).
    replace (Repr.drop 1 ds) with t by (by rewrite Heq).
    replace (if 1 <? n then "." ++ t else "")
      with (match t with EmptyString => "" | _ => "." ++ t end).
    2:{ destruct t; [by replace (1 <? n) with false by (symmetry; apply Z.ltb_ge; simpl in Hn; lia)|].
        replace (1 <? n) with true; [done|]. symmetry. apply Z.ltb_lt.
        cbn [String.length] in Hn. lia. }
    match goal with
    | |- context [Decoder.scan_int_part ?text] =>
        replace text
          with (String c "" ++ (match t with EmptyString => "" | _ => "." ++ t end)
                  ++ "e" ++ (if ex <? 0 then "-" else "+") ++ exs ++ rest)
          by (unfold exs; by rewrite !str_append_assoc)
    end.
    rewrite (scan_scientific neg (String c "") t (ex <? 0) exs rest); try done.
    2:{ split; [cbn [all_digits]; by rewrite Hc|]. by rewrite Hnz. }
    do 2 f_equal. change (String c "" ++ t) with (String c t). rewrite <- Heq, Hv.
    rewrite Hexs_v.
    replace (if ex <? 0 then - Z.abs ex else Z.abs ex) with ex
      by (destruct (Z.ltb_spec ex 0); lia).
    replace (ex - Z.of_nat (String.length t)) with (k - 0) by (unfold ex, p; lia).
    rewrite <- (float_of_literal_shift neg d k 0) by lia.
    by rewrite Z.pow_0_r, Z.mul_1_r.
  - apply orb_false_iff in Hexp as [Hp1 Hp2].
    apply Z.leb_gt in Hp1. apply Z.ltb_ge in Hp2.
    destruct (Z.leb_spec p 0) as [Hp0|Hp0].
    + (* 0.000ddd *)
      match goal with
      | |- context [Decoder.scan_int_part ?text] =>
          replace text
            with ("0" ++ "." ++ (Repr.zeros (Z.to_nat (- p)) ++ ds) ++ rest)
            by (by rewrite !str_append_assoc)
      end.
      rewrite (scan_fixed neg "0" (Repr.zeros (Z.to_nat (- p)) ++ ds) rest); try done.
      2:{ by rewrite all_digits_app, all_digits_zeros, Ha. }
      2:{ rewrite Heq. by destruct (Repr.zeros _). }
      do 2 f_equal. cbn [String.append]. rewrite value_cons_zero.
      rewrite value_app, value_zeros, Hv, str_length_append, str_length_zeros.
      replace (- Z.of_nat (Z.to_nat (- p) + String.length ds)) with (k - 0)
        by (unfold p, n in *; lia).
      rewrite <- (float_of_literal_shift neg d k 0) by lia.
      rewrite Z.pow_0_r, Z.mul_1_r. f_equal.
    + destruct (Z.leb_spec n p) as [Hnp|Hnp].
      * (* ddd000.0 *)
        match goal with
        | |- context [Decoder.scan_int_part ?text] =>
            replace text
              with ((ds ++ Repr.zeros (Z.to_nat (p - n))) ++ "." ++ "0" ++ rest)
              by (by rewrite !str_append_assoc)
        end.
        rewrite (scan_fixed neg (ds ++ Repr.zeros (Z.to_nat (p - n))) "0" rest);
          try done.
        2:{ split; [by rewrite all_digits_app, all_digits_zeros, Ha|].
            rewrite Heq. cbn [String.append]. by rewrite Hnz. }
        f_equal. rewrite !value_app, value_zeros, Hv, str_length_zeros.
        change (Digits.value "0") with 0. cbn [String.length].
        rewrite Z2Nat.id by lia. rewrite !Z.add_0_r.
        change (10 ^ Z.of_nat 1) with (10 ^ 1).
        rewrite <- Z.mul_assoc, <- Z.pow_add_r by lia.
        replace (- Z.of_nat 1) with (k - (p - n + 1)) by (unfold p; lia).
        by rewrite float_of_literal_shift by lia.
      * (* dd.ddd *)
        match goal with
        | |- context [Decoder.scan_int_part ?text] =>
            replace text
              with (Repr.take (Z.to_nat p) ds ++ "." ++ Repr.drop (Z.to_nat p) ds
                      ++ rest)
              by (by rewrite !str_append_assoc)
        end.
        rewrite (scan_fixed neg (Repr.take (Z.to_nat p) ds)
                   (Repr.drop (Z.to_nat p) ds) rest); try done.
        2:{ split; [by apply all_digits_take|].
            rewrite Heq. destruct (Z.to_nat p) as [|p'] eqn:Ep; [lia|].
            cbn [Repr.take]. by rewrite Hnz. }
        2:{ by apply all_digits_drop. }
        2:{ intros E. apply (f_equal String.length) in E.
            rewrite str_length_drop in E. simpl in E. unfold n in *. lia. }
        do 2 f_equal. rewrite str_take_drop, Hv, str_length_drop.
        replace (- Z.of_nat (String.length ds - Z.to_nat p)) with (k - 0)
          by (unfold p, n in *; lia).
        rewrite <- (float_of_literal_shift neg d k 0) by lia.
        by rewrite Z.pow_0_r, Z.mul_1_r.
Qed.

(** ** Scalars *)

Lemma after_value_ends_number rest : after_value rest = true → ends_number rest = true.
Proof.
  destruct rest as [|c r]; [done|]. unfold after_value, ends_number.
  destruct c as [[] [] [] [] [] [] [] []]; by vm_compute.
Qed.

Lemma scan_int_part_head s ip r :
  Decoder.scan_int_part s = Some (ip, r) →
  match s with String c _ => Digits.is_digit c = true | EmptyString => False end.
Proof.
  destruct s as [|c t]; [done|]. cbn [Decoder.scan_int_part].
  by destruct (Digits.is_digit c).
Qed.

(** The text of a float other than NaN and the infinities is read back. *)
Lemma scan_number_repr x rest :
  printable (PyFloat x) = true → F64.is_finite x = true →
  ends_number rest = true →
  Decoder.scan_number (Repr.repr x ++ rest) = Some (PyFloat x, rest).
Proof.
  intros Hp Hf Hr. destruct x as [s| | |s m e]; try discriminate.
  - (* zeros *)
    pose proof (scan_fixed s "0" "0" rest) as H.
    destruct s.
    + change (Repr.repr (S754_zero true) ++ rest) with ("-" ++ "0" ++ "." ++ "0" ++ rest).
      rewrite scan_number_minus. rewrite H; try done.
    + change (Repr.repr (S754_zero false) ++ rest) with ("0" ++ "." ++ "0" ++ rest).
      rewrite scan_number_unsigned by done. rewrite H; try done.
  - (* finite *)
    cbn [printable] in Hp. cbn [Repr.repr].
    destruct (Repr.shortest m e) as [[d k]|] eqn:Es; [|discriminate].
    apply shortest_reads_back in Es as [Hd Hback].
    pose proof (scan_layout s d k rest Hd Hr) as H. cbn zeta in H.
    unfold Repr.digits.
    destruct s.
    + rewrite str_append_assoc, scan_number_minus, H.
      by rewrite Hback.
    + change ("" ++ ?x) with x.
      rewrite scan_number_unsigned, H; [by rewrite Hback|].
      destruct (Decoder.scan_int_part _) as [[ip r]|] eqn:E; [|discriminate].
      by eapply scan_int_part_head.
Qed.

Lemma scan_once_number fuel s v r :
  match s with
  | String c _ => Digits.is_digit c || Decoder.is_char 45 c = true
  | EmptyString => False
  end →
  Decoder.scan_number s = Some (v, r) →
  Decoder.scan_once (S fuel) s = Some (Decoder.Scalar v, r).
Proof.
  destruct s as [|c t]; [done|]. intros Hc Hn.
  assert (Decoder.is_char 34 c = false ∧ Decoder.is_char 123 c = false
          ∧ Decoder.is_char 91 c = false
          ∧ Decoder.scan_word (String c t) = None) as (H1 & H2 & H3 & H4).
  { clear Hn. destruct c as [[] [] [] [] [] [] [] []];
      try (by vm_compute in Hc); by repeat split. }
  cbn [Decoder.scan_once]. by rewrite H1, H2, H3, H4, Hn.
Qed.

Lemma scan_number_head s v r :
  Decoder.scan_number s = Some (v, r) →
  match s with
  | String c _ => Digits.is_digit c || Decoder.is_char 45 c = true
  | EmptyString => False
  end.
Proof.
  destruct s as [|c t]; [done|]. unfold Decoder.scan_number.
  destruct (Decoder.is_char 45 c) eqn:Hm; [by rewrite orb_true_r|].
  destruct (Decoder.scan_int_part (String c t)) as [[ip r']|] eqn:E; [|done].
  apply scan_int_part_head in E. by rewrite E.
Qed.

(** A value of a record is read back by [scan_once]. *)
Lemma scan_once_value fuel v rest :
  (Json.iterencode_value v).2 = None → printable v = true →
  after_value rest = true →
  Decoder.scan_once (S fuel) ((Json.iterencode_value v).1 ++ rest)
  = Some (Decoder.Scalar v, rest).
Proof.
  intros Hok Hp Hr. apply after_value_ends_number in Hr.
  destruct v as [|[]|n|x|s|t]; cbn [Json.iterencode_value Json.yield fst].
  - reflexivity.
  - reflexivity.
  - reflexivity.
  - pose proof (scan_number_int n rest Hr) as H.
    by apply scan_once_number; [eapply scan_number_head|].
  - destruct x as [s| [] | |s m e].
    + pose proof (scan_number_repr (S754_zero s) rest Hp eq_refl Hr) as H.
      by apply scan_once_number; [eapply scan_number_head|].
    + reflexivity.
    + reflexivity.
    + reflexivity.
    + pose proof (scan_number_repr (S754_finite s m e) rest Hp eq_refl Hr) as H.
      by apply scan_once_number; [eapply scan_number_head|].
  - apply scan_once_string.
  - discriminate.
Qed.

(** ** White space *)

Lemma skip_ws_newline s : Decoder.skip_ws (Json.newline ++ s) = Decoder.skip_ws s.
Proof. reflexivity. Qed.

Lemma skip_ws_indent level s :
  Decoder.skip_ws (Json.indent level ++ s) = Decoder.skip_ws s.
Proof.
  induction level as [|level IH]; [done|].
  cbn [Json.indent]. rewrite str_append_assoc. exact IH.
Qed.

Lemma skip_ws_space s : Decoder.skip_ws (" " ++ s) = Decoder.skip_ws s.
Proof. reflexivity. Qed.

(** A text that [scan_once] accepts does not start with white space. *)
Lemma scan_once_skip_ws fuel s r :
  Decoder.scan_once fuel s = Some r → Decoder.skip_ws s = s.
Proof.
  destruct fuel as [|fuel]; [done|]. destruct s as [|c t]; [done|].
  destruct (Decoder.is_ws c) eqn:Hws; [|by cbn [Decoder.skip_ws]; rewrite Hws].
  destruct c as [[] [] [] [] [] [] [] []]; try (by vm_compute in Hws);
    cbn; discriminate.
Qed.

(** ** Chunks *)

Lemma then_ok a b : (Json.then_ a b).2 = None → a.2 = None ∧ b.2 = None.
Proof. destruct a as [s [e|]]; simpl; [discriminate|done]. Qed.

Lemma items_cons first level k v items :
  (Json.iterencode_value v).2 = None →
  Json.iterencode_items first level ((k, v) :: items)
  = ((if first then "" else "," ++ Json.newline ++ Json.indent level)
       ++ Json.encode_basestring_ascii k ++ ": " ++ (Json.iterencode_value v).1
       ++ (Json.iterencode_items false level items).1,
     (Json.iterencode_items false level items).2).
Proof.
  intros Hv. cbn [Json.iterencode_items].
  rewrite (then_text_ok _ (Json.iterencode_items false level items)).
  2:{ rewrite then_text_ok by (by destruct first). exact Hv. }
  rewrite (then_text_ok _ (Json.iterencode_value v)) by (by destruct first).
  f_equal. destruct first; cbn [Json.then_ Json.yield fst snd];
    by rewrite ?str_append_assoc.
Qed.

Lemma items_ok first level k v items :
  (Json.iterencode_items first level ((k, v) :: items)).2 = None →
  (Json.iterencode_value v).2 = None
  ∧ (Json.iterencode_items false level items).2 = None.
Proof.
  cbn [Json.iterencode_items]. intros H.
  apply then_ok in H as [H H2]. apply then_ok in H as [_ H1]. done.
Qed.

Lemma dict_cons level kv dct :
  (Json.iterencode_items true (S level) (kv :: dct)).2 = None →
  Json.iterencode_dict level (kv :: dct)
  = ("{" ++ Json.newline ++ Json.indent (S level)
       ++ (Json.iterencode_items true (S level) (kv :: dct)).1
       ++ Json.newline ++ Json.indent level ++ "}", None).
Proof.
  intros H. unfold Json.iterencode_dict.
  rewrite (then_text_ok (Json.yield "{") _) by done.
  rewrite (then_text_ok _ (Json.iterencode_items _ _ _)) by done.
  rewrite (then_text_ok _ (Json.yield (_ ++ _))) by done.
  rewrite then_text_ok by done.
  cbn [Json.yield fst snd]. by rewrite !str_append_assoc.
Qed.

Lemma dict_ok level kv dct :
  (Json.iterencode_dict level (kv :: dct)).2 = None →
  (Json.iterencode_items true (S level) (kv :: dct)).2 = None.
Proof.
  unfold Json.iterencode_dict. intros H.
  apply then_ok in H as [H _]. apply then_ok in H as [H _].
  by apply then_ok in H as [_ H].
Qed.

Lemma elements_cons first level r lst :
  (Json.iterencode_dict level r).2 = None →
  Json.iterencode_elements first level (r :: lst)
  = ((if first then "[" else ",") ++ Json.newline ++ Json.indent level
       ++ (Json.iterencode_dict level r).1
       ++ (Json.iterencode_elements false level lst).1,
     (Json.iterencode_elements false level lst).2).
Proof.
  intros H. cbn [Json.iterencode_elements].
  rewrite (then_text_ok _ (Json.iterencode_elements false level lst)).
  2:{ by rewrite then_text_ok. }
  rewrite (then_text_ok _ (Json.iterencode_dict level r)) by done.
  f_equal. destruct first; cbn [Json.yield fst]; by rewrite !str_append_assoc.
Qed.

Lemma elements_ok first level r lst :
  (Json.iterencode_elements first level (r :: lst)).2 = None →
  (Json.iterencode_dict level r).2 = None
  ∧ (Json.iterencode_elements false level lst).2 = None.
Proof.
  cbn [Json.iterencode_elements]. intros H.
  apply then_ok in H as [H H2]. by apply then_ok in H as [_ H1].
Qed.

(** ** Dicts and lists *)

Lemma dict_set_fresh k v (d : list (string * Decoder.value)) :
  k ∉ d.*1 → Decoder.dict_set k v d = (d ++ [(k, v)])%list.
Proof.
  induction d as [|[k' v'] d IH]; [done|]. intros Hk.
  apply not_elem_of_cons in Hk as [Hne Hk]. cbn [Decoder.dict_set].
  destruct (String.eqb_spec k k') as [->|_]; [done|].
  by rewrite (IH Hk).
Qed.

Lemma after_value_comma s : after_value ("," ++ s) = true.
Proof. done. Qed.

Lemma after_value_newline s : after_value (Json.newline ++ s) = true.
Proof. done. Qed.

Lemma items_false_after level items tail :
  after_value tail = true →
  after_value ((Json.iterencode_items false level items).1 ++ tail) = true.
Proof.
  intros Ht. destruct items as [|[k v] items]; [done|].
  destruct (Json.iterencode_value v) as [tv [e|]] eqn:Ev.
  - cbn [Json.iterencode_items]. rewrite Ev.
    cbn [Json.then_ Json.yield fst snd]. done.
  - rewrite (items_cons false level k v items) by (by rewrite Ev). done.
Qed.

(** One step of [parse_members]: a key, the colon, a value. *)
Lemma parse_members_key fuel k s acc :
  Decoder.parse_members (S fuel) (Json.encode_basestring_ascii k ++ ": " ++ s) acc
  = match Decoder.scan_once fuel (Decoder.skip_ws s) with
    | Some (v, r2) =>
        match Decoder.skip_ws r2 with
        | String c2 r3 =>
            if Decoder.is_char 125 c2
            then Some (Decoder.Dict (Decoder.dict_set k v acc), r3)
            else if Decoder.is_char 44 c2
                 then Decoder.parse_members fuel (Decoder.skip_ws r3)
                        (Decoder.dict_set k v acc)
                 else None
        | EmptyString => None
        end
    | None => None
    end.
Proof.
  unfold Json.encode_basestring_ascii. rewrite !str_append_assoc.
  change (Decoder.parse_members (S fuel) (dquote ++ ?x) acc)
    with (match Decoder.scanstring x with
          | Some (key, r) =>
              match Decoder.skip_ws r with
              | String c r1 =>
                  if Decoder.is_char 58 c then
                    match Decoder.scan_once fuel (Decoder.skip_ws r1) with
                    | Some (v, r2) =>
                        match Decoder.skip_ws r2 with
                        | String c2 r3 =>
                            if Decoder.is_char 125 c2
                            then Some (Decoder.Dict (Decoder.dict_set key v acc), r3)
                            else if Decoder.is_char 44 c2
                                 then Decoder.parse_members fuel (Decoder.skip_ws r3)
                                        (Decoder.dict_set key v acc)
                                 else None
                        | EmptyString => None
                        end
                    | None => None
                    end
                  else None
              | EmptyString => None
              end
          | None => None
          end).
  rewrite scanstring_escape. reflexivity.
Qed.

(** The members of a dict, from the key of the first one. *)
Lemma parse_members_ok level items :
  ∀ k v acc fuel tail rest,
    (Json.iterencode_value v).2 = None →
    (Json.iterencode_items false level items).2 = None →
    printable v = true → Forall (λ kv, printable kv.2 = true) items →
    NoDup (acc.*1 ++ k :: items.*1)%list →
    after_value tail = true → Decoder.skip_ws tail = "}" ++ rest →
    (2 * String.length
           (Json.encode_basestring_ascii k ++ ": " ++ (Json.iterencode_value v).1
              ++ (Json.iterencode_items false level items).1 ++ tail) + 2
     ≤ fuel)%nat →
    Decoder.parse_members fuel
      (Json.encode_basestring_ascii k ++ ": " ++ (Json.iterencode_value v).1
         ++ (Json.iterencode_items false level items).1 ++ tail) acc
    = Some (Decoder.Dict (acc ++ (k, Decoder.Scalar v) :: of_record items)%list,
            rest).
Proof.
  induction items as [|[k2 v2] items IH];
    intros k v acc fuel tail rest Hv Hi Hpv Hpi Hnd Htail Hskip Hfuel.
  - (* last member *)
    destruct fuel as [|[|fuel]]; [simpl in Hfuel; lia|simpl in Hfuel; lia|].
    cbn [Json.iterencode_items Json.yield fst]. change ("" ++ tail) with tail.
    rewrite parse_members_key.
    pose proof (scan_once_value fuel v tail Hv Hpv Htail) as Hs.
    rewrite (scan_once_skip_ws _ _ _ Hs), Hs, Hskip.
    cbn [String.append]. change (Decoder.is_char 125 "}") with true. cbn iota.
    rewrite dict_set_fresh; [done|].
    apply NoDup_app in Hnd as (_ & Hnd & _). intros Hin.
    apply (Hnd k Hin). apply list_elem_of_here.
  - (* a member followed by another *)
    destruct fuel as [|[|fuel]]; [simpl in Hfuel; lia|simpl in Hfuel; lia|].
    pose proof (items_ok false level k2 v2 items Hi) as [Hv2 Hi2].
    apply Forall_cons in Hpi as [Hpv2 Hpi].
    rewrite (items_cons false level k2 v2 items Hv2) in *. cbn [fst snd] in *.
    set (next := Json.encode_basestring_ascii k2 ++ ": "
                   ++ (Json.iterencode_value v2).1
                   ++ (Json.iterencode_items false level items).1) in *.
    assert (((("," ++ Json.newline ++ Json.indent level) ++ next) ++ tail)
            = "," ++ Json.newline ++ Json.indent level ++ next ++ tail) as Hassoc
      by (by rewrite !str_append_assoc).
    rewrite Hassoc in *.
    rewrite parse_members_key.
    pose proof (scan_once_value fuel v _ Hv Hpv
                  (after_value_comma (Json.newline ++ Json.indent level ++ next ++ tail)))
      as Hs.
    rewrite (scan_once_skip_ws _ _ _ Hs), Hs.
    change (Decoder.skip_ws ("," ++ ?x)) with (String "," x).
    change (Decoder.is_char 125 ",") with false.
    change (Decoder.is_char 44 ",") with true. cbn iota.
    rewrite skip_ws_newline, skip_ws_indent.
    assert (k ∉ acc.*1) as Hfresh.
    { apply NoDup_app in Hnd as (_ & Hnd & _). intros Hin.
      apply (Hnd k Hin). apply list_elem_of_here. }
    rewrite dict_set_fresh by done.
    assert (Decoder.skip_ws (next ++ tail) = next ++ tail) as ->.
    { unfold next. unfold Json.encode_basestring_ascii. rewrite !str_append_assoc.
      reflexivity. }
    unfold next. rewrite !str_append_assoc.
    rewrite (IH k2 v2 (acc ++ [(k, Decoder.Scalar v)])%list (S fuel) tail rest);
      try done.
    + by rewrite <- app_assoc.
    + rewrite fmap_app. cbn [fmap list_fmap fst]. rewrite <- app_assoc. exact Hnd.
    + unfold next in Hfuel. revert Hfuel.
      unfold Json.encode_basestring_ascii.
      rewrite !str_length_append. cbn [String.length]. lia.
Qed.

Lemma scan_once_brace fuel s :
  Decoder.scan_once (S fuel) ("{" ++ s)
  = match Decoder.skip_ws s with
    | String c1 r1 =>
        if Decoder.is_char 125 c1 then Some (Decoder.Dict [], r1)
        else Decoder.parse_members fuel (Decoder.skip_ws s) []
    | EmptyString => None
    end.
Proof. reflexivity. Qed.

Lemma scan_once_bracket fuel s :
  Decoder.scan_once (S fuel) ("[" ++ s)
  = match Decoder.skip_ws s with
    | String c1 r1 =>
        if Decoder.is_char 93 c1 then Some (Decoder.List [], r1)
        else Decoder.parse_elements fuel (Decoder.skip_ws s) []
    | EmptyString => None
    end.
Proof. reflexivity. Qed.

Lemma parse_elements_S fuel s acc :
  Decoder.parse_elements (S fuel) s acc
  = match Decoder.scan_once fuel s with
    | Some (v, r) =>
        match Decoder.skip_ws r with
        | String c r' =>
            if Decoder.is_char 93 c then Some (Decoder.List (acc ++ [v])%list, r')
            else if Decoder.is_char 44 c
                 then Decoder.parse_elements fuel (Decoder.skip_ws r') (acc ++ [v])%list
                 else None
        | EmptyString => None
        end
    | None => None
    end.
Proof. reflexivity. Qed.

(** A dict of scalars is read back. *)
Lemma scan_once_dict_ok fuel level r rest :
  (Json.iterencode_dict level r).2 = None →
  Forall (λ kv, printable kv.2 = true) r → NoDup r.*1 →
  (2 * String.length ((Json.iterencode_dict level r).1 ++ rest) + 1 ≤ fuel)%nat →
  Decoder.scan_once fuel ((Json.iterencode_dict level r).1 ++ rest)
  = Some (Decoder.Dict (of_record r), rest).
Proof.
  intros Hok Hp Hnd Hfuel.
  destruct fuel as [|fuel]; [lia|].
  destruct r as [|[k v] items]; [reflexivity|].
  pose proof (dict_ok level _ _ Hok) as Hi.
  pose proof (items_ok true (S level) k v items Hi) as [Hv Hi'].
  rewrite (dict_cons level _ _ Hi) in *. cbn [fst] in *.
  rewrite (items_cons true (S level) k v items Hv) in *. cbn [fst] in *.
  change ("" ++ ?x) with x in *.
  apply Forall_cons in Hp as [Hpv Hpi].
  set (tail := Json.newline ++ Json.indent level ++ "}" ++ rest).
  match goal with
  | |- Decoder.scan_once _ ?text = _ =>
      replace text
        with ("{" ++ Json.newline ++ Json.indent (S level)
                ++ Json.encode_basestring_ascii k ++ ": "
                ++ (Json.iterencode_value v).1
                ++ (Json.iterencode_items false (S level) items).1 ++ tail) in *
        by (unfold tail; by rewrite !str_append_assoc)
  end.
  rewrite scan_once_brace, skip_ws_newline, skip_ws_indent.
  remember (Json.encode_basestring_ascii k ++ ": " ++ (Json.iterencode_value v).1
              ++ (Json.iterencode_items false (S level) items).1 ++ tail)
    as T eqn:ET.
  assert (∃ t, T = String (ascii_of_nat 34) t) as [t Ht].
  { rewrite ET. unfold Json.encode_basestring_ascii, dquote.
    rewrite !str_append_assoc. by eexists. }
  assert (Decoder.skip_ws T = T) as -> by (by rewrite Ht).
  rewrite Ht at 1.
  change (Decoder.is_char 125 (ascii_of_nat 34)) with false. cbn iota.
  clear Ht. subst T.
  rewrite (parse_members_ok (S level) items k v [] fuel tail rest); try done.
  - unfold tail. by rewrite skip_ws_newline, skip_ws_indent.
  - revert Hfuel. unfold tail. rewrite !str_length_append. cbn [String.length]. lia.
Qed.

Lemma dict_text_head level r :
  (Json.iterencode_dict level r).2 = None →
  ∃ t, (Json.iterencode_dict level r).1 = String "{" t.
Proof.
  intros Hok. destruct r as [|kv items]; [by eexists|].
  rewrite (dict_cons level _ _ (dict_ok level _ _ Hok)). by eexists.
Qed.

(** The elements of the list, from the start of a dict. *)
Lemma parse_elements_ok level lst :
  ∀ r acc fuel tail rest,
    (Json.iterencode_dict level r).2 = None →
    (Json.iterencode_elements false level lst).2 = None →
    Forall (λ r, Forall (λ kv, printable kv.2 = true) r) (r :: lst) →
    Forall (λ r : record, NoDup r.*1) (r :: lst) →
    Decoder.skip_ws tail = "]" ++ rest →
    (2 * String.length
           ((Json.iterencode_dict level r).1
              ++ (Json.iterencode_elements false level lst).1 ++ tail) + 2
     ≤ fuel)%nat →
    Decoder.parse_elements fuel
      ((Json.iterencode_dict level r).1
         ++ (Json.iterencode_elements false level lst).1 ++ tail) acc
    = Some (Decoder.List (acc ++ Decoder.Dict (of_record r) :: of_dicts lst)%list,
            rest).
Proof.
  induction lst as [|r2 lst IH];
    intros r acc fuel tail rest Hr Hl Hp Hnd Hskip Hfuel.
  - destruct fuel as [|fuel]; [lia|].
    apply Forall_cons in Hp as [Hp _]. apply Forall_cons in Hnd as [Hnd _].
    cbn [Json.iterencode_elements Json.yield fst] in *.
    change ("" ++ tail) with tail in *.
    rewrite parse_elements_S.
    rewrite (scan_once_dict_ok fuel level r tail Hr Hp Hnd) by lia.
    rewrite Hskip. reflexivity.
  - destruct fuel as [|fuel]; [lia|].
    pose proof (elements_ok false level r2 lst Hl) as [Hr2 Hl2].
    apply Forall_cons in Hp as [Hp Hp2]. apply Forall_cons in Hnd as [Hnd Hnd2].
    rewrite (elements_cons false level r2 lst Hr2) in *. cbn [fst] in *.
    set (next := (Json.iterencode_dict level r2).1
                   ++ (Json.iterencode_elements false level lst).1 ++ tail).
    assert (((("," ++ Json.newline ++ Json.indent level
                 ++ (Json.iterencode_dict level r2).1
                 ++ (Json.iterencode_elements false level lst).1) ++ tail))
            = "," ++ Json.newline ++ Json.indent level ++ next) as Hassoc
      by (unfold next; by rewrite !str_append_assoc).
    rewrite Hassoc in *.
    rewrite parse_elements_S.
    rewrite (scan_once_dict_ok fuel level r _ Hr Hp Hnd) by lia.
    change (Decoder.skip_ws ("," ++ ?x)) with (String "," x).
    change (Decoder.is_char 93 ",") with false.
    change (Decoder.is_char 44 ",") with true. cbn iota.
    rewrite skip_ws_newline, skip_ws_indent.
    assert (Decoder.skip_ws next = next) as ->.
    { unfold next. destruct (dict_text_head level r2 Hr2) as [t ->]. reflexivity. }
    unfold next.
    rewrite (IH r2 (acc ++ [Decoder.Dict (of_record r)])%list fuel tail rest);
      try done.
    + by rewrite <- app_assoc.
    + revert Hfuel. unfold next. rewrite !str_length_append. cbn [String.length]. lia.
Qed.

Lemma list_cons_text r lst :
  (Json.iterencode_elements true 1 (r :: lst)).2 = None →
  Json.iterencode_list (r :: lst)
  = ((Json.iterencode_elements true 1 (r :: lst)).1 ++ Json.newline ++ "]", None).
Proof.
  intros H. unfold Json.iterencode_list.
  rewrite (then_text_ok _ (Json.yield (_ ++ _))) by done.
  rewrite then_text_ok by done. cbn [Json.yield fst snd Json.indent].
  by rewrite !str_append_assoc.
Qed.

Lemma list_ok r lst :
  (Json.iterencode_list (r :: lst)).2 = None →
  (Json.iterencode_elements true 1 (r :: lst)).2 = None.
Proof.
  unfold Json.iterencode_list. intros H.
  apply then_ok in H as [H _]. by apply then_ok in H as [H _].
Qed.

(** What [json.dump] writes for a list of records is read back by
    [json.loads] as that list. *)
Lemma loads_iterencode_list (lst : list record) text :
  Json.iterencode_list lst = (text, None) →
  Forall (λ r, Forall (λ kv, printable kv.2 = true) r) lst →
  Forall (λ r : record, NoDup r.*1) lst →
  Decoder.loads text = Some (Decoder.of_records lst).
Proof.
  intros Henc Hp Hnd.
  destruct lst as [|r lst].
  { injection Henc as <-. reflexivity. }
  assert ((Json.iterencode_list (r :: lst)).2 = None) as Hok by (by rewrite Henc).
  pose proof (list_ok r lst Hok) as He.
  pose proof (elements_ok true 1 r lst He) as [Hr Hl].
  rewrite (list_cons_text r lst He) in Henc.
  rewrite (elements_cons true 1 r lst Hr) in Henc. cbn [fst] in Henc.
  injection Henc as <-.
  set (tail := Json.newline ++ "]").
  match goal with
  | |- Decoder.loads ?t = _ =>
      replace t
        with ("[" ++ Json.newline ++ Json.indent 1 ++ (Json.iterencode_dict 1 r).1
                ++ (Json.iterencode_elements false 1 lst).1 ++ tail)
        by (unfold tail; by rewrite !str_append_assoc)
  end.
  unfold Decoder.loads.
  change (Decoder.skip_ws ("[" ++ ?x)) with ("[" ++ x).
  match goal with
  | |- context [Decoder.scan_once ?f _] => remember f as fuel eqn:Ef
  end.
  destruct fuel as [|fuel]; [lia|].
  rewrite scan_once_bracket, skip_ws_newline, skip_ws_indent.
  remember ((Json.iterencode_dict 1 r).1
              ++ (Json.iterencode_elements false 1 lst).1 ++ tail) as T eqn:ET.
  assert (∃ t, T = String "{" t) as [t Ht].
  { rewrite ET. destruct (dict_text_head 1 r Hr) as [t ->]. by eexists. }
  assert (Decoder.skip_ws T = T) as -> by (by rewrite Ht).
  rewrite Ht at 1. change (Decoder.is_char 93 "{") with false. cbn iota.
  clear Ht. subst T.
  rewrite (parse_elements_ok 1 lst r [] fuel tail ""); try done.
  revert Ef. rewrite !str_length_append. cbn [String.length]. lia.
Qed.

(** ** The text that reaches the file *)

Lemma transform_keys_NoDup df recs :
  wf_frame df → transform df = inr recs → Forall (λ r : record, NoDup r.*1) recs.
Proof.
  intros Hwf E. apply Forall_forall. intros r Hr.
  apply list_elem_of_lookup in Hr as [i Hi].
  rewrite (transform_lookup df recs i Hwf E) in Hi.
  apply mapM_convert_keys in Hi. rewrite Hi. exact output_keys_NoDup.
Qed.

Lemma try_body_success w w' df recs :
  read_excel w = inr df → transform df = inr recs → try_body w = (None, w') →
  ∃ text, Json.iterencode_list recs = (text, None) ∧ dest w' = Some text.
Proof.
  intros E1 E2. unfold try_body. rewrite E1, E2.
  destruct (open_w w) as [e|w1] eqn:E3; [discriminate|].
  destruct (Json.iterencode_list recs) as [text [e|]] eqn:E4; [discriminate|].
  intros [= <-]. exists text. split; [done|].
  unfold open_w in E3. destruct (dest_dir w); try discriminate.
  injection E3 as <-. reflexivity.
Qed.

(** * Further properties of the conversion *)

(** ** Which sheets are transformed *)

Lemma transform_succeeds_cols df :
  (∃ out, transform df = inr out) →
  ∀ k, k ∈ relevant_cols.*1 → has_column df k = true.
Proof.
  intros [out E] k Hk. apply transform_inr in E as [HF _].
  rewrite Forall_forall in HF. destruct (HF k Hk) as [s Hs].
  unfold has_column. by rewrite Hs.
Qed.

Lemma has_columns_ok df :
  (∀ k, k ∈ relevant_cols.*1 → has_column df k = true) →
  transform df = inr (to_dict (cleaned df)).
Proof.
  intros H. apply transform_ok. apply Forall_forall. intros k Hk.
  specialize (H k Hk). unfold has_column in H.
  destruct (column df k); [by eexists|done].
Qed.

(** X1: lines 24 to 34 succeed exactly when the sheet has the eight source
    columns: a missing column is the only way they fail. *)
Theorem transform_succeeds_iff (df : DataFrame) :
  (∃ out, transform df = inr out)
  ↔ (∀ k, k ∈ relevant_cols.*1 → has_column df k = true).
Proof.
  split; [apply transform_succeeds_cols|].
  intros H. exists (to_dict (cleaned df)). by apply has_columns_ok.
Qed.

Lemma getitem_ext df df' keys :
  nrows df = nrows df' →
  (∀ k, k ∈ keys → column df k = column df' k) →
  getitem df keys = getitem df' keys.
Proof.
  intros Hn H. unfold getitem. rewrite Hn.
  assert (List.filter (λ k, negb (has_column df k)) keys
          = List.filter (λ k, negb (has_column df' k)) keys) as ->.
  { apply filter_ext_in. intros k Hk. apply list_elem_of_In in Hk.
    unfold has_column. by rewrite (H k Hk). }
  assert (omap (λ k, (k,.) <$> column df k) keys
          = omap (λ k, (k,.) <$> column df' k) keys) as ->; [|done].
  induction keys as [|k keys IH]; [done|]. cbn [omap list_omap].
  rewrite (H k) by apply list_elem_of_here.
  rewrite IH; [done|]. intros k' Hk'. apply H. by apply list_elem_of_further.
Qed.

(** X2: the transformation reads the eight source columns and nothing else:
    two sheets with the same number of rows that agree on these columns
    give the same result, whatever other columns they have and in whatever
    order their columns come. *)
Theorem transform_ignores_other_columns (df df' : DataFrame) :
  nrows df = nrows df' →
  (∀ k, k ∈ relevant_cols.*1 → column df k = column df' k) →
  transform df = transform df'.
Proof.
  intros Hn H. unfold transform. by rewrite (getitem_ext df df' _ Hn H).
Qed.

Lemma transform_ignores_other_columns_witness :
  transform Examples.rice
  = transform (Frame 1 (reverse (List.tl (columns Examples.rice)))).
Proof.
  apply (transform_ignores_other_columns Examples.rice); [reflexivity|].
  intros k Hk. revert k Hk. apply Forall_forall.
  repeat constructor.
Defined.

(** ** The run as a whole *)

Lemma generate_writable w df recs :
  read_excel w = inr df → transform df = inr recs → dest_dir w = Writable →
  generate_recipe_json w
  = (None,
     MkWorld (source w) Writable (Some (Json.iterencode_list recs).1)
       (stdout w
        ++ [match (Json.iterencode_list recs).2 with
            | Some e => diagnostic e
            | None => success_line (length recs)
            end])).
Proof.
  intros E1 E2 E3. unfold generate_recipe_json, try_body, open_w.
  rewrite E1, E2, E3. cbn [mret result_ret].
  destruct (Json.iterencode_list recs) as [text [e|]] eqn:E4.
  - pose proof (iterencode_list_raises recs e) as Ht. rewrite E4 in Ht.
    by rewrite (Ht eq_refl).
  - reflexivity.
Qed.

(** X3: a sheet with the eight columns and no row: the file holds the empty
    list, and zero recipes are reported. *)
Theorem empty_sheet (w : World) (df : DataFrame) :
  read_excel w = inr df → nrows df = 0%nat →
  (∀ k, k ∈ relevant_cols.*1 → has_column df k = true) →
  dest_dir w = Writable →
  generate_recipe_json w
  = (None,
     MkWorld (source w) Writable (Some "[]")
       (stdout w
        ++ ["Successfully generated 0 recipes at " ++ output_path])).
Proof.
  intros E1 Hn Hc E3.
  assert (transform df = inr []) as E2.
  { rewrite (has_columns_ok df Hc). unfold to_dict.
    change (nrows (cleaned df)) with (nrows df). by rewrite Hn. }
  by rewrite (generate_writable w df [] E1 E2 E3).
Qed.

Lemma empty_sheet_witness :
  let df := Frame 0 (map (λ m, (m.1, Float64 [])) relevant_cols) in
  let w := Examples.world df (Some "old text") in
  generate_recipe_json w
  = (None,
     MkWorld (source w) Writable (Some "[]")
       ["Successfully generated 0 recipes at " ++ output_path]).
Proof.
  intros df w. apply (empty_sheet w df); try reflexivity.
  apply Forall_forall. repeat constructor.
Defined.

(** X4: once the sheet is transformed and the directory can be written to, the
    destination holds the text the encoder has produced, all of it or what
    came before the error, and nothing of what the file held before. *)
Theorem old_content_discarded (w : World) (df : DataFrame) (recs : list record) :
  read_excel w = inr df → transform df = inr recs → dest_dir w = Writable →
  dest (generate_recipe_json w).2 = Some (Json.iterencode_list recs).1.
Proof.
  intros E1 E2 E3. by rewrite (generate_writable w df recs E1 E2 E3).
Qed.

Lemma old_content_discarded_witness :
  let w := Examples.world Examples.rice (Some "old text") in
  ∃ recs, transform Examples.rice = inr recs
    ∧ dest (generate_recipe_json w).2 = Some (Json.iterencode_list recs).1.
Proof.
  intros w. eexists. split; [vm_compute; reflexivity|].
  apply (old_content_discarded w Examples.rice); try reflexivity.
Defined.

Lemma count_value n : Digits.value (count n) = Z.of_nat n.
Proof. unfold count. apply (digits_spec (Z.of_nat n)). lia. Qed.

(** X5: after a successful run the last line printed reports the number of
    rows of the sheet, in decimal, and the destination path. *)
Theorem success_report (w w' : World) (df : DataFrame) :
  read_excel w = inr df → try_body w = (None, w') →
  stdout w'
  = (stdout w
     ++ [("Successfully generated " ++ count (nrows df) ++ " recipes at "
          ++ output_path)%string])%list
  ∧ Digits.value (count (nrows df)) = Z.of_nat (nrows df).
Proof.
  intros E1 Hb. split; [|apply count_value].
  revert Hb. unfold try_body. rewrite E1.
  destruct (transform df) as [e|recs] eqn:E2; [discriminate|].
  destruct (open_w w) as [e|w1] eqn:E3; [discriminate|].
  destruct (Json.iterencode_list recs) as [text [e|]]; [discriminate|].
  intros [= <-]. cbn [print write stdout].
  apply transform_inr in E2 as [_ ->]. rewrite to_dict_length.
  unfold open_w in E3. destruct (dest_dir w); try discriminate.
  by injection E3 as <-.
Qed.

Lemma success_report_witness :
  let w := Examples.world Examples.unnamed None in
  stdout (try_body w).2
  = [("Successfully generated " ++ count 2 ++ " recipes at " ++ output_path)%string]
  ∧ Digits.value (count 2) = 2.
Proof.
  intros w. apply (success_report w (try_body w).2 Examples.unnamed).
  - reflexivity.
  - vm_compute. reflexivity.
Defined.

(** ** No missing value in the output *)

Section NotNaN.

Local Abbreviation prec := F64.prec.
Local Abbreviation emax := F64.emax.

Lemma shr_1_nonneg mrs : 0 ≤ shr_m mrs → 0 ≤ shr_m (shr_1 mrs).
Proof. destruct mrs as [[|[p|p|]|p] r s]; simpl; lia. Qed.

Lemma shr_nonneg mrs e n : 0 ≤ shr_m mrs → 0 ≤ shr_m (shr mrs e n).1.
Proof.
  intros H. destruct n as [|p|p]; simpl; try done.
  rewrite iter_pos_nat. induction (Pos.to_nat p) as [|k IH]; [done|].
  simpl. by apply shr_1_nonneg.
Qed.

Lemma shr_fexp_nonneg m e l : 0 ≤ m → 0 ≤ shr_m (shr_fexp prec emax m e l).1.
Proof.
  intros H. unfold shr_fexp. apply shr_nonneg. by destruct l as [|[]].
Qed.

Lemma round_nearest_even_nonneg m l : 0 ≤ m → 0 ≤ round_nearest_even m l.
Proof. intros H. destruct l as [|[]]; simpl; try lia. destruct (Z.even m); lia. Qed.

Lemma binary_round_aux_not_nan s m e l :
  0 ≤ m → F64.is_nan (binary_round_aux prec emax s m e l) = false.
Proof.
  intros H. unfold binary_round_aux.
  pose proof (shr_fexp_nonneg m e l H) as H1.
  destruct (shr_fexp prec emax m e l) as [mrs' e']. simpl in H1.
  pose proof (shr_fexp_nonneg _ e' loc_Exact
                (round_nearest_even_nonneg _ (loc_of_shr_record mrs') H1)) as H2.
  destruct (shr_fexp prec emax _ e' loc_Exact) as [mrs'' e'']. simpl in H2.
  destruct (shr_m mrs'') as [|p|p]; [done| |lia].
  by destruct (e'' <=? emax - prec).
Qed.

Lemma of_Z_not_nan s n : F64.is_nan (F64.of_Z s n) = false.
Proof.
  destruct n as [|p|p]; [done| |]; unfold F64.of_Z, binary_normalize, binary_round;
    destruct (shl_align _ _ _) as [mz ez]; by apply binary_round_aux_not_nan.
Qed.

Lemma mul_ten_not_nan x : F64.is_nan x = false → F64.is_nan (F64.mul x F64.ten) = false.
Proof.
  destruct x as [s|s| |s m e]; try done. intros _.
  unfold F64.mul, F64.ten, SFmul. by apply binary_round_aux_not_nan.
Qed.

Lemma rint_not_nan x : F64.is_nan x = false → F64.is_nan (F64.rint x) = false.
Proof.
  destruct x as [s|s| |s m e]; try done. intros _. unfold F64.rint.
  destruct (0 <=? e); [done|]. apply of_Z_not_nan.
Qed.

Lemma div_ten_not_nan x : F64.is_nan x = false → F64.is_nan (F64.div x F64.ten) = false.
Proof.
  destruct x as [s|s| |s m e]; try done. intros _.
  unfold F64.div, F64.ten, SFdiv, SFdiv_core_binary.
  destruct (Z.div_eucl _ _) as [q r] eqn:E.
  apply binary_round_aux_not_nan.
  rewrite div_eucl_pair in E. injection E as <- _.
  apply Z.div_pos; [|done].
  destruct (_ - _ - _) as [|p|p]; try lia.
  rewrite Z.shiftl_mul_pow2 by lia. apply Z.mul_nonneg_nonneg; lia.
Qed.

Lemma round1_not_nan x : F64.is_nan x = false → F64.is_nan (F64.round1 x) = false.
Proof.
  intros H. unfold F64.round1.
  by apply div_ten_not_nan, rint_not_nan, mul_ten_not_nan.
Qed.

End NotNaN.

Lemma clean_cell_not_na numeric d v : isna (clean_cell numeric d v) = false.
Proof.
  unfold clean_cell, fill_cell.
  destruct (isna v) eqn:Hna.
  - by destruct numeric, d.
  - destruct numeric; [|done]. unfold round_cell.
    destruct d; try done. destruct v; try done.
    simpl in *. by apply round1_not_nan.
Qed.

Lemma row_record_cleaned df i k v :
  (k, v) ∈ row_record (cleaned df) i →
  ∃ src s v0, (src, k) ∈ relevant_cols ∧ column df src = Some s
    ∧ series_at s i = Some v0
    ∧ v = clean_cell (is_num_col k) (dtype_of s) v0.
Proof.
  unfold row_record, cleaned. cbn [columns].
  intros H. apply list_elem_of_omap in H as ([k' s'] & Hc & Hv).
  apply list_elem_of_omap in Hc as ([src dst] & Hm & Hcc).
  unfold clean_column in Hcc. cbn [fst snd] in *.
  destruct (column df src) as [s|] eqn:Hs; [|done].
  cbn in Hcc. injection Hcc as <- <-.
  rewrite series_at_clean in Hv.
  destruct (series_at s i) as [v0|] eqn:Hv0; [|done].
  cbn in Hv. injection Hv as <- <-.
  by exists src, s, v0.
Qed.

(** X6: no value of an output record is missing: a record holds neither
    [None] nor NaN under any key, whatever the sheet had in its cells. *)
Theorem no_missing_value_in_output (df : DataFrame) (out : list record)
    (r : record) (k : string) (v : pyobj) :
  transform df = inr out → r ∈ out → (k, v) ∈ r → isna v = false.
Proof.
  intros E Hr Hv. apply transform_inr in E as [_ ->].
  unfold to_dict in Hr. apply list_elem_of_fmap in Hr as (i & -> & _).
  apply row_record_cleaned in Hv as (src & s & v0 & _ & _ & _ & ->).
  apply clean_cell_not_na.
Qed.

Lemma no_missing_value_in_output_witness :
  ∃ out r, transform Examples.unnamed = inr out ∧ out !! 1%nat = Some r
    ∧ cell Examples.unnamed "food_name" 1 = Some (PyFloat S754_nan)
    ∧ ∃ v, alist_get "name" r = Some v ∧ isna v = false.
Proof.
  eexists _, _. split; [vm_compute; reflexivity|].
  split; [reflexivity|]. split; [reflexivity|].
  eexists. split; [reflexivity|].
  eapply (no_missing_value_in_output Examples.unnamed _ _ "name").
  - vm_compute. reflexivity.
  - apply list_elem_of_further, list_elem_of_here.
  - apply list_elem_of_here.
Defined.

(** ** When the run succeeds *)

Lemma iterencode_value_ok v :
  (Json.iterencode_value v).2 = None ↔ serializable v = true.
Proof. by destruct v as [|[]| | | |]. Qed.

Lemma then_ok_iff a b : (Json.then_ a b).2 = None ↔ a.2 = None ∧ b.2 = None.
Proof. destruct a as [s [e|]]; simpl; [|tauto]. split; [done|by intros [? _]]. Qed.

Lemma iterencode_items_ok first level items :
  (Json.iterencode_items first level items).2 = None
  ↔ Forall (λ kv, serializable kv.2 = true) items.
Proof.
  revert first. induction items as [|[k v] items IH]; intros first.
  - split; [by constructor|done].
  - cbn [Json.iterencode_items]. rewrite !then_ok_iff, (IH false), Forall_cons.
    rewrite iterencode_value_ok. destruct first; cbn [Json.yield snd]; tauto.
Qed.

Lemma iterencode_dict_ok level dct :
  (Json.iterencode_dict level dct).2 = None
  ↔ Forall (λ kv, serializable kv.2 = true) dct.
Proof.
  destruct dct as [|kv dct]; [split; [by constructor|done]|].
  unfold Json.iterencode_dict. rewrite !then_ok_iff, iterencode_items_ok.
  cbn [Json.yield snd]. tauto.
Qed.

Lemma iterencode_elements_ok first level lst :
  (Json.iterencode_elements first level lst).2 = None
  ↔ Forall (λ r : record, Forall (λ kv, serializable kv.2 = true) r) lst.
Proof.
  revert first. induction lst as [|r lst IH]; intros first.
  - split; [by constructor|done].
  - cbn [Json.iterencode_elements].
    rewrite !then_ok_iff, (IH false), Forall_cons, iterencode_dict_ok.
    cbn [Json.yield snd]. tauto.
Qed.

Lemma iterencode_list_ok lst :
  (Json.iterencode_list lst).2 = None
  ↔ Forall (λ r : record, Forall (λ kv, serializable kv.2 = true) r) lst.
Proof.
  destruct lst as [|r lst]; [split; [by constructor|done]|].
  unfold Json.iterencode_list. rewrite !then_ok_iff, iterencode_elements_ok.
  cbn [Json.yield snd]. tauto.
Qed.

Lemma serializable_clean numeric d v :
  serializable (clean_cell numeric d v) = serializable v.
Proof.
  unfold clean_cell, fill_cell. destruct (isna v) eqn:Hna.
  - destruct v; try done; by destruct numeric, d.
  - destruct numeric; [|done]. unfold round_cell. by destruct d, v.
Qed.

Lemma series_serializable_at s :
  series_serializable s = true
  ↔ ∀ i v, series_at s i = Some v → serializable v = true.
Proof.
  destruct s as [l|l|l]; simpl.
  - split; [|done]. intros _ i v H. destruct (l !! i); [|done]. by injection H as <-.
  - split; [|done]. intros _ i v H. destruct (l !! i); [|done]. by injection H as <-.
  - rewrite forallb_forall. split.
    + intros H i v Hv. apply H, list_elem_of_In. by eapply list_elem_of_lookup_2.
    + intros H v Hv. apply list_elem_of_In, list_elem_of_lookup in Hv as [i Hi].
      by apply (H i).
Qed.

(** The records of a sheet can be written when no cell of the eight
    columns holds a date. *)
Lemma records_serializable df :
  wf_frame df → (∀ k, k ∈ relevant_cols.*1 → has_column df k = true) →
  Forall (λ r : record, Forall (λ kv, serializable kv.2 = true) r)
    (to_dict (cleaned df))
  ↔ (∀ k, k ∈ relevant_cols.*1 →
       ∃ s, column df k = Some s ∧ series_serializable s = true).
Proof.
  intros Hwf Hc. pose proof (has_columns_ok df Hc) as E. split.
  - intros HF k Hk. specialize (Hc k Hk). unfold has_column in Hc.
    destruct (column df k) as [s|] eqn:Hs; [|done].
    exists s. split; [done|]. apply series_serializable_at. intros i v Hv.
    apply list_elem_of_fmap in Hk as ([src dst] & -> & Hm). cbn [fst] in *.
    destruct (transform_field df _ i src dst s v Hwf E Hm Hs Hv) as (r & Hr & Hg).
    rewrite Forall_forall in HF.
    specialize (HF r (list_elem_of_lookup_2 _ _ _ Hr)).
    rewrite Forall_forall in HF. apply alist_get_elem in Hg.
    specialize (HF _ Hg). cbn [snd] in HF. by rewrite serializable_clean in HF.
  - intros H. apply Forall_forall. intros r Hr.
    unfold to_dict in Hr. apply list_elem_of_fmap in Hr as (i & -> & _).
    apply Forall_forall. intros [k v] Hv.
    apply row_record_cleaned in Hv as (src & s & v0 & Hm & Hs & Hv0 & ->).
    cbn [snd]. rewrite serializable_clean.
    destruct (H src) as (s' & Hs' & Hok).
    { apply list_elem_of_fmap. by exists (src, k). }
    rewrite Hs in Hs'. injection Hs' as <-.
    by apply (proj1 (series_serializable_at s) Hok i).
Qed.

(** X7: the run reports a success exactly when the sheet has the eight
    columns, none of them holds a date, and the destination directory can
    be written to. *)
Theorem run_succeeds_iff (w : World) (df : DataFrame) :
  read_excel w = inr df → wf_frame df →
  (∃ w', try_body w = (None, w'))
  ↔ (∀ k, k ∈ relevant_cols.*1 →
       ∃ s, column df k = Some s ∧ series_serializable s = true)
    ∧ dest_dir w = Writable.
Proof.
  intros E1 Hwf. unfold try_body. rewrite E1. split.
  - intros [w' H].
    destruct (transform df) as [e|recs] eqn:E2; [discriminate|].
    assert (∀ k, k ∈ relevant_cols.*1 → has_column df k = true) as Hc.
    { apply transform_succeeds_cols. by exists recs. }
    apply transform_inr in E2 as [_ ->].
    unfold open_w in H. destruct (dest_dir w); try discriminate.
    cbn [mret result_ret] in H.
    destruct (Json.iterencode_list _) as [text [e|]] eqn:E4; [discriminate|].
    split; [|done]. apply (records_serializable df Hwf Hc).
    apply iterencode_list_ok. by rewrite E4.
  - intros [H E3].
    assert (∀ k, k ∈ relevant_cols.*1 → has_column df k = true) as Hc.
    { intros k Hk. destruct (H k Hk) as (s & Hs & _). unfold has_column. by rewrite Hs. }
    rewrite (has_columns_ok df Hc). unfold open_w. rewrite E3.
    cbn [mret result_ret].
    apply (records_serializable df Hwf Hc), iterencode_list_ok in H.
    destruct (Json.iterencode_list _) as [text [e|]]; [discriminate|].
    by eexists.
Qed.

Lemma run_succeeds_iff_witness :
  let w := Examples.world Examples.rice None in
  (∃ w', try_body w = (None, w'))
  ↔ (∀ k, k ∈ relevant_cols.*1 →
       ∃ s, column Examples.rice k = Some s ∧ series_serializable s = true)
    ∧ dest_dir w = Writable.
Proof.
  intros w. apply (run_succeeds_iff w Examples.rice); [reflexivity|exact wf_rice].
Defined.

(** ** binary64: rounding a quotient *)

Section Rounding.

Local Abbreviation prec := F64.prec.
Local Abbreviation emax := F64.emax.

Lemma new_location_frac b k : 0 < b → 0 ≤ k < b → new_location b k = loc_frac k b.
Proof.
  intros Hb Hk. unfold new_location, loc_frac.
  destruct (Z.even b) eqn:Hev; [done|].
  unfold new_location_odd. destruct (Z.eqb_spec k 0) as [|Hk0]; [done|].
  f_equal.
  assert (Z.odd b = true) as Hodd by (by rewrite <- Z.negb_even, Hev).
  apply Z.odd_spec in Hodd as [c Hc].
  destruct (Z.compare_spec (2 * k + 1) b), (Z.compare_spec (2 * k) b);
    first [done | lia].
Qed.

Lemma shr_1_div2 m r s :
  0 ≤ m → shr_1 (Build_shr_record m r s) = Build_shr_record (m / 2) (Z.odd m) (r || s).
Proof.
  intros Hm. rewrite <- Z.div2_div.
  by destruct m as [|[p|p|]|p]; try lia.
Qed.

Lemma shr_record_of_loc_frac m k b :
  0 < b → 0 ≤ k < b →
  shr_record_of_loc m (loc_frac k b)
  = Build_shr_record m (b <=? 2 * k) (negb (k =? 0) && negb (2 * k =? b)).
Proof.
  intros Hb Hk. unfold loc_frac.
  destruct (Z.eqb_spec k 0) as [->|Hk0]; cbn [negb andb].
  - replace (b <=? 2 * 0) with false by (symmetry; apply Z.leb_gt; lia). done.
  - destruct (Z.compare_spec (2 * k) b) as [E|E|E]; cbn [shr_record_of_loc].
    + replace (b <=? 2 * k) with true by (symmetry; apply Z.leb_le; lia).
      replace (2 * k =? b) with true by (symmetry; apply Z.eqb_eq; lia). done.
    + replace (b <=? 2 * k) with false by (symmetry; apply Z.leb_gt; lia).
      replace (2 * k =? b) with false by (symmetry; apply Z.eqb_neq; lia). done.
    + replace (b <=? 2 * k) with true by (symmetry; apply Z.leb_le; lia).
      replace (2 * k =? b) with false by (symmetry; apply Z.eqb_neq; lia). done.
Qed.

(** One more bit dropped: the record of [a / b] becomes that of
    [a / (2 b)]. *)
Lemma shr_1_frac a b :
  0 ≤ a → 0 < b → shr_1 (shr_frac a b) = shr_frac a (2 * b).
Proof.
  intros Ha Hb. unfold shr_frac.
  pose proof (Z.div_mod a b ltac:(lia)) as E.
  pose proof (Z.mod_pos_bound a b Hb) as Hr.
  pose proof (Z.div_pos a b Ha Hb) as Hq.
  set (q := a / b) in *. set (r := a mod b) in *.
  pose proof (Z.div_mod q 2 ltac:(lia)) as E2.
  assert (Z.odd q = (q mod 2 =? 1)) as Hodd.
  { rewrite Zmod_odd. by destruct (Z.odd q). }
  assert (a / (2 * b) = q / 2) as ->.
  { symmetry. apply (Z.div_unique_pos a (2 * b) (q / 2) (b * (q mod 2) + r)).
    - destruct (Z.mod_pos_bound q 2 ltac:(lia)). nia.
    - nia. }
  assert (a mod (2 * b) = b * (q mod 2) + r) as ->.
  { symmetry. apply (Z.mod_unique_pos a (2 * b) (q / 2) (b * (q mod 2) + r)).
    - destruct (Z.mod_pos_bound q 2 ltac:(lia)). nia.
    - nia. }
  assert (q mod 2 = 0 ∨ q mod 2 = 1) as Hc
    by (destruct (Z.mod_pos_bound q 2 ltac:(lia)); lia).
  rewrite !shr_record_of_loc_frac by (destruct Hc as [Hc|Hc]; rewrite ?Hc; lia).
  rewrite shr_1_div2 by done. rewrite Hodd.
  destruct Hc as [-> | ->]; cbn [Z.eqb]; f_equal.
  - symmetry. apply Z.leb_gt. lia.
  - destruct (Z.leb_spec b (2 * r)), (Z.eqb_spec r 0), (Z.eqb_spec (2 * r) b),
      (Z.eqb_spec (b * 0 + r) 0),
      (Z.eqb_spec (2 * (b * 0 + r)) (2 * b)); cbn; first [done | lia].
  - symmetry. apply Z.leb_le. lia.
  - destruct (Z.leb_spec b (2 * r)), (Z.eqb_spec r 0), (Z.eqb_spec (2 * r) b),
      (Z.eqb_spec (b * 1 + r) 0),
      (Z.eqb_spec (2 * (b * 1 + r)) (2 * b)); cbn; first [done | lia].
Qed.

Lemma iter_shr_1_frac n a b :
  0 ≤ a → 0 < b →
  Nat.iter n shr_1 (shr_frac a b) = shr_frac a (b * 2 ^ Z.of_nat n).
Proof.
  intros Ha Hb. induction n as [|n IH].
  - simpl. by rewrite Z.mul_1_r.
  - rewrite Nat.iter_succ, IH, shr_1_frac by (try apply Z.mul_pos_pos; lia).
    f_equal. rewrite Nat2Z.inj_succ, Z.pow_succ_r by lia. ring.
Qed.

Lemma shr_shr_frac a b e n :
  0 ≤ a → 0 < b → 0 ≤ n →
  shr (shr_frac a b) e n = (shr_frac a (b * 2 ^ n), e + n).
Proof.
  intros Ha Hb Hn. destruct n as [|p|p]; [| |lia].
  - simpl. by rewrite Z.mul_1_r, Z.add_0_r.
  - unfold shr. rewrite iter_pos_nat, iter_shr_1_frac by done.
    by rewrite positive_nat_Z.
Qed.

Lemma round_nearest_even_frac a b :
  0 < b →
  round_nearest_even (shr_m (shr_frac a b)) (loc_of_shr_record (shr_frac a b))
  = F64.half_even (a / b) (a mod b) b.
Proof.
  intros Hb. pose proof (Z.mod_pos_bound a b Hb) as Hr.
  unfold shr_frac, loc_frac, F64.half_even.
  destruct (Z.eqb_spec (a mod b) 0) as [E|E].
  - rewrite E. cbn. destruct b; try lia. done.
  - by destruct (2 * (a mod b) ?= b).
Qed.

(** Rounding the quotient [a / b], held at exponent [e], to the format:
    [n] more bits are dropped and the mantissa is rounded to nearest,
    ties to even. *)
Lemma binary_round_aux_frac s a b e n M :
  0 ≤ a → 0 < b →
  n = Z.max 0 (SpecFloat.fexp prec emax (Zdigits2 (a / b) + e) - e) →
  M = F64.half_even (a / (b * 2 ^ n)) (a mod (b * 2 ^ n)) (b * 2 ^ n) →
  0 < M < 2 ^ 53 → -1074 ≤ e + n ≤ 971 →
  binary_round_aux prec emax s (a / b) e (loc_frac (a mod b) b)
  = S754_finite s (Z.to_pos M) (e + n).
Proof.
  intros Ha Hb Hn HM HMb He.
  unfold binary_round_aux, shr_fexp. fold (shr_frac a b).
  assert (shr (shr_frac a b) e
            (SpecFloat.fexp prec emax (Zdigits2 (a / b) + e) - e)
          = (shr_frac a (b * 2 ^ n), e + n)) as ->.
  { destruct (Z.le_gt_cases 0 (SpecFloat.fexp prec emax (Zdigits2 (a / b) + e) - e))
      as [Hpos|Hneg].
    - rewrite shr_shr_frac by done. by replace n with
        (SpecFloat.fexp prec emax (Zdigits2 (a / b) + e) - e) by lia.
    - replace n with 0 by lia. rewrite Z.mul_1_r, Z.add_0_r.
      unfold shr. by destruct (_ - e) as [|p|p]; try lia. }
  rewrite round_nearest_even_frac by (apply Z.mul_pos_pos; lia).
  rewrite <- HM. cbn [shr_record_of_loc].
  pose proof (digits_le_53 M HMb) as HD.
  assert (SpecFloat.fexp prec emax (Zdigits2 M + (e + n)) - (e + n) ≤ 0) as Hno.
  { unfold SpecFloat.fexp, SpecFloat.emin, F64.prec, F64.emax. lia. }
  unfold shr. destruct (_ - (e + n)) as [|p|p]; try lia; cbn [shr_m];
    destruct M as [|pM|pM]; try lia;
    replace (e + n <=? emax - prec) with true
      by (symmetry; apply Z.leb_le; unfold F64.prec, F64.emax; lia); done.
Qed.

End Rounding.

Section TenthsRounded.

Local Abbreviation prec := F64.prec.
Local Abbreviation emax := F64.emax.

Lemma Zdigits2_eq m k : 0 < k → 2 ^ (k - 1) ≤ m < 2 ^ k → Zdigits2 m = k.
Proof.
  intros Hk [Hlo Hhi].
  assert (0 < m) as Hm by (pose proof (Z.pow_pos_nonneg 2 (k - 1)); lia).
  rewrite Zdigits2_log2 by done.
  rewrite (Z.log2_unique m (k - 1)); [lia|lia|].
  by replace (Z.succ (k - 1)) with k by lia.
Qed.

(** The mantissa of an integer below [2^53], normalised to 53 bits. *)
Lemma normalised_bounds t :
  0 < t < 2 ^ 53 →
  2 ^ 52 ≤ t * 2 ^ (53 - Zdigits2 t) < 2 ^ 53.
Proof.
  intros Ht. pose proof (digits_le_53 t Ht) as HD.
  pose proof (Zdigits2_bound t ltac:(lia)) as [Hlo Hhi].
  set (D := Zdigits2 t) in *.
  assert (0 < 2 ^ (53 - D)) as Hp by (apply Z.pow_pos_nonneg; lia).
  split.
  - replace 52 with ((D - 1) + (53 - D)) by lia. rewrite Z.pow_add_r by lia. nia.
  - replace 53 with (D + (53 - D)) at 2 by lia. rewrite Z.pow_add_r by lia. nia.
Qed.

(** [t / 10] as a float64, for an integer [t] below [2^53] with normalised
    mantissa [T]: the mantissa [M] of the quotient is the integer nearest
    to [8 T / 5] or to [4 T / 5]. *)
Lemma div_ten_spec s t :
  0 < t < 2 ^ 53 →
  let D := Zdigits2 t in
  let T := t * 2 ^ (53 - D) in
  ∃ M n,
    F64.div (F64.of_Z s (cond_Zopp s t)) F64.ten
    = S754_finite s (Z.to_pos M) (D - 57 + n)
    ∧ 2 ^ 52 ≤ M < 2 ^ 53
    ∧ ((n = 0 ∧ 4 * T < 5 * 2 ^ 52 ∧ -2 ≤ 5 * M - 8 * T ≤ 2)
       ∨ (n = 1 ∧ 5 * 2 ^ 52 ≤ 4 * T ∧ -2 ≤ 5 * M - 4 * T ≤ 2)).
Proof.
  intros Ht D T. pose proof (digits_le_53 t Ht) as HD.
  pose proof (normalised_bounds t Ht) as HT. fold D T in HT, HD.
  rewrite of_Z_exact by done.
  unfold F64.div, F64.ten, SFdiv.
  rewrite !Z2Pos.id by (fold D T; lia).
  rewrite div_core_normalised by done.
  unfold SFdiv_core_binary. change (Zdigits2 10) with 4. fold D.
  replace (SpecFloat.fexp prec emax (D + 0 - (4 + 0))) with (D - 57).
  2:{ unfold SpecFloat.fexp, SpecFloat.emin, F64.prec, F64.emax. lia. }
  replace (Z.min (D - 57) (0 - 0)) with (D - 57) by lia.
  destruct (0 - 0 - (D - 57)) as [|p|p] eqn:Ep; try lia.
  rewrite Z.shiftl_mul_pow2 by lia. rewrite div_eucl_pair, xorb_false_r.
  assert (t * 2 ^ Z.pos p = 16 * T) as ->.
  { unfold T. replace (Z.pos p) with (4 + (53 - D)) by lia.
    rewrite Z.pow_add_r by lia. change (2 ^ 4) with 16. ring. }
  pose proof (Z.div_mod (16 * T) 10 ltac:(lia)) as E10.
  pose proof (Z.mod_pos_bound (16 * T) 10 ltac:(lia)) as H10.
  rewrite new_location_frac by lia.
  destruct (Z.lt_ge_cases (4 * T) (5 * 2 ^ 52)) as [Hsmall|Hbig].
  - (* the quotient has 53 bits *)
    assert (Zdigits2 (16 * T / 10) = 53) as Hdig by (apply Zdigits2_eq; lia).
    set (M := F64.half_even (16 * T / 10) ((16 * T) mod 10) 10).
    assert (2 ^ 52 ≤ M < 2 ^ 53 ∧ -2 ≤ 5 * M - 8 * T ≤ 2) as [HM1 HM2].
    { unfold M, F64.half_even.
      destruct (Z.compare_spec (2 * ((16 * T) mod 10)) 10);
        [destruct (Z.even (16 * T / 10))| |]; lia. }
    exists M, 0. split; [|split; [done|left; done]].
    apply (binary_round_aux_frac s (16 * T) 10 (D - 57) 0 M); try lia.
    + rewrite Hdig. unfold SpecFloat.fexp, SpecFloat.emin, F64.prec, F64.emax. lia.
    + by rewrite Z.mul_1_r.
  - (* the quotient has 54 bits *)
    assert (Zdigits2 (16 * T / 10) = 54) as Hdig by (apply Zdigits2_eq; lia).
    pose proof (Z.div_mod (16 * T) 20 ltac:(lia)) as E20.
    pose proof (Z.mod_pos_bound (16 * T) 20 ltac:(lia)) as H20.
    set (M := F64.half_even (16 * T / 20) ((16 * T) mod 20) 20).
    assert (2 ^ 52 ≤ M < 2 ^ 53 ∧ -2 ≤ 5 * M - 4 * T ≤ 2) as [HM1 HM2].
    { unfold M, F64.half_even.
      destruct (Z.compare_spec (2 * ((16 * T) mod 20)) 20);
        [destruct (Z.even (16 * T / 20))| |]; lia. }
    exists M, 1. split; [|split; [done|right; done]].
    apply (binary_round_aux_frac s (16 * T) 10 (D - 57) 1 M); try lia.
    + rewrite Hdig. unfold SpecFloat.fexp, SpecFloat.emin, F64.prec, F64.emax. lia.
    + done.
Qed.

End TenthsRounded.

Section TenthsKept.

Local Abbreviation prec := F64.prec.
Local Abbreviation emax := F64.emax.

Lemma half_even_scale q r d c :
  0 < c → F64.half_even q (r * c) (d * c) = F64.half_even q r d.
Proof.
  intros Hc. unfold F64.half_even.
  replace (2 * (r * c)) with (2 * r * c) by ring.
  destruct (Z.compare_spec (2 * r) d) as [E|E|E].
  - replace (2 * r * c ?= d * c) with Eq; [done|].
    symmetry. apply Z.compare_eq_iff. by rewrite E.
  - replace (2 * r * c ?= d * c) with Lt; [done|].
    symmetry. apply Z.compare_lt_iff. nia.
  - replace (2 * r * c ?= d * c) with Gt; [done|].
    symmetry. apply Z.compare_gt_iff. nia.
Qed.

(** An exact product rounded to the format: [n] low bits of [g * 2^j] are
    dropped, [j] of them zeros. *)
Lemma binary_round_aux_shift s g j e n k M :
  0 < g → 0 ≤ j ≤ n → k = n - j →
  n = Z.max 0 (SpecFloat.fexp prec emax (Zdigits2 (g * 2 ^ j) + e) - e) →
  M = F64.half_even (g / 2 ^ k) (g mod 2 ^ k) (2 ^ k) →
  0 < M < 2 ^ 53 → -1074 ≤ e + n ≤ 971 →
  binary_round_aux prec emax s (g * 2 ^ j) e loc_Exact
  = S754_finite s (Z.to_pos M) (e + n).
Proof.
  intros Hg Hj Hk Hn HM HMb He.
  assert (0 < 2 ^ j) as Hpj by (apply Z.pow_pos_nonneg; lia).
  assert (0 < 2 ^ k) as Hpk by (apply Z.pow_pos_nonneg; lia).
  pose proof (binary_round_aux_frac s (g * 2 ^ j) 1 e n M) as H.
  rewrite Z.div_1_r, Z.mod_1_r in H. apply H; try lia.
  rewrite Z.mul_1_l.
  replace (2 ^ n) with (2 ^ k * 2 ^ j).
  2:{ rewrite <- Z.pow_add_r by lia. f_equal. lia. }
  rewrite Z.div_mul_cancel_r, Z.mul_mod_distr_r by lia.
  by rewrite half_even_scale.
Qed.

Lemma rint_of_Z s t :
  0 < t < 2 ^ 53 →
  F64.rint (F64.of_Z s (cond_Zopp s t)) = F64.of_Z s (cond_Zopp s t).
Proof.
  intros Ht. pose proof (digits_le_53 t Ht) as HD.
  rewrite of_Z_exact at 1 by done. unfold F64.rint.
  destruct (Z.leb_spec 0 (Zdigits2 t - 53)) as [H0|Hneg].
  { by rewrite of_Z_exact. }
  set (d := 2 ^ (- (Zdigits2 t - 53))).
  assert (0 < d) as Hd by (apply Z.pow_pos_nonneg; lia).
  rewrite Z2Pos.id.
  2:{ apply Z.mul_pos_pos; [lia|apply Z.pow_pos_nonneg; lia]. }
  replace (2 ^ (53 - Zdigits2 t)) with d by (unfold d; f_equal; lia).
  rewrite Z.div_mul, Z.mod_mul by lia.
  unfold F64.half_even.
  replace (2 * 0 ?= d) with Lt by (symmetry; apply Z.compare_lt_iff; lia).
  done.
Qed.

(** Ten times the float nearest to [t / 10] rounds to [t]. *)
Lemma mul_ten_tenth s t :
  0 < t ≤ 2 ^ 52 →
  F64.mul (F64.div (F64.of_Z s (cond_Zopp s t)) F64.ten) F64.ten
  = F64.of_Z s (cond_Zopp s t).
Proof.
  intros Ht. assert (0 < t < 2 ^ 53) as Ht' by lia.
  pose proof (digits_le_53 t Ht') as HD.
  pose proof (normalised_bounds t Ht') as HT.
  destruct (div_ten_spec s t Ht') as (M & n & -> & HM & Hcase).
  rewrite of_Z_exact by done.
  set (D := Zdigits2 t) in *. set (T := t * 2 ^ (53 - D)) in *.
  unfold F64.mul, F64.ten, SFmul. rewrite xorb_false_r.
  rewrite Pos2Z.inj_mul, Z2Pos.id by lia.
  change (Z.pos 5629499534213120) with (5 * 2 ^ 50).
  rewrite Z.mul_assoc.
  assert (Zdigits2 (M * 5 * 2 ^ 50) = Zdigits2 (M * 5) + 50) as Hdig
    by (apply Zdigits2_mul_pow2; lia).
  destruct Hcase as [(-> & Hs & Hr)|(-> & Hs & Hr)].
  - (* 53 bits are dropped *)
    assert (Zdigits2 (M * 5) = 56) as Hd5 by (apply Zdigits2_eq; lia).
    pose proof (Z.div_mod (M * 5) 8 ltac:(lia)) as E8.
    pose proof (Z.mod_pos_bound (M * 5) 8 ltac:(lia)) as H8.
    rewrite (binary_round_aux_shift s (M * 5) 50 (D - 57 + 0 + -49) 53 3 T);
      try lia.
    + f_equal. lia.
    + rewrite Hdig, Hd5. unfold SpecFloat.fexp, SpecFloat.emin, F64.prec, F64.emax. lia.
    + change (2 ^ 3) with 8. unfold F64.half_even.
      destruct (Z.compare_spec (2 * ((M * 5) mod 8)) 8);
        [destruct (Z.even (M * 5 / 8))| |]; lia.
  - (* 52 bits are dropped; [T] is even *)
    assert (D ≤ 52) as HD52.
    { destruct (Z.eq_dec D 53) as [E|]; [|lia].
      pose proof (Zdigits2_bound t ltac:(lia)) as [Hlo _]. fold D in Hlo.
      rewrite E in Hlo. change (2 ^ (53 - 1)) with (2 ^ 52) in Hlo.
      assert (t = 2 ^ 52) as Et by lia.
      unfold T in Hs. rewrite E, Et in Hs. simpl in Hs. lia. }
    assert (∃ h, T = 2 * h) as [h Hh].
    { exists (t * 2 ^ (52 - D)). unfold T.
      replace (53 - D) with (Z.succ (52 - D)) by lia.
      rewrite Z.pow_succ_r by lia. ring. }
    assert (Zdigits2 (M * 5) = 55) as Hd5 by (apply Zdigits2_eq; lia).
    pose proof (Z.div_mod (M * 5) 4 ltac:(lia)) as E4.
    pose proof (Z.mod_pos_bound (M * 5) 4 ltac:(lia)) as H4.
    rewrite (binary_round_aux_shift s (M * 5) 50 (D - 57 + 1 + -49) 52 2 T);
      try lia.
    + f_equal. lia.
    + rewrite Hdig, Hd5. unfold SpecFloat.fexp, SpecFloat.emin, F64.prec, F64.emax. lia.
    + change (2 ^ 2) with 4. unfold F64.half_even.
      destruct (Z.compare_spec (2 * ((M * 5) mod 4)) 4) as [E|E|E].
      * destruct (Z.even (M * 5 / 4)) eqn:Hev.
        -- apply Z.even_spec in Hev as [c Hc]. lia.
        -- rewrite <- Z.negb_odd in Hev. apply negb_false_iff in Hev.
           apply Z.odd_spec in Hev as [c Hc]. lia.
      * lia.
      * lia.
Qed.

(** Rounding to one decimal keeps the float nearest to [t / 10]. *)
Lemma round1_tenth s t :
  0 < t ≤ 2 ^ 52 →
  F64.round1 (F64.div (F64.of_Z s (cond_Zopp s t)) F64.ten)
  = F64.div (F64.of_Z s (cond_Zopp s t)) F64.ten.
Proof.
  intros Ht. unfold F64.round1.
  rewrite mul_ten_tenth by done. by rewrite rint_of_Z by lia.
Qed.

End TenthsKept.

Section Idempotent.

Local Abbreviation prec := F64.prec.
Local Abbreviation emax := F64.emax.

Lemma is_float64_finite s m e :
  is_float64 (S754_finite s m e) = true →
  Z.pos m < 2 ^ 53 ∧ -1074 ≤ e ∧ e = SpecFloat.fexp prec emax (Zdigits2 (Z.pos m) + e).
Proof.
  unfold is_float64, valid_binary, bounded, canonical_mantissa.
  intros H. apply andb_true_iff in H as [H1 H2].
  apply Z.eqb_eq in H1. change (Z.pos (digits2_pos m)) with (Zdigits2 (Z.pos m)) in H1.
  pose proof (Zdigits2_bound (Z.pos m) ltac:(lia)) as [Hlo Hhi].
  unfold SpecFloat.fexp, SpecFloat.emin, F64.prec, F64.emax in *.
  split; [|lia].
  destruct (Z.le_gt_cases (Zdigits2 (Z.pos m)) 53) as [Hle|Hgt]; [|lia].
  assert (2 ^ Zdigits2 (Z.pos m) ≤ 2 ^ 53) by (apply Z.pow_le_mono_r; lia). lia.
Qed.

(** Ten times a float below [2^52 / 10]: a float with a negative
    exponent. *)
Lemma mul_ten_small s m e :
  is_float64 (S754_finite s m e) = true →
  below_2_52_tenths (S754_finite s m e) = true →
  ∃ k M, 0 ≤ k
    ∧ M = F64.half_even (10 * Z.pos m / 2 ^ k) ((10 * Z.pos m) mod 2 ^ k) (2 ^ k)
    ∧ F64.mul (S754_finite s m e) F64.ten = S754_finite s (Z.to_pos M) (e + k)
    ∧ 0 < M < 2 ^ 53 ∧ e + k < 0.
Proof.
  intros Hv Hb. apply is_float64_finite in Hv as (Hm & He & Hcan).
  set (g := 10 * Z.pos m).
  assert (0 < g < 10 * 2 ^ 53) as Hg by (unfold g; lia).
  pose proof (Zdigits2_bound g ltac:(lia)) as [Hlo Hhi].
  pose proof (Zdigits2_bound (Z.pos m) ltac:(lia)) as [Hlom Hhim].
  set (dg := Zdigits2 g) in *. set (dm := Zdigits2 (Z.pos m)) in *.
  assert (dm ≤ dg) as Hmono by (apply Zdigits2_mono; unfold g; lia).
  assert (1 ≤ dm) as Hdm1.
  { unfold dm. rewrite Zdigits2_log2 by lia. pose proof (Z.log2_nonneg (Z.pos m)). lia. }
  assert (dg ≤ 57) as Hdg57.
  { destruct (Z.le_gt_cases dg 57) as [|Hgt]; [done|].
    assert (2 ^ 57 ≤ 2 ^ (dg - 1)) by (apply Z.pow_le_mono_r; lia). lia. }
  (* the bound gives a negative exponent to the product *)
  assert (e < 0 ∧ dg ≤ 52 - e) as [Hneg Hdge].
  { unfold below_2_52_tenths in Hb.
    destruct (Z.leb_spec 0 e) as [Hpos|Hn].
    - apply Z.ltb_lt in Hb.
      assert (dm = 53) as Hd53.
      { unfold SpecFloat.fexp, SpecFloat.emin, F64.prec, F64.emax in Hcan. lia. }
      rewrite Hd53 in Hlom. change (2 ^ (53 - 1)) with (2 ^ 52) in Hlom.
      assert (1 ≤ 2 ^ e) by (pose proof (Z.pow_pos_nonneg 2 e); lia). nia.
    - split; [done|]. apply Z.ltb_lt in Hb. fold g in Hb.
      rewrite <- Z.pow_add_r in Hb by lia.
      destruct (Z.le_gt_cases dg (52 - e)) as [|Hgt]; [done|].
      assert (2 ^ (52 + - e) ≤ 2 ^ (dg - 1)) by (apply Z.pow_le_mono_r; lia). lia. }
  assert (∃ k, 0 ≤ k ≤ 4 ∧ k = Z.max (dg - 53) 0
               ∧ SpecFloat.fexp prec emax (dg + e) - e = k) as (k & Hk4 & Hkd & Hk).
  { exists (Z.max (dg - 53) 0). split; [lia|]. split; [done|].
    unfold SpecFloat.fexp, SpecFloat.emin, F64.prec, F64.emax in *. lia. }
  assert (g < 2 ^ k * 2 ^ 53) as Hghi.
  { rewrite <- Z.pow_add_r by lia.
    eapply Z.lt_le_trans; [exact Hhi|]. apply Z.pow_le_mono_r; lia. }
  assert (2 ^ k ≤ g) as Hglo.
  { eapply Z.le_trans; [|exact Hlo]. apply Z.pow_le_mono_r; lia. }
  set (M := F64.half_even (g / 2 ^ k) (g mod 2 ^ k) (2 ^ k)).
  assert (0 < M < 2 ^ 53) as HM.
  { unfold M, F64.half_even. clear M Hk Hkd Hlo Hhi.
    assert (g = 10 * Z.pos m) as Hgm by reflexivity. clearbody g.
    assert (∃ c, 2 ^ k = c ∧ (c = 1 ∨ c = 2 ∨ c = 4 ∨ c = 8 ∨ c = 16))
      as (c & Hc2 & Hc).
    { assert (k = 0 ∨ k = 1 ∨ k = 2 ∨ k = 3 ∨ k = 4) as Hcases by lia.
      destruct Hcases as [E|[E|[E|[E|E]]]]; subst k; eexists;
        (split; [reflexivity|]); cbv; tauto. }
    rewrite Hc2 in *. clear Hc2.
    destruct Hc as [E|[E|[E|[E|E]]]]; subst c;
      match goal with
      | |- context [g mod ?c] =>
          pose proof (Z.div_mod g c ltac:(lia));
          pose proof (Z.mod_pos_bound g c ltac:(lia));
          destruct (Z.compare_spec (2 * (g mod c)) c);
            [destruct (Z.even (g / c))| |]; lia
      end. }
  exists k, M. split; [lia|]. split; [done|]. split; [|split; [done|lia]].
  unfold F64.mul, F64.ten, SFmul. rewrite xorb_false_r.
  rewrite Pos2Z.inj_mul.
  change (Z.pos 5629499534213120) with (10 * 2 ^ 49).
  replace (Z.pos m * (10 * 2 ^ 49)) with (g * 2 ^ 49) by (unfold g; ring).
  rewrite (binary_round_aux_shift s g 49 (e + -49) (k + 49) k M); try lia.
  - f_equal. lia.
  - rewrite Zdigits2_mul_pow2 by lia. fold dg.
    replace (dg + 49 + (e + -49)) with (dg + e) by lia. lia.
Qed.

(** The nearest integer to a float with a negative exponent, as
    [numpy.rint] gives it. *)
Lemma rint_small s M E :
  0 < M < 2 ^ 53 → E < 0 →
  ∃ n, 0 ≤ n ≤ 2 ^ 52
       ∧ n = F64.half_even (M / 2 ^ (- E)) (M mod 2 ^ (- E)) (2 ^ (- E))
       ∧ F64.rint (S754_finite s (Z.to_pos M) E) = F64.of_Z s (cond_Zopp s n).
Proof.
  intros HM HE. unfold F64.rint.
  replace (0 <=? E) with false by (symmetry; apply Z.leb_gt; lia).
  rewrite Z2Pos.id by lia.
  set (d := 2 ^ (- E)).
  assert (2 ≤ d).
  { unfold d. replace (- E) with (Z.succ (- E - 1)) by lia.
    rewrite Z.pow_succ_r by lia.
    pose proof (Z.pow_pos_nonneg 2 (- E - 1)). lia. }
  eexists. split; [|split; reflexivity].
  pose proof (Z.div_mod M d ltac:(lia)).
  pose proof (Z.mod_pos_bound M d ltac:(lia)).
  assert (0 ≤ M / d) by (apply Z.div_pos; lia).
  assert (M / d < 2 ^ 52) by (apply Z.div_lt_upper_bound; lia).
  unfold F64.half_even.
  destruct (2 * (M mod d) ?= d); [destruct (Z.even (M / d))| |]; lia.
Qed.

(** What [round1] gives below [2^52 / 10] is the float nearest to a whole
    number of tenths. *)
Lemma round1_small s m e :
  is_float64 (S754_finite s m e) = true →
  below_2_52_tenths (S754_finite s m e) = true →
  ∃ n, 0 ≤ n ≤ 2 ^ 52
       ∧ F64.round1 (S754_finite s m e)
         = F64.div (F64.of_Z s (cond_Zopp s n)) F64.ten.
Proof.
  intros Hv Hb.
  destruct (mul_ten_small s m e Hv Hb) as (k & M & _ & _ & HM & HMb & HE).
  destruct (rint_small s M (e + k) HMb HE) as (n & Hn & _ & Hr).
  exists n. split; [done|]. unfold F64.round1. by rewrite HM, Hr.
Qed.

Lemma round1_round1 x :
  is_float64 x = true → below_2_52_tenths x = true →
  F64.round1 (F64.round1 x) = F64.round1 x.
Proof.
  intros Hv Hb. destruct x as [s| | |s m e]; try discriminate.
  - by destruct s.
  - destruct (round1_small s m e Hv Hb) as (n & Hn & ->).
    destruct (Z.eq_dec n 0) as [->|Hn0]; [by destruct s|].
    apply round1_tenth. lia.
Qed.

End Idempotent.

(** ** The digits of a rounded value *)

Section Printable.

Local Abbreviation prec := F64.prec.
Local Abbreviation emax := F64.emax.

(** The float nearest to [n / 10]: its mantissa, exponent, and distance
    to [n / 10]. *)
Lemma tenth_spec s n :
  0 < n ≤ 2 ^ 52 →
  ∃ M E d,
    F64.div (F64.of_Z s (cond_Zopp s n)) F64.ten = S754_finite s (Z.to_pos M) E
    ∧ 2 ^ 52 ≤ M < 2 ^ 53 ∧ -56 ≤ E ≤ -4 ∧ d = 2 ^ (- E)
    ∧ -d ≤ 4 * (10 * M - n * d) ≤ d ∧ d ≤ 10 * M.
Proof.
  intros Hn. assert (0 < n < 2 ^ 53) as Hn' by lia.
  pose proof (digits_le_53 n Hn') as HD.
  pose proof (normalised_bounds n Hn') as HT.
  pose proof (Zdigits2_bound n ltac:(lia)) as [Hlo Hhi].
  destruct (div_ten_spec s n Hn') as (M & k & HM & HMb & Hcase).
  set (D := Zdigits2 n) in *. set (u := 2 ^ (53 - D)) in *.
  assert (1 ≤ u) as Hu by (pose proof (Z.pow_pos_nonneg 2 (53 - D)); unfold u; lia).
  assert (n = 1 → D = 1) as HD1 by (intros ->; reflexivity).
  destruct Hcase as [(-> & Hs & Hr)|(-> & Hs & Hr)].
  - exists M, (D - 57 + 0), (16 * u).
    split; [done|]. split; [done|]. split; [lia|]. split.
    { unfold u. change 16 with (2 ^ 4). rewrite <- Z.pow_add_r by lia. f_equal. lia. }
    split; [nia|].
    destruct (Z.eq_dec n 1) as [E1|E1].
    + assert (u = 2 ^ 52) as -> by (unfold u; rewrite (HD1 E1); reflexivity). lia.
    + nia.
  - assert (D ≤ 52) as HD52.
    { destruct (Z.eq_dec D 53) as [E|]; [|lia].
      rewrite E in Hlo. change (2 ^ (53 - 1)) with (2 ^ 52) in Hlo.
      assert (n = 2 ^ 52) as En by lia.
      unfold u in Hs. rewrite E, En in Hs. simpl in Hs. lia. }
    assert (∃ h, u = 2 * h ∧ 1 ≤ h) as (h & Hh & Hh1).
    { exists (2 ^ (52 - D)). split.
      - unfold u. replace (53 - D) with (Z.succ (52 - D)) by lia.
        by rewrite Z.pow_succ_r by lia.
      - pose proof (Z.pow_pos_nonneg 2 (52 - D)). lia. }
    exists M, (D - 57 + 1), (8 * u).
    split; [done|]. split; [done|]. split; [lia|]. split.
    { unfold u. change 8 with (2 ^ 3). rewrite <- Z.pow_add_r by lia. f_equal. lia. }
    split; [nia|].
    destruct (Z.eq_dec n 1) as [E1|E1].
    + rewrite (HD1 E1) in HD52. subst n.
      assert (u = 2 ^ 52) as Eu by (unfold u; rewrite (HD1 eq_refl); reflexivity).
      lia.
    + nia.
Qed.

Lemma first_above_start fuel n d p : p ≤ Repr.first_above fuel n d p.
Proof.
  revert p. induction fuel as [|fuel IH]; intros p; cbn [Repr.first_above]; [lia|].
  destruct (Repr.below_pow10 n d p); [lia|]. specialize (IH (p + 1)). lia.
Qed.

Lemma first_above_le fuel n d p P :
  p ≤ P → Repr.below_pow10 n d P = true → Repr.first_above fuel n d p ≤ P.
Proof.
  revert p. induction fuel as [|fuel IH]; intros p Hp HP; cbn [Repr.first_above]; [lia|].
  destruct (Repr.below_pow10 n d p) eqn:E; [lia|].
  apply IH; [|done]. destruct (Z.eq_dec p P) as [->|]; [congruence|lia].
Qed.

Lemma first_above_ge fuel n d p P :
  P ≤ p + Z.of_nat fuel →
  (∀ p', p ≤ p' < P → Repr.below_pow10 n d p' = false) →
  P ≤ Repr.first_above fuel n d p.
Proof.
  revert p. induction fuel as [|fuel IH]; intros p Hp H; cbn [Repr.first_above]; [lia|].
  destruct (Repr.below_pow10 n d p) eqn:E.
  - destruct (Z.le_gt_cases P p) as [|Hlt]; [done|].
    rewrite H in E by lia. discriminate.
  - destruct (Z.le_gt_cases P p) as [|Hlt].
    + pose proof (first_above_start fuel n d (p + 1)). lia.
    + apply IH; [lia|]. intros p' Hp'. apply H. lia.
Qed.

(** The decimal point of a float between [1/10] and [2^53] is found within
    the first 16 places. *)
Lemma decpt_bounds M E :
  2 ^ 52 ≤ M < 2 ^ 53 → -56 ≤ E ≤ -4 → 2 ^ (- E) ≤ 10 * M →
  0 ≤ Repr.decpt (Z.to_pos M) E ≤ 16.
Proof.
  intros HM HE Hx. unfold Repr.decpt.
  assert (Z.pos (digits2_pos (Z.to_pos M)) = 53) as ->.
  { change (Z.pos (digits2_pos (Z.to_pos M))) with (Zdigits2 (Z.pos (Z.to_pos M))).
    rewrite Z2Pos.id by lia. apply Zdigits2_eq; lia. }
  unfold Repr.num, Repr.den.
  replace (0 <=? E) with false by (symmetry; apply Z.leb_gt; lia).
  rewrite Z2Pos.id by lia.
  set (d := 2 ^ (- E)) in *.
  assert (0 < d) as Hd by (apply Z.pow_pos_nonneg; lia).
  set (p0 := (53 + E - 1) * 30103 / 100000 - 1).
  assert (-3 ≤ p0 ≤ 13) as Hp0.
  { unfold p0.
    assert (-2 ≤ (53 + E - 1) * 30103 / 100000) by (apply Z.div_le_lower_bound; lia).
    assert ((53 + E - 1) * 30103 / 100000 < 15)
      by (apply Z.div_lt_upper_bound; lia).
    lia. }
  split.
  - apply first_above_ge; [lia|].
    intros p' Hp'. unfold Repr.below_pow10.
    replace (0 <=? p') with false by (symmetry; apply Z.leb_gt; lia).
    apply Z.ltb_ge.
    assert (10 ≤ 10 ^ (- p')).
    { change 10 with (10 ^ 1) at 1. apply Z.pow_le_mono_r; lia. }
    nia.
  - apply first_above_le; [lia|].
    unfold Repr.below_pow10. cbn [Z.leb Z.compare]. apply Z.ltb_lt.
    assert (M < 10 ^ 16) by lia. nia.
Qed.

Lemma SFeqb_refl s m e : SFeqb (S754_finite s m e) (S754_finite s m e) = true.
Proof.
  unfold SFeqb, SFcompare. rewrite Z.compare_refl.
  change (Pos.compare_cont Eq m m) with (Pos.compare m m).
  rewrite Pos.compare_refl. by destruct s.
Qed.

Lemma search_finds fuel x m e p n i :
  (i < fuel)%nat → Repr.candidate x m e p (n + Z.of_nat i) ≠ None →
  Repr.search fuel x m e p n ≠ None.
Proof.
  revert n i. induction fuel as [|fuel IH]; intros n i Hi Hc; [lia|].
  cbn [Repr.search]. destruct (Repr.candidate x m e p n) eqn:E; [done|].
  destruct i as [|i].
  - rewrite Z.add_0_r in Hc. congruence.
  - apply (IH (n + 1) i); [lia|].
    by replace (n + 1 + Z.of_nat i) with (n + Z.of_nat (S i)) by lia.
Qed.

(** The digits of the float nearest to [n / 10] are found: reading
    [n] tenths back gives it. *)
Lemma shortest_tenth n :
  0 < n ≤ 2 ^ 52 →
  ∃ M E, F64.div (F64.of_Z false n) F64.ten = S754_finite false (Z.to_pos M) E
         ∧ Repr.shortest (Z.to_pos M) E ≠ None.
Proof.
  intros Hn.
  destruct (tenth_spec false n Hn) as (M & E & d & HME & HM & HE & Hd & Hr & Hx).
  simpl cond_Zopp in HME. exists M, E. split; [done|].
  pose proof (decpt_bounds M E HM HE ltac:(by rewrite <- Hd)) as Hp.
  unfold Repr.shortest. set (p := Repr.decpt (Z.to_pos M) E) in *.
  apply (search_finds 17 _ _ _ _ 1 (Z.to_nat p)); [lia|].
  rewrite Z2Nat.id by lia.
  unfold Repr.candidate.
  replace (p - (1 + p)) with (-1) by lia.
  change (0 <=? -1) with false. cbn iota.
  unfold Repr.num, Repr.den.
  replace (0 <=? E) with false by (symmetry; apply Z.leb_gt; lia).
  rewrite Z2Pos.id by lia. rewrite <- Hd.
  change (10 ^ (- -1)) with 10.
  assert (0 < d) as Hdpos by (rewrite Hd; apply Z.pow_pos_nonneg; lia).
  assert (Repr.reads_back (S754_finite false (Z.to_pos M) E) n (-1) = true) as Hback.
  { unfold Repr.reads_back. destruct n as [|pn|pn]; try lia.
    pose proof (div_ten_tenths false (Z.pos pn) ltac:(lia)) as H.
    simpl cond_Zopp in H. cbn [id] in H. rewrite Pos2Z.id in H.
    unfold id in H. rewrite <- H, HME. apply SFeqb_refl. }
  destruct (Z.le_gt_cases 0 (10 * M - n * d)) as [Hpos|Hneg].
  - assert (M * 10 / d = n) as ->.
    { symmetry. apply (Z.div_unique_pos _ _ _ (10 * M - n * d)); lia. }
    rewrite Hback.
    destruct (_ && _); [destruct (_ ?= _); [destruct (Z.even _)| |]|]; done.
  - assert (M * 10 / d = n - 1) as ->.
    { symmetry. apply (Z.div_unique_pos _ _ _ (10 * M - n * d + d)); lia. }
    assert ((M * 10) mod d = 10 * M - n * d + d) as ->.
    { symmetry. apply (Z.mod_unique_pos _ _ (n - 1)); lia. }
    replace (n - 1 + 1) with n by lia. rewrite Hback.
    replace (10 * M - n * d + d =? 0) with false by (symmetry; apply Z.eqb_neq; lia).
    cbn [negb andb].
    destruct (Repr.reads_back _ (n - 1) (-1));
      [destruct (_ ?= _); [destruct (Z.even _)| |]|]; done.
Qed.

Lemma printable_tenth s n :
  0 ≤ n ≤ 2 ^ 52 →
  printable (PyFloat (F64.div (F64.of_Z s (cond_Zopp s n)) F64.ten)) = true.
Proof.
  intros Hn. destruct (Z.eq_dec n 0) as [->|Hn0]; [by destruct s|].
  destruct (shortest_tenth n ltac:(lia)) as (M & E & HME & Hs).
  assert (F64.div (F64.of_Z s (cond_Zopp s n)) F64.ten = S754_finite s (Z.to_pos M) E)
    as ->.
  { pose proof (div_ten_tenths false n ltac:(lia)) as Hf.
    simpl cond_Zopp in Hf. rewrite HME in Hf. unfold id in Hf.
    rewrite (div_ten_tenths s n) by lia. rewrite <- Hf. by destruct s. }
  cbn [printable]. by destruct (Repr.shortest _ _).
Qed.

(** Every float the script has rounded has a [repr]. *)
Lemma printable_round1 x :
  small_float x = true → printable (PyFloat (F64.round1 x)) = true.
Proof.
  destruct x as [s|s| |s m e]; try (by destruct s); [done|].
  cbn [small_float]. intros H. apply andb_true_iff in H as [Hv Hb].
  destruct (round1_small s m e Hv Hb) as (n & Hn & ->).
  by apply printable_tenth.
Qed.

End Printable.

(** ** Sheets of moderate numbers *)

Lemma printable_clean numeric s i v :
  plain_series numeric s = true → series_at s i = Some v →
  printable (clean_cell numeric (dtype_of s) v) = true.
Proof.
  intros Hp Hv. destruct s as [l|l|l]; cbn [series_at plain_series dtype_of] in *.
  - destruct (l !! i) as [x|] eqn:Hx; [|done]. injection Hv as <-.
    rewrite forallb_forall in Hp.
    specialize (Hp x (proj1 (list_elem_of_In _ _) (list_elem_of_lookup_2 _ _ _ Hx))).
    unfold clean_cell, fill_cell. cbn [isna].
    destruct (F64.is_nan x) eqn:Hnan; [by destruct numeric|].
    destruct numeric; cbn [round_cell].
    + by apply printable_round1.
    + by destruct x.
  - destruct (l !! i) as [n|] eqn:Hn; [|done]. injection Hv as <-.
    by destruct numeric.
  - rewrite forallb_forall in Hp.
    specialize (Hp v (proj1 (list_elem_of_In _ _) (list_elem_of_lookup_2 _ _ _ Hv))).
    unfold clean_cell, fill_cell.
    destruct (isna v) eqn:Hna; [by destruct numeric|].
    assert (round_cell object v = v) as Hr by (by destruct v).
    destruct numeric; rewrite ?Hr; destruct v as [| | |x| |]; try done;
      by destruct x.
Qed.

Lemma plain_sheet_printable df :
  plain_sheet df → all_printable (to_dict (cleaned df)).
Proof.
  intros Hp. apply Forall_forall. intros r Hr.
  unfold to_dict in Hr. apply list_elem_of_fmap in Hr as (i & -> & _).
  apply Forall_forall. intros [k v] Hv.
  apply row_record_cleaned in Hv as (src & s & v0 & Hm & Hs & Hv0 & ->).
  destruct (Hp src k Hm) as (s' & Hs' & Hplain).
  rewrite Hs in Hs'. injection Hs' as <-.
  by apply (printable_clean _ s i).
Qed.

(** X8: for a sheet whose numeric columns hold moderate numbers and whose
    other cells hold no finite float, reading the written file back gives
    the records that were written: the digits of every float are found. *)
Theorem plain_sheet_round_trip (w w' : World) (df : DataFrame) :
  wf_frame df → read_excel w = inr df → plain_sheet df →
  try_body w = (None, w') →
  ∃ text recs, transform df = inr recs
    ∧ dest w' = Some text
    ∧ Decoder.loads text = Some (Decoder.of_records recs).
Proof.
  intros Hwf E1 Hp Hb.
  assert (transform df = inr (to_dict (cleaned df))) as E2.
  { apply has_columns_ok. intros k Hk.
    apply list_elem_of_fmap in Hk as ([src dst] & -> & Hm).
    destruct (Hp src dst Hm) as (s & Hs & _). unfold has_column. cbn. by rewrite Hs. }
  destruct (try_body_success w w' df _ E1 E2 Hb) as (text & Henc & Hdest).
  exists text, (to_dict (cleaned df)). split; [done|]. split; [done|].
  apply loads_iterencode_list; [done| |].
  - by apply plain_sheet_printable.
  - by apply (transform_keys_NoDup df).
Qed.

Lemma plain_rice : plain_sheet Examples.rice.
Proof.
  intros src dst H. revert src dst H.
  assert (Forall (λ m : string * string,
                    ∃ s, column Examples.rice m.1 = Some s
                         ∧ plain_series (is_num_col m.2) s = true) relevant_cols) as HF.
  { repeat constructor; eexists; (split; [reflexivity|vm_compute; reflexivity]). }
  intros src dst H. by apply (proj1 (Forall_forall _ _) HF (src, dst)).
Qed.

Lemma plain_sheet_round_trip_witness :
  let w := Examples.world Examples.rice None in
  ∃ text recs, transform Examples.rice = inr recs
    ∧ dest (try_body w).2 = Some text
    ∧ Decoder.loads text = Some (Decoder.of_records recs).
Proof.
  intros w. apply (plain_sheet_round_trip w (try_body w).2 Examples.rice).
  - exact wf_rice.
  - reflexivity.
  - exact plain_rice.
  - vm_compute. reflexivity.
Defined.

(** ** Values with one decimal *)

(** X9: a cell of a numeric column that holds the float nearest to a number
    with one decimal, [t / 10] with [t] up to [2^52], is written as it
    is: rounding it changes nothing. *)
Theorem one_decimal_value_kept (df : DataFrame) (out : list record) (i : nat)
    (src dst : string) (l : list float) (s : bool) (t : positive) :
  wf_frame df → transform df = inr out →
  (src, dst) ∈ numeric_fields → column df src = Some (Float64 l) →
  Z.pos t ≤ 2 ^ 52 →
  l !! i = Some ((if s then SFopp else id) (Repr.of_decimal t (-1))) →
  ∃ r, out !! i = Some r
       ∧ alist_get dst r
         = Some (PyFloat ((if s then SFopp else id) (Repr.of_decimal t (-1)))).
Proof.
  intros Hwf E Hf Hs Ht Hx.
  pose proof (div_ten_tenths s (Z.pos t) ltac:(lia)) as Hd.
  rewrite Pos2Z.id in Hd. rewrite <- Hd in *.
  destruct (float_field_value df out i src dst l _ Hwf E Hf Hs Hx) as (r & Hr & Hg).
  { apply div_ten_not_nan, of_Z_not_nan. }
  exists r. split; [done|]. rewrite Hg. by rewrite round1_tenth by lia.
Qed.

Lemma one_decimal_value_kept_witness :
  ∃ r, to_dict (cleaned Examples.rice) !! 0%nat = Some r
       ∧ alist_get "carbG" r = Some (PyFloat (Repr.of_decimal 287 (-1))).
Proof.
  apply (one_decimal_value_kept Examples.rice _ 0 "carb_g" "carbG"
           [Examples.dec 287 (-1)] false 287).
  - exact wf_rice.
  - vm_compute. reflexivity.
  - apply (bool_decide_unpack _). vm_compute. reflexivity.
  - reflexivity.
  - vm_compute. discriminate.
  - reflexivity.
Defined.

(** X10: rounding a moderate value a second time changes nothing. *)
Theorem round1_idempotent (x : float) :
  small_float x = true → F64.round1 (F64.round1 x) = F64.round1 x.
Proof.
  destruct x as [s|s| |s m e]; try (by destruct s); [done|].
  cbn [small_float]. intros H. apply andb_true_iff in H as [Hv Hb].
  by apply round1_round1.
Qed.

Lemma round1_idempotent_witness :
  F64.round1 (F64.round1 (Examples.dec 130456 (-3)))
  = F64.round1 (Examples.dec 130456 (-3)).
Proof. apply (round1_idempotent (Examples.dec 130456 (-3))). vm_compute. reflexivity. Defined.

(** ** The two neighbouring tenths *)

Lemma half_even_cases q r d :
  0 < d → 0 ≤ r < d →
  (F64.half_even q r d = q ∨ F64.half_even q r d = q + 1)
  ∧ (r = 0 → F64.half_even q r d = q).
Proof.
  intros Hd Hr. unfold F64.half_even.
  destruct (Z.compare_spec (2 * r) d); [destruct (Z.even q)| |];
    (split; [tauto|]); intros; first [done | lia].
Qed.

(** Rounding twice, to a multiple of [1/a] and then to an integer, stays
    between the floor and the ceiling. *)
Lemma half_even_twice g a d :
  0 ≤ g → 0 < a → 0 < d →
  let M := F64.half_even (g / a) (g mod a) a in
  let n := F64.half_even (M / d) (M mod d) d in
  let q := g / (a * d) in
  (n = q ∨ n = q + 1) ∧ (g mod (a * d) = 0 → n = q).
Proof.
  intros Hg Ha Hd M n q.
  pose proof (Z.div_mod g a ltac:(lia)) as Eg.
  pose proof (Z.mod_pos_bound g a Ha) as Hrg.
  set (c := g / a) in *. set (rk := g mod a) in *.
  assert (0 ≤ c) as Hc by (apply Z.div_pos; lia).
  pose proof (Z.div_mod c d ltac:(lia)) as Ec.
  pose proof (Z.mod_pos_bound c d Hd) as Hrc.
  assert (q = c / d) as Hq by (unfold q, c; by rewrite Z.div_div by lia).
  set (qc := c / d) in *. set (rc := c mod d) in *.
  assert (g mod (a * d) = a * rc + rk) as Hmod.
  { symmetry. apply (Z.mod_unique_pos g (a * d) qc); nia. }
  destruct (half_even_cases c rk a Ha Hrg) as [HM HM0]. fold M in HM, HM0.
  assert (0 ≤ qc) as Hqc by (apply Z.div_pos; lia).
  destruct HM as [HM|HM].
  - (* the first rounding went down *)
    destruct (half_even_cases (M / d) (M mod d) d Hd (Z.mod_pos_bound M d Hd))
      as [Hn Hn0]. fold n in Hn, Hn0.
    rewrite HM in Hn, Hn0. fold qc rc in Hn, Hn0. rewrite Hq.
    split; [done|]. intros Hz. apply Hn0. nia.
  - (* the first rounding went up *)
    assert (rk ≠ 0) as Hrk by (intros Hz; specialize (HM0 Hz); lia).
    split; [|intros Hz; nia].
    destruct (Z.eq_dec (rc + 1) d) as [Hfull|Hnot].
    + assert (M / d = qc + 1) as HMq.
      { symmetry. apply (Z.div_unique_pos M d (qc + 1) 0); lia. }
      assert (M mod d = 0) as HMr.
      { symmetry. apply (Z.mod_unique_pos M d (qc + 1) 0); lia. }
      destruct (half_even_cases (M / d) (M mod d) d Hd (Z.mod_pos_bound M d Hd))
        as [_ Hn0]. fold n in Hn0. specialize (Hn0 HMr). lia.
    + assert (M / d = qc) as HMq.
      { symmetry. apply (Z.div_unique_pos M d qc (rc + 1)); lia. }
      destruct (half_even_cases (M / d) (M mod d) d Hd (Z.mod_pos_bound M d Hd))
        as [Hn _]. fold n in Hn. lia.
Qed.

(** X11: what is stored for a moderate value is one of the two tenths next to
    it: with [q] the number of whole tenths in the magnitude, the float
    nearest to [q / 10] or to [(q + 1) / 10], and the first when the value
    is a whole number of tenths. *)
Theorem round1_neighbouring_tenth (s : bool) (m : positive) (e : Z) :
  is_float64 (S754_finite s m e) = true →
  below_2_52_tenths (S754_finite s m e) = true →
  ∃ n, (n = 10 * Z.pos m / 2 ^ (- e) ∨ n = 10 * Z.pos m / 2 ^ (- e) + 1)
       ∧ ((10 * Z.pos m) mod 2 ^ (- e) = 0 → n = 10 * Z.pos m / 2 ^ (- e))
       ∧ e < 0
       ∧ F64.round1 (S754_finite s m e) = tenth s n.
Proof.
  intros Hv Hb.
  destruct (mul_ten_small s m e Hv Hb) as (k & M & Hk & HMdef & HM & HMb & HE).
  destruct (rint_small s M (e + k) HMb HE) as (n & Hn & Hndef & Hr).
  exists n.
  assert (2 ^ (- e) = 2 ^ k * 2 ^ (- (e + k))) as Hsplit.
  { rewrite <- Z.pow_add_r by lia. f_equal. lia. }
  rewrite Hsplit.
  pose proof (half_even_twice (10 * Z.pos m) (2 ^ k) (2 ^ (- (e + k)))
                ltac:(lia) ltac:(apply Z.pow_pos_nonneg; lia)
                ltac:(apply Z.pow_pos_nonneg; lia)) as H.
  cbn zeta in H. rewrite <- HMdef, <- Hndef in H. destruct H as [H1 H2].
  split; [done|]. split; [done|]. split; [lia|].
  unfold F64.round1, tenth. by rewrite HM, Hr.
Qed.

Lemma round1_neighbouring_tenth_witness :
  ∃ n, (n = 1 ∨ n = 2) ∧ F64.round1 (Examples.dec 15 (-2)) = tenth false n.
Proof.
  destruct (round1_neighbouring_tenth false 5404319552844595 (-55)) as (n & Hn & _ & _ & H).
  - vm_compute. reflexivity.
  - vm_compute. reflexivity.
  - exists n. split; [|exact H].
    change (10 * Z.pos 5404319552844595 / 2 ^ (- -55)) with 1 in Hn. lia.
Defined.

(** ** The written text is ASCII *)

Lemma all_chars_app P a b :
  all_chars P (a ++ b) = all_chars P a && all_chars P b.
Proof.
  induction a as [|c a IH]; [done|].
  cbn [String.append all_chars]. by rewrite IH, andb_assoc.
Qed.

Lemma all_digits_plain s : all_digits s = true → all_chars is_plain_ascii s = true.
Proof.
  induction s as [|c s IH]; [done|]. cbn [all_digits all_chars].
  intros H. apply andb_true_iff in H as [Hc Hs]. rewrite (IH Hs), andb_true_r.
  revert Hc. clear. destruct c as [[] [] [] [] [] [] [] []]; by vm_compute.
Qed.

Lemma plain_take n s :
  all_chars is_plain_ascii s = true → all_chars is_plain_ascii (Repr.take n s) = true.
Proof.
  revert s. induction n as [|n IH]; intros [|c s]; try done.
  cbn [Repr.take all_chars]. intros H. apply andb_true_iff in H as [-> Hs].
  by rewrite (IH s Hs).
Qed.

Lemma plain_drop n s :
  all_chars is_plain_ascii s = true → all_chars is_plain_ascii (Repr.drop n s) = true.
Proof.
  revert s. induction n as [|n IH]; intros [|c s]; try done.
  cbn [Repr.drop all_chars]. intros H. apply andb_true_iff in H as [_ Hs].
  by apply IH.
Qed.

Lemma plain_zeros n : all_chars is_plain_ascii (Repr.zeros n) = true.
Proof. induction n as [|n IH]; [done|]. cbn [Repr.zeros all_chars]. by rewrite IH. Qed.

Lemma plain_digits n : 0 ≤ n → all_chars is_plain_ascii (Digits.digits n) = true.
Proof. intros Hn. apply all_digits_plain. by apply digits_spec. Qed.

Ltac plain_parts :=
  rewrite ?all_chars_app;
  repeat (apply andb_true_iff; split);
  try reflexivity; try assumption.

Lemma plain_layout ds p :
  all_chars is_plain_ascii ds = true →
  all_chars is_plain_ascii (Repr.layout ds p) = true.
Proof.
  intros H. unfold Repr.layout.
  destruct (_ || _).
  - destruct (1 <? _), (p - 1 <? 0), (Z.abs (p - 1) <? 10); plain_parts;
      try (by apply plain_take); try (by apply plain_drop);
      apply plain_digits; lia.
  - destruct (p <=? 0); [|destruct (_ <=? p)]; plain_parts;
      try apply plain_zeros; try (by apply plain_take); by apply plain_drop.
Qed.

Lemma plain_repr x : all_chars is_plain_ascii (Repr.repr x) = true.
Proof.
  destruct x as [s|s| |s m e]; try (by destruct s); [done|].
  cbn [Repr.repr]. destruct (Repr.shortest m e) as [[d k]|] eqn:E; [|done].
  apply shortest_reads_back in E as [Hd _].
  destruct s; plain_parts; apply plain_layout, plain_digits; lia.
Qed.

Lemma plain_escape s : all_chars is_plain_ascii (Json.escape s) = true.
Proof.
  induction s as [|c s IH]; [done|]. cbn [Json.escape].
  rewrite all_chars_app, IH, andb_true_r.
  clear. destruct c as [[] [] [] [] [] [] [] []]; by vm_compute.
Qed.

Lemma plain_basestring s :
  all_chars is_plain_ascii (Json.encode_basestring_ascii s) = true.
Proof. unfold Json.encode_basestring_ascii. plain_parts. apply plain_escape. Qed.

Lemma plain_value v : all_chars is_plain_ascii (Json.iterencode_value v).1 = true.
Proof.
  destruct v as [|[]|n|x|s|t]; try done; cbn [Json.iterencode_value Json.yield fst].
  - unfold Json.intstr. destruct (n <? 0) eqn:E; plain_parts.
    + apply plain_digits. apply Z.ltb_lt in E. lia.
    + apply plain_digits. apply Z.ltb_ge in E. lia.
  - destruct x as [s|[]| |s m e]; try done; apply plain_repr.
  - apply plain_basestring.
Qed.

Lemma plain_then a b :
  all_chars is_plain_ascii a.1 = true → all_chars is_plain_ascii b.1 = true →
  all_chars is_plain_ascii (Json.then_ a b).1 = true.
Proof.
  destruct a as [s [e|]]; cbn [Json.then_ fst]; [done|].
  intros Ha Hb. by rewrite all_chars_app, Ha, Hb.
Qed.

Lemma plain_indent level : all_chars is_plain_ascii (Json.indent level) = true.
Proof. induction level as [|l IH]; [done|]. cbn [Json.indent]. by rewrite all_chars_app, IH. Qed.

Lemma plain_items first level items :
  all_chars is_plain_ascii (Json.iterencode_items first level items).1 = true.
Proof.
  revert first. induction items as [|[k v] items IH]; intros first; [done|].
  cbn [Json.iterencode_items]. repeat apply plain_then; try done.
  - destruct first; [done|]. cbn [Json.yield fst]. plain_parts. apply plain_indent.
  - apply plain_basestring.
  - apply plain_value.
Qed.

Lemma plain_dict level dct :
  all_chars is_plain_ascii (Json.iterencode_dict level dct).1 = true.
Proof.
  destruct dct as [|kv dct]; [done|]. unfold Json.iterencode_dict.
  repeat apply plain_then; try done.
  - cbn [Json.yield fst]. plain_parts. apply (plain_indent (S level)).
  - apply plain_items.
  - cbn [Json.yield fst]. plain_parts. apply plain_indent.
Qed.

Lemma plain_elements first level lst :
  all_chars is_plain_ascii (Json.iterencode_elements first level lst).1 = true.
Proof.
  revert first. induction lst as [|r lst IH]; intros first; [done|].
  cbn [Json.iterencode_elements]. repeat apply plain_then; try done.
  - destruct first; cbn [Json.yield fst]; plain_parts; apply plain_indent.
  - apply plain_dict.
Qed.

(** X12: whatever the records hold, the encoder writes only newlines and
    printable ASCII characters: every other character of a name is
    escaped. *)
Theorem written_text_is_ascii (recs : list record) :
  all_chars is_plain_ascii (Json.iterencode_list recs).1 = true.
Proof.
  destruct recs as [|r recs]; [done|]. unfold Json.iterencode_list.
  apply plain_then; [apply plain_then; [apply plain_elements|done]|done].
Qed.

(** ** Infinite values *)

(** X13: an infinite value of a numeric column goes through the rounding
    unchanged and is written as the token [Infinity] or [-Infinity], which
    [json.dump] allows by default and strict JSON does not have. *)
Theorem infinite_value_written (df : DataFrame) (out : list record) (i : nat)
    (src dst : string) (l : list float) (s : bool) :
  wf_frame df → transform df = inr out →
  (src, dst) ∈ numeric_fields → column df src = Some (Float64 l) →
  l !! i = Some (S754_infinity s) →
  ∃ r, out !! i = Some r
       ∧ alist_get dst r = Some (PyFloat (S754_infinity s))
       ∧ Json.iterencode_value (PyFloat (S754_infinity s))
         = Json.yield (if s then "-Infinity" else "Infinity").
Proof.
  intros Hwf E Hf Hs Hx.
  destruct (float_field_value df out i src dst l _ Hwf E Hf Hs Hx eq_refl)
    as (r & Hr & Hg).
  exists r. split; [done|]. split; [|by destruct s].
  rewrite Hg. by destruct s.
Qed.

Lemma infinite_value_written_witness :
  let df := Frame 1 (map (λ m, (m.1, Float64 [S754_infinity false])) relevant_cols) in
  ∃ out r, transform df = inr out ∧ out !! 0%nat = Some r
    ∧ alist_get "calories" r = Some (PyFloat (S754_infinity false))
    ∧ Json.iterencode_value (PyFloat (S754_infinity false)) = Json.yield "Infinity".
Proof.
  intros df.
  destruct (infinite_value_written df (to_dict (cleaned df)) 0 "energy_kcal" "calories"
              [S754_infinity false] false) as (r & Hr & Hg & Henc).
  - split; [repeat constructor | apply (bool_decide_unpack _); vm_compute; reflexivity].
  - vm_compute. reflexivity.
  - apply (bool_decide_unpack _). vm_compute. reflexivity.
  - reflexivity.
  - reflexivity.
  - exists (to_dict (cleaned df)), r. split; [vm_compute; reflexivity|]. by repeat split.
Defined.

(** * The digits of a float64

    [float.__repr__] never needs more than 17 digits: the search of
    [Repr.shortest] ends for every value of the format, and the text of a
    float reads back as that float. *)

(** ** binary64: a value near a float rounds to it *)

Section Near.

Local Abbreviation prec := F64.prec.
Local Abbreviation emax := F64.emax.

Lemma Zdigits2_le m k : 0 ≤ k → 0 ≤ m < 2 ^ k → Zdigits2 m ≤ k.
Proof.
  intros Hk [Hlo Hhi]. destruct (Z.eq_dec m 0) as [->|Hm]; [done|].
  pose proof (Zdigits2_bound m ltac:(lia)) as [Hb _].
  destruct (Z.le_gt_cases (Zdigits2 m) k) as [|Hgt]; [done|].
  assert (2 ^ k ≤ 2 ^ (Zdigits2 m - 1)) by (apply Z.pow_le_mono_r; lia). lia.
Qed.

Lemma Zdigits2_nonneg m : 0 ≤ m → 0 ≤ Zdigits2 m.
Proof. destruct m; simpl; lia. Qed.

(** The first stage of the rounding, for a quotient: the bits that the
    format cannot hold are dropped and the mantissa is rounded. *)
Lemma binary_round_aux_stage s a b e n :
  0 ≤ a → 0 < b →
  n = Z.max 0 (SpecFloat.fexp prec emax (Zdigits2 (a / b) + e) - e) →
  binary_round_aux prec emax s (a / b) e (loc_frac (a mod b) b)
  = let M := F64.half_even (a / (b * 2 ^ n)) (a mod (b * 2 ^ n)) (b * 2 ^ n) in
    let '(mrs, e2) := shr_fexp prec emax M (e + n) loc_Exact in
    match shr_m mrs with
    | Z0 => S754_zero s
    | Z.pos m => if e2 <=? emax - prec then S754_finite s m e2 else S754_infinity s
    | Z.neg _ => S754_nan
    end.
Proof.
  intros Ha Hb Hn.
  unfold binary_round_aux. unfold shr_fexp at 1. fold (shr_frac a b).
  assert (shr (shr_frac a b) e
            (SpecFloat.fexp prec emax (Zdigits2 (a / b) + e) - e)
          = (shr_frac a (b * 2 ^ n), e + n)) as ->.
  { destruct (Z.le_gt_cases 0 (SpecFloat.fexp prec emax (Zdigits2 (a / b) + e) - e))
      as [Hpos|Hneg].
    - rewrite shr_shr_frac by done. by replace n with
        (SpecFloat.fexp prec emax (Zdigits2 (a / b) + e) - e) by lia.
    - replace n with 0 by lia. rewrite Z.mul_1_r, Z.add_0_r.
      unfold shr. by destruct (_ - e) as [|p|p]; try lia. }
  rewrite round_nearest_even_frac by (apply Z.mul_pos_pos; lia).
  reflexivity.
Qed.

Lemma half_even_near a B m :
  0 < B → - B < 2 * (a - m * B) < B →
  F64.half_even (a / B) (a mod B) B = m.
Proof.
  intros HB H. unfold F64.half_even.
  destruct (Z.le_gt_cases (m * B) a) as [Hge|Hlt].
  - assert (a / B = m) as Hq
      by (symmetry; apply (Z.div_unique_pos a B m (a - m * B)); lia).
    assert (a mod B = a - m * B) as Hr
      by (symmetry; apply (Z.mod_unique_pos a B m (a - m * B)); lia).
    rewrite Hq, Hr.
    replace (2 * (a - m * B) ?= B) with Lt; [done|].
    symmetry. apply Z.compare_lt_iff. lia.
  - assert (a / B = m - 1) as Hq
      by (symmetry; apply (Z.div_unique_pos a B (m - 1) (a - (m - 1) * B)); lia).
    assert (a mod B = a - (m - 1) * B) as Hr
      by (symmetry; apply (Z.mod_unique_pos a B (m - 1) (a - (m - 1) * B)); lia).
    rewrite Hq, Hr.
    replace (2 * (a - (m - 1) * B) ?= B) with Gt; [lia|].
    symmetry. apply Z.compare_gt_iff. lia.
Qed.

(** Just below an even [m], at most half a unit away, the mantissa is
    rounded up to [m]. *)
Lemma half_even_up a B m :
  0 < B → a < m * B → 2 * (m * B - a) ≤ B → Z.even m = true →
  F64.half_even (a / B) (a mod B) B = m.
Proof.
  intros HB Hlt H Hev. unfold F64.half_even.
  assert (a / B = m - 1) as Hq
    by (symmetry; apply (Z.div_unique_pos a B (m - 1) (a - (m - 1) * B)); lia).
  assert (a mod B = a - (m - 1) * B) as Hr
    by (symmetry; apply (Z.mod_unique_pos a B (m - 1) (a - (m - 1) * B)); lia).
  rewrite Hq, Hr.
  destruct (Z.compare_spec (2 * (a - (m - 1) * B)) B) as [E|E|E]; [|lia|lia].
  replace (Z.even (m - 1)) with false; [lia|].
  symmetry. rewrite Z.even_sub, Hev. done.
Qed.

Lemma fexp_eq z : SpecFloat.fexp prec emax z = Z.max (z - 53) (-1074).
Proof. reflexivity. Qed.

Lemma shr_fexp_none M E :
  0 ≤ M → SpecFloat.fexp prec emax (Zdigits2 M + E) ≤ E →
  shr_fexp prec emax M E loc_Exact = (Build_shr_record M false false, E).
Proof.
  intros HM H. unfold shr_fexp, shr. cbn [shr_record_of_loc].
  assert (SpecFloat.fexp prec emax (Zdigits2 M + E) - E ≤ 0) as H' by lia.
  by destruct (_ - E) as [|p|p]; try lia.
Qed.

(** A value within half a unit in the last place of the float
    [mx * 2^ex], and within a quarter below it when the float is a power
    of two, rounds to that float.  The value is [a / b * 2^e]. *)
Lemma binary_round_aux_near a b e j mx ex :
  0 < a → 0 < b → 0 ≤ j → ex = e + j →
  0 < mx < 2 ^ 53 → -1074 ≤ ex ≤ 971 →
  ex = SpecFloat.fexp prec emax (Zdigits2 mx + ex) →
  e ≤ SpecFloat.fexp prec emax (Zdigits2 (a / b) + e) →
  - (b * 2 ^ j) < 2 * (a - mx * (b * 2 ^ j)) < b * 2 ^ j →
  (mx = 2 ^ 52 → -1074 < ex → 4 * (mx * (b * 2 ^ j) - a) ≤ b * 2 ^ j) →
  binary_round_aux prec emax false (a / b) e (loc_frac (a mod b) b)
  = S754_finite false (Z.to_pos mx) ex.
Proof.
  intros Ha Hb Hj Hex Hmx Hexb Hcan Hprec Hnear Hquarter.
  assert (0 < 2 ^ j) as Hpj by (apply Z.pow_pos_nonneg; lia).
  set (B := b * 2 ^ j) in *.
  assert (0 < B) as HB by (unfold B; lia).
  assert (a / b < 2 ^ (53 + j)) as Hqhi.
  { apply Z.div_lt_upper_bound; [lia|].
    rewrite Z.pow_add_r by lia. unfold B in *. nia. }
  assert (0 ≤ a / b) as Hq0 by (apply Z.div_pos; lia).
  pose proof (Zdigits2_le (a / b) (53 + j) ltac:(lia) ltac:(lia)) as HdigU.
  pose proof (Zdigits2_nonneg (a / b) Hq0) as Hdig0.
  pose proof (Zdigits2_bound mx ltac:(lia)) as [Hmlo Hmhi].
  pose proof (digits_le_53 mx Hmx) as Hdm.
  rewrite fexp_eq in Hcan, Hprec.
  (* the float is reached in one rounding step when the value is in its
     binade, or in the subnormal range *)
  assert (∀ n, n = j → Z.max (Zdigits2 (a / b) + e - 53) (-1074) = ex →
            binary_round_aux prec emax false (a / b) e (loc_frac (a mod b) b)
            = S754_finite false (Z.to_pos mx) ex) as Hsame.
  { intros n -> HE.
    rewrite (binary_round_aux_stage false a b e j) by (rewrite ?fexp_eq; lia).
    cbn zeta. fold B. rewrite (half_even_near a B mx HB Hnear).
    replace (e + j) with ex by lia.
    rewrite shr_fexp_none by (rewrite ?fexp_eq; lia).
    cbn [shr_m]. destruct mx as [|p|p]; try lia.
    replace (ex <=? emax - prec) with true; [done|].
    symmetry. apply Z.leb_le. unfold F64.prec, F64.emax. lia. }
  destruct (Z.eq_dec ex (-1074)) as [Hsub|Hnorm].
  { apply (Hsame j eq_refl). lia. }
  assert (Zdigits2 mx = 53) as Hd53 by lia.
  rewrite Hd53 in Hmlo. change (2 ^ (53 - 1)) with (2 ^ 52) in Hmlo.
  destruct (Z.le_gt_cases (2 ^ 52 * B) a) as [Hin|Hbelow].
  - (* the value is in the binade of the float *)
    assert (2 ^ (52 + j) ≤ a / b) as Hqlo.
    { apply Z.div_le_lower_bound; [lia|].
      rewrite Z.pow_add_r by lia. unfold B in *. nia. }
    assert (Zdigits2 (a / b) = 53 + j) as Hdq.
    { apply Zdigits2_eq; [lia|].
      replace (53 + j - 1) with (52 + j) by lia. lia. }
    apply (Hsame j eq_refl). lia.
  - (* the value is below the binade: the float is a power of two *)
    assert (mx = 2 ^ 52) as Hpow by nia.
    specialize (Hquarter Hpow ltac:(lia)).
    assert (2 ^ (51 + j) ≤ a / b) as Hqlo.
    { apply Z.div_le_lower_bound; [lia|].
      rewrite Z.pow_add_r by lia. unfold B in *. nia. }
    assert (a / b < 2 ^ (52 + j)) as Hqhi'.
    { apply Z.div_lt_upper_bound; [lia|].
      rewrite Z.pow_add_r by lia. unfold B in *. nia. }
    assert (Zdigits2 (a / b) = 52 + j) as Hdq.
    { apply Zdigits2_eq; [lia|].
      replace (52 + j - 1) with (51 + j) by lia. lia. }
    rewrite Hdq in Hprec.
    assert (1 ≤ j) as Hj1 by lia.
    rewrite (binary_round_aux_stage false a b e (j - 1))
      by (rewrite ?fexp_eq, ?Hdq; lia).
    cbn zeta.
    assert (2 ^ j = 2 * 2 ^ (j - 1)) as Hsplit.
    { rewrite <- Z.pow_succ_r by lia. f_equal. lia. }
    set (B' := b * 2 ^ (j - 1)).
    assert (B = 2 * B') as HBB by (unfold B, B'; rewrite Hsplit; ring).
    assert (0 < B') as HB' by lia.
    rewrite (half_even_up a B' (2 ^ 53)); [|done|lia|lia|done].
    (* the carry: one more bit is dropped *)
    unfold shr_fexp. cbn [shr_record_of_loc].
    change (Zdigits2 (2 ^ 53)) with 54. rewrite fexp_eq.
    replace (Z.max (54 + (e + (j - 1)) - 53) (-1074) - (e + (j - 1))) with 1 by lia.
    change (2 ^ 53) with (2 ^ 52 * 2 ^ 1).
    rewrite shr_exact by lia. cbn [shr_m].
    replace (e + (j - 1) + 1) with ex by lia.
    rewrite Hpow.
    replace (ex <=? emax - prec) with true; [done|].
    symmetry. apply Z.leb_le. unfold F64.prec, F64.emax. lia.
Qed.

End Near.

(** ** binary64: the result of a rounding is a value of the format *)

Section Valid.

Local Abbreviation prec := F64.prec.
Local Abbreviation emax := F64.emax.

Lemma is_float64_intro s M E :
  0 < M → SpecFloat.fexp prec emax (Zdigits2 M + E) = E → E ≤ 971 →
  is_float64 (S754_finite s (Z.to_pos M) E) = true.
Proof.
  intros HM Hcan HE. unfold is_float64, valid_binary, bounded, canonical_mantissa.
  change (Z.pos (digits2_pos (Z.to_pos M))) with (Zdigits2 (Z.pos (Z.to_pos M))).
  rewrite Z2Pos.id by done. rewrite Hcan, Z.eqb_refl. cbn [andb].
  apply Z.leb_le. unfold F64.prec, F64.emax. lia.
Qed.

(** Rounding a quotient that has enough bits gives a float of the format:
    its mantissa has 53 bits, or fewer at the lowest exponent. *)
Lemma binary_round_aux_valid s a b e :
  0 ≤ a → 0 < b →
  e ≤ SpecFloat.fexp prec emax (Zdigits2 (a / b) + e) →
  is_float64 (binary_round_aux prec emax s (a / b) e (loc_frac (a mod b) b)) = true.
Proof.
  intros Ha Hb Hprec. rewrite fexp_eq in Hprec.
  assert (0 ≤ a / b) as Hq0 by (apply Z.div_pos; lia).
  pose proof (Zdigits2_nonneg (a / b) Hq0) as HL0.
  remember (Zdigits2 (a / b)) as L eqn:HL.
  remember (Z.max (L + e - 53) (-1074)) as E1 eqn:HE1.
  remember (E1 - e) as n eqn:Hndef.
  assert (0 ≤ n) as Hn by lia.
  assert (0 < 2 ^ n) as Hpn by (apply Z.pow_pos_nonneg; lia).
  rewrite (binary_round_aux_stage s a b e n) by (rewrite ?fexp_eq, <- ?HL; lia).
  cbn zeta. replace (e + n) with E1 by lia.
  set (B := b * 2 ^ n). assert (0 < B) as HB by (unfold B; lia).
  set (c := a / B).
  assert (c = a / b / 2 ^ n) as Hc by (unfold c, B; by rewrite Z.div_div by lia).
  (* the bits that are kept *)
  assert (0 ≤ c < 2 ^ 53 ∧ (-1074 < E1 → 2 ^ 52 ≤ c)) as [Hcb Hcn].
  { destruct (Z.eq_dec (a / b) 0) as [Hz|Hnz].
    - rewrite Hc, Hz, Z.div_0_l by lia. split; [lia|].
      rewrite Hz in HL. simpl in HL. lia.
    - pose proof (Zdigits2_bound (a / b) ltac:(lia)) as [Hlo Hhi].
      rewrite <- HL in Hlo, Hhi. rewrite Hc. split; [split|].
      + apply Z.div_pos; lia.
      + apply Z.div_lt_upper_bound; [lia|]. rewrite <- Z.pow_add_r by lia.
        eapply Z.lt_le_trans; [exact Hhi|]. apply Z.pow_le_mono_r; lia.
      + intros Hnorm. apply Z.div_le_lower_bound; [lia|].
        rewrite <- Z.pow_add_r by lia.
        eapply Z.le_trans; [|exact Hlo]. apply Z.pow_le_mono_r; lia. }
  destruct (half_even_cases c (a mod B) B HB (Z.mod_pos_bound a B HB)) as [HM _].
  fold c. set (M := F64.half_even c (a mod B) B) in *.
  destruct (Z.eq_dec M (2 ^ 53)) as [Hcarry|Hnc].
  - (* a carry: the mantissa is [2^53] and loses one more bit *)
    rewrite Hcarry. unfold shr_fexp. cbn [shr_record_of_loc].
    change (Zdigits2 (2 ^ 53)) with 54. rewrite fexp_eq.
    replace (Z.max (54 + E1 - 53) (-1074) - E1) with 1 by lia.
    change (2 ^ 53) with (2 ^ 52 * 2 ^ 1).
    rewrite shr_exact by lia. cbn [shr_m].
    change (2 ^ 52) with (Z.pos 4503599627370496).
    destruct (E1 + 1 <=? emax - prec) eqn:Hle; [|done].
    apply Z.leb_le in Hle. unfold F64.prec, F64.emax in Hle.
    apply (is_float64_intro s (2 ^ 52)); [done| |lia].
    change (Zdigits2 (2 ^ 52)) with 53. rewrite fexp_eq. lia.
  - assert (0 ≤ M < 2 ^ 53) as HMb by lia.
    assert (M = 0 ∨ SpecFloat.fexp prec emax (Zdigits2 M + E1) = E1) as Hcan.
    { destruct (Z.eq_dec M 0) as [|HM0]; [by left|right].
      rewrite fexp_eq. pose proof (digits_le_53 M ltac:(lia)) as Hd.
      destruct (Z.eq_dec E1 (-1074)) as [->|Hnorm]; [lia|].
      assert (Zdigits2 M = 53) as -> by (apply Zdigits2_eq; lia). lia. }
    rewrite shr_fexp_none; [|lia|].
    2:{ destruct Hcan as [Hz|Hz]; rewrite Hz; [|lia].
        simpl Zdigits2. rewrite fexp_eq. lia. }
    cbn [shr_m]. destruct M as [|p|p] eqn:EM; [done| |lia].
    destruct Hcan as [|Hcan]; [done|].
    destruct (E1 <=? emax - prec) eqn:Hle; [|done].
    apply Z.leb_le in Hle. unfold F64.prec, F64.emax in Hle.
    apply (is_float64_intro s (Z.pos p)); [done|done|lia].
Qed.

Lemma Zdigits2_lower m t : 0 ≤ t → 2 ^ t ≤ m → t + 1 ≤ Zdigits2 m.
Proof.
  intros Ht Hm.
  assert (0 < m) as Hpos by (pose proof (Z.pow_pos_nonneg 2 t); lia).
  pose proof (Zdigits2_bound m Hpos) as [_ Hhi].
  destruct (Z.le_gt_cases (t + 1) (Zdigits2 m)) as [|Hlt]; [done|].
  assert (2 ^ Zdigits2 m ≤ 2 ^ t).
  { apply Z.pow_le_mono_r; [lia|]. lia. }
  lia.
Qed.

(** A quotient by [10.0] is a float of the format, whatever is divided. *)
Lemma div_ten_valid x : is_float64 (F64.div x F64.ten) = true.
Proof.
  destruct x as [s|s| |s m e]; try done.
  unfold F64.div, F64.ten, SFdiv, SFdiv_core_binary.
  change (Zdigits2 5629499534213120) with 53.
  set (d1 := Zdigits2 (Z.pos m)).
  set (e' := Z.min (SpecFloat.fexp prec emax (d1 + e - (53 + -49))) (e - -49)).
  set (s' := e - -49 - e').
  assert (0 ≤ s') as Hs by (unfold s', e'; lia).
  set (m' := match s' with Z.pos _ => Z.shiftl (Z.pos m) s' | 0 => Z.pos m | _ => 0 end).
  assert (m' = Z.pos m * 2 ^ s') as Hm'.
  { unfold m'. destruct s' as [|p|p] eqn:Es; [lia| |lia].
    by rewrite Z.shiftl_mul_pow2 by lia. }
  assert (0 < 2 ^ s') as Hps by (apply Z.pow_pos_nonneg; lia).
  rewrite div_eucl_pair.
  rewrite new_location_frac by (try apply Z.mod_pos_bound; lia).
  apply binary_round_aux_valid; [lia|lia|].
  pose proof (Zdigits2_bound (Z.pos m) ltac:(lia)) as [Hlo _]. fold d1 in Hlo.
  assert (1 ≤ d1) as Hd1.
  { unfold d1. rewrite Zdigits2_log2 by lia. pose proof (Z.log2_nonneg (Z.pos m)). lia. }
  assert (0 ≤ m' / 5629499534213120) as Hq0 by (apply Z.div_pos; lia).
  pose proof (Zdigits2_nonneg _ Hq0) as Hdq0.
  assert (d1 + s' - 53 ≤ Zdigits2 (m' / 5629499534213120)) as Hdq.
  { destruct (Z.le_gt_cases (d1 + s') 53) as [|Hbig]; [lia|].
    replace (d1 + s' - 53) with (d1 + s' - 54 + 1) by lia.
    apply Zdigits2_lower; [lia|].
    apply Z.div_le_lower_bound; [lia|].
    assert (2 ^ (d1 - 1 + s') ≤ m').
    { rewrite Hm', Z.pow_add_r by lia. nia. }
    assert (5629499534213120 * 2 ^ (d1 + s' - 54) ≤ 2 ^ 53 * 2 ^ (d1 + s' - 54))
      by (apply Z.mul_le_mono_nonneg_r; [apply Z.pow_nonneg|]; lia).
    rewrite <- Z.pow_add_r in * by lia.
    replace (53 + (d1 + s' - 54)) with (d1 - 1 + s') in * by lia. lia. }
  assert (e' = Z.min (Z.max (d1 + e - 4 - 53) (-1074)) (e + 49)) as He'
    by (unfold e'; rewrite fexp_eq; lia).
  assert (s' = e + 49 - e') as Hs' by (unfold s'; lia).
  clearbody m' s' e' d1. rewrite fexp_eq. lia.
Qed.

Lemma round1_valid x : is_float64 (F64.round1 x) = true.
Proof. apply div_ten_valid. Qed.

End Valid.

(** ** Decimals that read as a given float *)

Section Reading.

Local Abbreviation prec := F64.prec.
Local Abbreviation emax := F64.emax.

Lemma pow2_num_pos z : 0 < pow2_num z.
Proof. unfold pow2_num. destruct (0 <=? z) eqn:E; [|lia]. apply Z.pow_pos_nonneg; lia. Qed.

Lemma pow2_den_pos z : 0 < pow2_den z.
Proof. unfold pow2_den. destruct (0 <=? z) eqn:E; [lia|]. apply Z.pow_pos_nonneg; lia. Qed.

(** [2^j / 2^s] is [2^(j - s)]. *)
Lemma pow2_frac s j :
  0 ≤ s → 0 ≤ j → 2 ^ j * pow2_den (j - s) = pow2_num (j - s) * 2 ^ s.
Proof.
  intros Hs Hj. unfold pow2_num, pow2_den.
  destruct (Z.leb_spec 0 (j - s)).
  - rewrite Z.mul_1_r, <- Z.pow_add_r by lia. f_equal. lia.
  - rewrite Z.mul_1_l, <- Z.pow_add_r by lia. f_equal. lia.
Qed.

Lemma near_scale cn cd cn' cd' mx ex :
  0 < cd → 0 < cd' → cn * cd' = cn' * cd →
  near cn cd mx ex → near cn' cd' mx ex.
Proof.
  intros Hcd Hcd' Heq. unfold near.
  pose proof (pow2_num_pos ex) as Hun. pose proof (pow2_den_pos ex) as Hud.
  set (un := pow2_num ex) in *. set (ud := pow2_den ex) in *.
  assert ((cn * ud - mx * un * cd) * cd' = (cn' * ud - mx * un * cd') * cd) as HX.
  { transitivity (cn * cd' * ud - mx * un * cd * cd'); [ring|]. rewrite Heq. ring. }
  replace (mx * un * cd - cn * ud) with (- (cn * ud - mx * un * cd)) by ring.
  replace (mx * un * cd' - cn' * ud) with (- (cn' * ud - mx * un * cd')) by ring.
  set (X := cn * ud - mx * un * cd) in *. set (X' := cn' * ud - mx * un * cd') in *.
  set (U := un * cd). set (U' := un * cd').
  assert (U * cd' = U' * cd) as HU by (unfold U, U'; ring).
  assert (0 < U) by (unfold U; lia). assert (0 < U') by (unfold U'; lia).
  clearbody X X' U U'. intros [[H1 H1'] H2].
  split; [split|].
  - apply (Z.mul_lt_mono_pos_r cd); [done|]. nia.
  - apply (Z.mul_lt_mono_pos_r cd); [done|]. nia.
  - intros Hm He. specialize (H2 Hm He).
    apply (Z.mul_le_mono_pos_r _ _ cd); [done|]. nia.
Qed.

(** The exponent that the rounding functions start from is not above
    that of a float near the value. *)
Lemma near_exp cn cd t mx ex :
  0 < cn → 0 < cd ≤ 2 ^ t → 0 ≤ t → 0 < mx < 2 ^ 53 → -1074 ≤ ex →
  near cn cd mx ex →
  Z.min (SpecFloat.fexp prec emax (Zdigits2 cn - t)) 0 ≤ ex.
Proof.
  intros Hcn Hcd Ht Hmx Hex [H1 _]. cbn zeta in H1.
  destruct (Z.le_gt_cases 0 ex) as [|Hneg]; [lia|].
  rewrite fexp_eq.
  unfold pow2_num, pow2_den in H1.
  replace (0 <=? ex) with false in H1 by (symmetry; apply Z.leb_gt; lia).
  pose proof (Zdigits2_bound cn Hcn) as [Hlo _].
  set (d1 := Zdigits2 cn) in *.
  assert (0 < 2 ^ (- ex)) as Hp by (apply Z.pow_pos_nonneg; lia).
  assert (1 ≤ d1).
  { unfold d1. rewrite Zdigits2_log2 by lia. pose proof (Z.log2_nonneg cn). lia. }
  assert (2 ^ (d1 - 1 + - ex) < 2 ^ (53 + t)) as Hpow.
  { rewrite !Z.pow_add_r by lia.
    set (ud := 2 ^ (- ex)) in *.
    assert (cn * ud < 2 ^ 53 * cd) as Hc by nia.
    assert (2 ^ (d1 - 1) * ud ≤ cn * ud)
      by (apply Z.mul_le_mono_nonneg_r; lia).
    assert (2 ^ 53 * cd ≤ 2 ^ 53 * 2 ^ t)
      by (apply Z.mul_le_mono_nonneg_l; lia).
    lia. }
  apply Z.pow_lt_mono_r_iff in Hpow; lia.
Qed.

(** From the fraction to the operands of the rounding: the value
    [cn / cd], held as the quotient of [cn * 2^s] by [cd] at exponent
    [- s]. *)
Lemma round_fraction_near cn cd s mx ex :
  0 < cn → 0 < cd → 0 ≤ s → - s ≤ ex →
  0 < mx < 2 ^ 53 → -1074 ≤ ex ≤ 971 →
  ex = SpecFloat.fexp prec emax (Zdigits2 mx + ex) →
  - s ≤ SpecFloat.fexp prec emax (Zdigits2 (cn * 2 ^ s / cd) + - s) →
  near cn cd mx ex →
  binary_round_aux prec emax false (cn * 2 ^ s / cd) (- s)
    (loc_frac ((cn * 2 ^ s) mod cd) cd)
  = S754_finite false (Z.to_pos mx) ex.
Proof.
  intros Hcn Hcd Hs Hj Hmx Hex Hcan Hprec [H1 H2]. cbn zeta in *.
  assert (0 < 2 ^ s) as Hps by (apply Z.pow_pos_nonneg; lia).
  assert (0 < 2 ^ (ex + s)) as Hpj by (apply Z.pow_pos_nonneg; lia).
  pose proof (pow2_num_pos ex) as Hun. pose proof (pow2_den_pos ex) as Hud.
  pose proof (pow2_frac s (ex + s) Hs ltac:(lia)) as Hfrac.
  replace (ex + s - s) with ex in Hfrac by lia.
  set (un := pow2_num ex) in *. set (ud := pow2_den ex) in *.
  set (J := 2 ^ (ex + s)) in *. set (S := 2 ^ s) in *.
  (* [J * ud = un * S]: scale the inequalities by [J * ud] *)
  assert ((cn * S - mx * (cd * J)) * ud = (cn * ud - mx * un * cd) * S) as HX.
  { transitivity (cn * ud * S - mx * cd * (J * ud)); [ring|]. rewrite Hfrac. ring. }
  assert (cd * J * ud = un * cd * S) as HB.
  { transitivity (cd * (J * ud)); [ring|]. rewrite Hfrac. ring. }
  apply (binary_round_aux_near (cn * S) cd (- s) (ex + s) mx ex);
    try lia; try done; fold J.
  - split.
    + apply (Z.mul_lt_mono_pos_r ud); [done|].
      replace (- (cd * J) * ud) with (- (cd * J * ud)) by ring.
      replace (2 * (cn * S - mx * (cd * J)) * ud)
        with (2 * ((cn * S - mx * (cd * J)) * ud)) by ring.
      rewrite HX, HB. nia.
    + apply (Z.mul_lt_mono_pos_r ud); [done|].
      replace (2 * (cn * S - mx * (cd * J)) * ud)
        with (2 * ((cn * S - mx * (cd * J)) * ud)) by ring.
      rewrite HX, HB. nia.
  - intros Hm He. specialize (H2 Hm He).
    apply (Z.mul_le_mono_pos_r _ _ ud); [done|].
    replace (4 * (mx * (cd * J) - cn * S) * ud)
      with (-4 * ((cn * S - mx * (cd * J)) * ud)) by ring.
    rewrite HX, HB. nia.
Qed.

Lemma digits_div_lower A Bd :
  0 < A → 0 < Bd → Zdigits2 A - Zdigits2 Bd ≤ Zdigits2 (A / Bd).
Proof.
  intros HA HB.
  assert (0 ≤ A / Bd) as Hq by (apply Z.div_pos; lia).
  pose proof (Zdigits2_nonneg _ Hq).
  pose proof (Zdigits2_bound A HA) as [Hlo _].
  pose proof (Zdigits2_bound Bd HB) as [_ Hhi].
  set (dA := Zdigits2 A) in *. set (dB := Zdigits2 Bd) in *.
  assert (1 ≤ dB).
  { unfold dB. rewrite Zdigits2_log2 by lia. pose proof (Z.log2_nonneg Bd). lia. }
  destruct (Z.le_gt_cases (dA - dB) 0) as [|Hpos]; [lia|].
  replace (dA - dB) with (dA - dB - 1 + 1) by lia.
  apply Zdigits2_lower; [lia|].
  apply Z.div_le_lower_bound; [lia|].
  assert (Bd * 2 ^ (dA - dB - 1) ≤ 2 ^ dB * 2 ^ (dA - dB - 1)).
  { apply Z.mul_le_mono_nonneg_r; [apply Z.pow_nonneg|]; lia. }
  rewrite <- Z.pow_add_r in * by lia.
  replace (dB + (dA - dB - 1)) with (dA - 1) in * by lia. lia.
Qed.

(** Reading a decimal near a float gives that float. *)
Lemma round_decimal_near d k mx ex :
  0 < mx < 2 ^ 53 → -1074 ≤ ex ≤ 971 →
  ex = SpecFloat.fexp prec emax (Zdigits2 mx + ex) →
  near (dec_num (Z.pos d) k) (dec_den k) mx ex →
  Repr.round_decimal d k = S754_finite false (Z.to_pos mx) ex.
Proof.
  intros Hmx Hex Hcan Hnear. unfold Repr.round_decimal.
  unfold dec_num, dec_den in Hnear.
  destruct (Z.leb_spec 0 k) as [Hk|Hk].
  - (* an integer: [binary_normalize] *)
    assert (0 < Z.pos d * 10 ^ k) as Hp
      by (apply Z.mul_pos_pos; [lia|apply Z.pow_pos_nonneg; lia]).
    destruct (Z.pos d * 10 ^ k) as [|p|p] eqn:Ep; try lia.
    pose proof (near_exp (Z.pos p) 1 0 mx ex ltac:(lia) ltac:(simpl; lia) ltac:(lia)
                  Hmx ltac:(lia) Hnear) as Hexp.
    rewrite Z.sub_0_r in Hexp.
    unfold binary_normalize, binary_round, shl_align.
    change (Z.pos (digits2_pos p)) with (Zdigits2 (Z.pos p)).
    rewrite Z.add_0_r.
    pose proof (Zdigits2_bound (Z.pos p) ltac:(lia)) as [Hlo Hhi].
    assert (1 ≤ Zdigits2 (Z.pos p)) as Hd1.
    { rewrite Zdigits2_log2 by lia. pose proof (Z.log2_nonneg (Z.pos p)). lia. }
    set (dp := Zdigits2 (Z.pos p)) in *.
    rewrite fexp_eq in Hexp |- *.
    destruct (Z.max (dp - 53) (-1074) - 0) as [|sh|sh] eqn:Esh.
    + pose proof (round_fraction_near (Z.pos p) 1 0 mx ex) as H.
      change (2 ^ 0) with 1 in H. rewrite Z.mul_1_r, Z.div_1_r, Z.mod_1_r in H.
      apply H; try lia; try done.
      rewrite fexp_eq. fold dp. lia.
    + pose proof (round_fraction_near (Z.pos p) 1 0 mx ex) as H.
      change (2 ^ 0) with 1 in H. rewrite Z.mul_1_r, Z.div_1_r, Z.mod_1_r in H.
      apply H; try lia; try done.
      rewrite fexp_eq. fold dp. lia.
    + rewrite pos_iter_xO.
      pose proof (round_fraction_near (Z.pos p) 1 (Z.pos sh) mx ex) as H.
      rewrite Z.div_1_r, Z.mod_1_r in H.
      replace (Z.max (dp - 53) (-1074)) with (- Z.pos sh) by lia.
      apply H; try lia; try done.
      rewrite fexp_eq, Zdigits2_mul_pow2 by lia. fold dp. lia.
  - (* a fraction: [SFdiv] *)
    assert (0 < 10 ^ (- k)) as HT by (apply Z.pow_pos_nonneg; lia).
    set (T := 10 ^ (- k)) in *.
    pose proof (Zdigits2_bound T HT) as [_ HTd].
    pose proof (Zdigits2_nonneg T ltac:(lia)) as Hd2.
    pose proof (near_exp (Z.pos d) T (Zdigits2 T) mx ex ltac:(lia) ltac:(lia) Hd2
                  Hmx ltac:(lia) Hnear) as Hexp.
    unfold SFdiv, SFdiv_core_binary. rewrite Z2Pos.id by done.
    rewrite !Z.add_0_r, Z.sub_0_r.
    set (d1 := Zdigits2 (Z.pos d)) in *. set (d2 := Zdigits2 T) in *.
    rewrite fexp_eq in Hexp |- *.
    assert (∃ s, 0 ≤ s ∧ Z.min (Z.max (d1 - d2 - 53) (-1074)) 0 = - s) as (s & Hs & Hse).
    { exists (- Z.min (Z.max (d1 - d2 - 53) (-1074)) 0). lia. }
    rewrite Hse. replace (0 - - s) with s by lia.
    assert (match s with
            | 0 => Z.pos d
            | Z.pos _ => Z.shiftl (Z.pos d) s
            | Z.neg _ => 0
            end = Z.pos d * 2 ^ s) as ->.
    { destruct s as [|p|p]; [simpl; lia| |lia]. by rewrite Z.shiftl_mul_pow2 by lia. }
    rewrite div_eucl_pair, xorb_false_r.
    rewrite new_location_frac by (try apply Z.mod_pos_bound; lia).
    apply round_fraction_near; try lia; try done.
    assert (0 < 2 ^ s) by (apply Z.pow_pos_nonneg; lia).
    pose proof (digits_div_lower (Z.pos d * 2 ^ s) T ltac:(lia) HT) as Hdq.
    rewrite Zdigits2_mul_pow2 in Hdq by lia. fold d1 d2 in Hdq.
    rewrite fexp_eq. lia.
Qed.

Lemma dec_den_pos k : 0 < dec_den k.
Proof.
  unfold dec_den. destruct (Z.leb_spec 0 k); [lia|]. apply Z.pow_pos_nonneg; lia.
Qed.

(** Moving zeros between the digits and the exponent keeps the fraction. *)
Lemma dec_frac_shift d k d' k' :
  k ≤ k' → d = d' * 10 ^ (k' - k) →
  dec_num d k * dec_den k' = dec_num d' k' * dec_den k.
Proof.
  intros Hk ->. unfold dec_num, dec_den.
  destruct (Z.leb_spec 0 k), (Z.leb_spec 0 k'); try lia.
  - rewrite !Z.mul_1_r, <- Z.mul_assoc, <- Z.pow_add_r by lia. do 2 f_equal; lia.
  - rewrite Z.mul_1_r, <- Z.mul_assoc, <- Z.pow_add_r by lia. do 2 f_equal; lia.
  - rewrite <- !Z.mul_assoc, <- Z.pow_add_r by lia. do 2 f_equal; lia.
Qed.

Lemma of_decimal_near d k mx ex :
  0 < mx < 2 ^ 53 → -1074 ≤ ex ≤ 971 →
  ex = SpecFloat.fexp prec emax (Zdigits2 mx + ex) →
  near (dec_num (Z.pos d) k) (dec_den k) mx ex →
  Repr.of_decimal d k = S754_finite false (Z.to_pos mx) ex.
Proof.
  intros Hmx Hex Hcan Hnear. unfold Repr.of_decimal.
  destruct (Repr.strip_zeros _ (Z.pos d) k) as [d' k'] eqn:Es.
  apply strip_zeros_value in Es as (Hd' & Hk & Hv); [|lia].
  destruct d' as [|p|p]; try lia.
  apply round_decimal_near; try done.
  apply (near_scale (dec_num (Z.pos d) k) (dec_den k)); try apply dec_den_pos; [|done].
  by apply dec_frac_shift.
Qed.

End Reading.

(** ** The digits of every float64 are found *)

Section Shortest.

Local Abbreviation prec := F64.prec.
Local Abbreviation emax := F64.emax.

Lemma is_float64_exp s m e : is_float64 (S754_finite s m e) = true → e ≤ 971.
Proof.
  unfold is_float64, valid_binary, bounded. intros H.
  apply andb_true_iff in H as [_ H]. apply Z.leb_le in H.
  unfold F64.prec, F64.emax in H. lia.
Qed.

Lemma first_above_spec fuel n d p0 :
  Repr.first_above fuel n d p0 = p0
  ∨ Repr.below_pow10 n d (Repr.first_above fuel n d p0 - 1) = false.
Proof.
  revert p0. induction fuel as [|fuel IH]; intros p0; cbn [Repr.first_above]; [by left|].
  destruct (Repr.below_pow10 n d p0) eqn:E; [by left|].
  right. destruct (IH (p0 + 1)) as [-> | H]; [|done].
  by replace (p0 + 1 - 1) with p0 by lia.
Qed.

(** The estimate is checked on every exponent of the format. *)
Lemma estimate_table b : -1074 ≤ b ≤ 1023 → estimate_ok b = true.
Proof.
  intros Hb.
  assert (forallb estimate_ok (map (λ i, Z.of_nat i - 1074) (seq 0 2098)) = true) as H
    by (vm_compute; reflexivity).
  rewrite forallb_forall in H. apply H.
  apply in_map_iff. exists (Z.to_nat (b + 1074)). split; [lia|].
  apply in_seq. lia.
Qed.

(** A float is at least [10^(p - 1)], for the decimal point [p] that
    [decpt] gives. *)
Lemma decpt_lower m e :
  is_float64 (S754_finite false m e) = true →
  Repr.below_pow10 (Repr.num m e) (Repr.den e) (Repr.decpt m e - 1) = false.
Proof.
  intros Hv. pose proof (is_float64_exp _ _ _ Hv) as He971.
  apply is_float64_finite in Hv as (Hm & He & Hcan).
  unfold Repr.decpt.
  change (Z.pos (digits2_pos m)) with (Zdigits2 (Z.pos m)).
  set (dm := Zdigits2 (Z.pos m)) in *.
  pose proof (digits_le_53 (Z.pos m) ltac:(lia)) as Hdm. fold dm in Hdm.
  pose proof (Zdigits2_bound (Z.pos m) ltac:(lia)) as [Hlo _]. fold dm in Hlo.
  destruct (first_above_spec 4 (Repr.num m e) (Repr.den e)
              ((dm + e - 1) * 30103 / 100000 - 1)) as [-> | H]; [|done].
  pose proof (estimate_table (dm + e - 1) ltac:(lia)) as Ht.
  unfold estimate_ok, estimate in Ht.
  replace ((dm + e - 1) * 30103 / 100000 - 1 - 1)
    with ((dm + e - 1) * 30103 / 100000 - 2) by lia.
  set (P := (dm + e - 1) * 30103 / 100000 - 2) in *.
  unfold Repr.below_pow10, Repr.num, Repr.den.
  destruct (Z.leb_spec 0 e) as [Hepos|Heneg].
  - (* an integer *)
    replace (0 <=? dm + e - 1) with true in Ht by (symmetry; apply Z.leb_le; lia).
    assert (0 < 2 ^ e) by (apply Z.pow_pos_nonneg; lia).
    assert (2 ^ (dm + e - 1) ≤ Z.pos m * 2 ^ e) as Hx.
    { replace (dm + e - 1) with (dm - 1 + e) by lia.
      rewrite Z.pow_add_r by lia. nia. }
    destruct (Z.leb_spec 0 P) as [HP|HP].
    + apply Z.leb_le in Ht. apply Z.ltb_ge. lia.
    + apply Z.ltb_ge. assert (0 < 10 ^ (- P)) by (apply Z.pow_pos_nonneg; lia). nia.
  - assert (0 < 2 ^ (- e)) by (apply Z.pow_pos_nonneg; lia).
    destruct (Z.leb_spec 0 (dm + e - 1)) as [Hb|Hb].
    + assert (2 ^ (dm + e - 1) * 2 ^ (- e) ≤ Z.pos m) as Hx.
      { rewrite <- Z.pow_add_r by lia.
        by replace (dm + e - 1 + - e) with (dm - 1) by lia. }
      assert (0 < 2 ^ (dm + e - 1)) by (apply Z.pow_pos_nonneg; lia).
      destruct (Z.leb_spec 0 P) as [HP|HP].
      * apply Z.leb_le in Ht. apply Z.ltb_ge. nia.
      * apply Z.ltb_ge. assert (0 < 10 ^ (- P)) by (apply Z.pow_pos_nonneg; lia). nia.
    + destruct (Z.leb_spec 0 P) as [HP|HP]; [discriminate|].
      apply Z.leb_le in Ht. apply Z.ltb_ge.
      assert (2 ^ (- e) = 2 ^ (dm - 1) * 2 ^ (- (dm + e - 1))) as ->.
      { rewrite <- Z.pow_add_r by lia. f_equal. lia. }
      assert (0 < 2 ^ (- (dm + e - 1))) by (apply Z.pow_pos_nonneg; lia).
      nia.
Qed.

(** With 17 digits one of the two decimals around a float reads back as
    the float. *)
Lemma candidate_17 m e p :
  is_float64 (S754_finite false m e) = true →
  Repr.below_pow10 (Repr.num m e) (Repr.den e) (p - 1) = false →
  Repr.candidate (S754_finite false m e) m e p 17 ≠ None.
Proof.
  intros Hv Hlow. pose proof (is_float64_exp _ _ _ Hv) as He971.
  apply is_float64_finite in Hv as (Hm & He & Hcan).
  set (mx := Z.pos m) in *.
  pose proof (pow2_num_pos e) as Hun. pose proof (pow2_den_pos e) as Hud.
  assert (Repr.num m e = mx * pow2_num e) as Hnum.
  { unfold Repr.num, pow2_num, mx. destruct (0 <=? e); lia. }
  assert (Repr.den e = pow2_den e) as Hden by reflexivity.
  set (un := pow2_num e) in *. set (ud := pow2_den e) in *.
  set (k := p - 17).
  pose proof (dec_den_pos k) as Htd.
  set (td := dec_den k) in *.
  set (tn := if 0 <=? k then 10 ^ k else 1).
  assert (0 < tn) as Htn.
  { unfold tn. destruct (Z.leb_spec 0 k); [apply Z.pow_pos_nonneg; lia|lia]. }
  unfold Repr.candidate. fold k.
  set (sn := if 0 <=? k then Repr.num m e else Repr.num m e * 10 ^ (- k)).
  set (sd := if 0 <=? k then Repr.den e * 10 ^ k else Repr.den e).
  assert (sn = mx * un * td) as Hsn.
  { unfold sn, td, dec_den. rewrite Hnum. destruct (0 <=? k); ring. }
  assert (sd = ud * tn) as Hsd.
  { unfold sd, tn. rewrite Hden. destruct (0 <=? k); ring. }
  assert (0 < sd) as Hsdpos by (rewrite Hsd; lia).
  (* the value has at least 17 digits before the point *)
  assert (10 ^ 16 * sd ≤ sn) as Hbig.
  { unfold Repr.below_pow10 in Hlow. rewrite Hnum, Hden in Hlow.
    rewrite Hsn, Hsd. unfold td, tn, dec_den.
    destruct (Z.leb_spec 0 k) as [Hk|Hk].
    - replace (0 <=? p - 1) with true in Hlow by (symmetry; apply Z.leb_le; lia).
      apply Z.ltb_ge in Hlow.
      replace (p - 1) with (16 + k) in Hlow by lia.
      rewrite Z.pow_add_r in Hlow by lia. lia.
    - assert (0 < 10 ^ (- k)) by (apply Z.pow_pos_nonneg; lia).
      destruct (Z.leb_spec 0 (p - 1)) as [HP|HP]; apply Z.ltb_ge in Hlow.
      + assert (10 ^ 16 = 10 ^ (p - 1) * 10 ^ (- k)) as ->.
        { rewrite <- Z.pow_add_r by lia. f_equal. lia. }
        nia.
      + assert (10 ^ (- k) = 10 ^ (- (p - 1)) * 10 ^ 16) as ->.
        { rewrite <- Z.pow_add_r by lia. f_equal. lia. }
        nia. }
  pose proof (Z.div_mod sn sd ltac:(lia)) as Hdiv.
  pose proof (Z.mod_pos_bound sn sd Hsdpos) as Hr.
  assert (10 ^ 16 ≤ sn / sd) as Hlo16 by (apply Z.div_le_lower_bound; lia).
  set (lo := sn / sd) in *. set (r := sn mod sd) in *.
  set (U := un * td). assert (0 < U) as HU by (unfold U; lia).
  assert (sn = mx * U) as HsnU by (rewrite Hsn; unfold U; ring).
  (* a decimal with the digits [d] at exponent [k] *)
  assert (∀ d, 0 < d →
            near (dec_num d k) td mx e →
            Repr.reads_back (S754_finite false m e) d k = true) as Hread.
  { intros d Hd Hnear. unfold Repr.reads_back. destruct d as [|pd|pd]; try lia.
    rewrite (of_decimal_near pd k mx e); [|lia|lia|done|done].
    unfold mx. rewrite Pos2Z.id. apply SFeqb_refl. }
  assert (∀ d, dec_num d k * ud - mx * un * td = d * sd - sn) as HX.
  { intros d. rewrite Hsd, Hsn. unfold dec_num, tn. destruct (0 <=? k); ring. }
  assert (near (dec_num lo k) td mx e
          ∨ (r ≠ 0 ∧ near (dec_num (lo + 1) k) td mx e)) as Hcase.
  { unfold near. cbn zeta. fold un ud U.
    replace (mx * un * td - dec_num lo k * ud)
      with (- (dec_num lo k * ud - mx * un * td)) by ring.
    replace (mx * un * td - dec_num (lo + 1) k * ud)
      with (- (dec_num (lo + 1) k * ud - mx * un * td)) by ring.
    rewrite !HX.
    replace (lo * sd - sn) with (- r) by lia.
    replace ((lo + 1) * sd - sn) with (sd - r) by lia.
    assert (sd < U) as HsdU by nia.
    destruct (Z.eq_dec mx (2 ^ 52)) as [Hpow|Hnp].
    - assert (2 * sd < U) as Hsd2 by nia.
      destruct (Z.eq_dec r 0) as [Hr0|Hr0].
      + left. rewrite Hr0. lia.
      + right. split; [done|]. lia.
    - destruct (Z.lt_ge_cases (2 * r) U) as [Hnear|Hfar].
      + left. lia.
      + right. split; [lia|]. lia. }
  destruct Hcase as [Hlo|[Hr0 Hhi]].
  - rewrite (Hread lo ltac:(lia) Hlo).
    destruct (_ && _); [destruct (_ ?= _); [destruct (Z.even _)| |]|]; done.
  - rewrite (Hread (lo + 1) ltac:(lia) Hhi).
    replace (r =? 0) with false by (symmetry; apply Z.eqb_neq; lia).
    cbn [negb andb].
    destruct (Repr.reads_back _ lo k);
      [destruct (_ ?= _); [destruct (Z.even _)| |]|]; done.
Qed.

(** 17 digits are enough: the search for the digits of a float64 ends. *)
Lemma shortest_float64 s m e :
  is_float64 (S754_finite s m e) = true → Repr.shortest m e ≠ None.
Proof.
  intros Hv. assert (is_float64 (S754_finite false m e) = true) as Hv' by exact Hv.
  unfold Repr.shortest.
  apply (search_finds 17 _ _ _ _ 1 16); [lia|].
  apply candidate_17; [done|]. by apply decpt_lower.
Qed.

Lemma printable_float64 v : float64_value v = true → printable v = true.
Proof.
  destruct v as [| | |x| |]; try done. destruct x as [s|s| |s m e]; try done.
  cbn [float64_value printable]. intros Hv.
  pose proof (shortest_float64 s m e Hv). by destruct (Repr.shortest m e).
Qed.

End Shortest.

(** ** The round trip of the file, for every sheet of float64 values *)

Lemma float64_clean numeric s i v :
  float64_series s = true → series_at s i = Some v →
  float64_value (clean_cell numeric (dtype_of s) v) = true.
Proof.
  intros Hs Hv. destruct s as [l|l|l]; cbn [series_at float64_series dtype_of] in *.
  - destruct (l !! i) as [x|] eqn:Hx; [|done]. injection Hv as <-.
    rewrite forallb_forall in Hs.
    specialize (Hs x (proj1 (list_elem_of_In _ _) (list_elem_of_lookup_2 _ _ _ Hx))).
    unfold clean_cell, fill_cell. cbn [isna].
    destruct (F64.is_nan x); destruct numeric; cbn [round_cell float64_value];
      try done; apply round1_valid.
  - destruct (l !! i) as [n|] eqn:Hn; [|done]. injection Hv as <-.
    by destruct numeric.
  - rewrite forallb_forall in Hs.
    specialize (Hs v (proj1 (list_elem_of_In _ _) (list_elem_of_lookup_2 _ _ _ Hv))).
    unfold clean_cell, fill_cell.
    destruct (isna v); [by destruct numeric|].
    assert (round_cell object v = v) as Hr by (by destruct v).
    destruct numeric; by rewrite ?Hr.
Qed.

(** Every float of the records of a sheet of float64 values has a
    [repr]. *)
Lemma float64_cells_printable df :
  float64_cells df → all_printable (to_dict (cleaned df)).
Proof.
  intros Hf. apply Forall_forall. intros r Hr.
  unfold to_dict in Hr. apply list_elem_of_fmap in Hr as (i & -> & _).
  apply Forall_forall. intros [k v] Hv.
  apply row_record_cleaned in Hv as (src & s & v0 & Hm & Hs & Hv0 & ->).
  apply printable_float64. apply (float64_clean _ s i); [|done].
  apply alist_get_elem in Hs.
  by apply (proj1 (Forall_forall _ _) Hf (src, s)).
Qed.

(** C8: when the conversion succeeds, parsing the text written to the
    destination gives back the list of records that was serialized.  The
    floats of the sheet are float64 values: the mantissa of a finite one
    has 53 bits, or fewer at the lowest exponent (the type of the model
    also has the other mantissas, which no float64 has).  That the digits
    of each float are found within the 17 that [float.__repr__] never
    exceeds is proved, not assumed. *)
Theorem dump_then_load (w w' : World) (df : DataFrame) (recs : list record) :
  wf_frame df → float64_cells df →
  read_excel w = inr df → transform df = inr recs →
  try_body w = (None, w') →
  ∃ text, dest w' = Some text
          ∧ Decoder.loads text = Some (Decoder.of_records recs).
Proof.
  intros Hwf Hf E1 E2 Hbody.
  destruct (try_body_success w w' df recs E1 E2 Hbody) as (text & Henc & Hdest).
  exists text. split; [done|].
  apply loads_iterencode_list; [done| |].
  - apply transform_inr in E2 as [_ ->]. by apply float64_cells_printable.
  - by apply (transform_keys_NoDup df).
Qed.

Lemma dump_then_load_witness :
  let w := Examples.world Examples.rice None in
  ∃ text, dest (try_body w).2 = Some text
    ∧ Decoder.loads text
      = Some (Decoder.of_records (to_dict (cleaned Examples.rice))).
Proof.
  intros w.
  apply (dump_then_load w (try_body w).2 Examples.rice).
  - exact wf_rice.
  - repeat constructor.
  - reflexivity.
  - vm_compute. reflexivity.
  - vm_compute. reflexivity.
Defined.
